(** * BytePS scheduler front-end: partitioning, key assignment, declaration
      and enqueue paths of [byteps/common/operations.cc] and
      [byteps/common/global.cc], as a shallow embedding. *)

From Stdlib Require Import ZArith List Lia Bool.
From stdpp Require Import base decidable numbers option list strings pretty
  countable gmap sets.

Local Open Scope Z_scope.

(** ** Machine integers

    [size_t], [uint64_t] and [ps::Key] are 64-bit unsigned, [unsigned int] and
    [uint32_t] are 32-bit unsigned, [int] and [int32_t] are 32-bit two's
    complement.  Values are carried as [Z]; every operation that can leave
    the range is followed by the wrap of its C++ type. *)

Definition u64 (z : Z) : Z := z mod 2 ^ 64.
Definition u32 (z : Z) : Z := z mod 2 ^ 32.
Definition i32 (z : Z) : Z := (z + 2 ^ 31) mod 2 ^ 32 - 2 ^ 31.

Definition INT32_MAX : Z := 2 ^ 31 - 1.
Definition CPU_DEVICE_ID : Z := -1.

(** ** Enumerations of [common.h] *)

Inductive QueueType : Set :=
| COORDINATE_REDUCE | REDUCE | COPYD2H | PCIE_REDUCE | COORDINATE_PUSH
| COMPRESS | PUSH | PULL | GDR_V1_PUSH_PULL | GDR_V2_PUSH_PULL
| GDR_WAIT_PUSH_PULL | DECOMPRESS | COPYH2D | COORDINATE_BROADCAST
| BROADCAST | SEND | RECV | P2P_GROUP_COPYH2D | P2P_PULL | P2P_PULL_RESPONSE
| P2P_WAIT_ACK | CPU_COPY | CPU_REDUCE | CPU_BCAST | CPU_BCAST_FINISH
| ALLGATHER | COORDINATE_ALLGATHER | ALLGATHER_PULL | ALLGATHER_PULL_RESP
| ALLGATHER_BCAST | COORDINATE_ALLGATHER_BCAST | ALLGATHER_PULL_ACK
| ALLGATHER_COPYD2H | ALLGATHER_COPYH2D | ALLGATHER_PULL_WORKER_LOCAL_ROOT
| ALLGATHER_PULL_WORKER_LOCAL_ROOT_RESP | ALLGATHER_PULL_WORKER_LOCAL_ROOT_ACK.

Global Instance QueueType_eq_dec : EqDecision QueueType.
Proof. solve_decision. Defined.

Inductive OperationType : Set :=
| UNKNOWN_OP | PUSH_PULL_OP | P2P_OP | ALLTOALL_OP | ALLGATHER_OP.

Global Instance OperationType_eq_dec : EqDecision OperationType.
Proof. solve_decision. Defined.

(** The enumerators' integer values, used where the code casts them. *)
Definition op_code (op : OperationType) : Z :=
  match op with
  | UNKNOWN_OP => 0 | PUSH_PULL_OP => 1 | P2P_OP => 2
  | ALLTOALL_OP => 3 | ALLGATHER_OP => 4
  end.

Definition op_of_code (n : nat) : option OperationType :=
  match n with
  | 0%nat => Some UNKNOWN_OP | 1%nat => Some PUSH_PULL_OP
  | 2%nat => Some P2P_OP | 3%nat => Some ALLTOALL_OP
  | 4%nat => Some ALLGATHER_OP | _ => None
  end.

Global Program Instance OperationType_countable : Countable OperationType :=
  inj_countable (fun op => Z.to_nat (op_code op)) op_of_code _.
Next Obligation. by intros []. Qed.

Inductive StatusType : Set :=
| OK | UNKNOWN_ERROR | PRECONDITION_ERROR | ABORTED | INVALID_ARGUMENT
| IN_PROGRESS | DATA_LOSS.

(** [Status]: a kind and a reason string. *)
Record Status : Set := mkStatus { type_ : StatusType; reason_ : string }.

Definition Status_OK : Status := mkStatus OK "".
Definition Status_InvalidArgument (message : string) : Status :=
  mkStatus INVALID_ARGUMENT message.

(** ** Outcomes

    A call either returns, or the process leaves normal execution:
    [BPS_CHECK]/[CHECK] abort it, [vector::at] throws, an unchecked index or
    a null dereference is undefined, and a loop of the model may run out of
    the fuel it was given. *)

Inductive failure : Set :=
| CheckFailed | OutOfRange | Undefined | OutOfFuel.

Inductive outcome (A : Type) : Type :=
| Ret (a : A)
| Fail (f : failure).
Arguments Ret {A} a.
Arguments Fail {A} f.

Definition obind {A B} (m : outcome A) (k : A -> outcome B) : outcome B :=
  match m with
  | Ret a => k a
  | Fail f => Fail f
  end.

Declare Scope outcome_scope.
Delimit Scope outcome_scope with outcome.
Notation "'do' x <- m ; k" := (obind m (fun x => k))
  (at level 10, x pattern, m at level 100, k at level 200) : outcome_scope.
Notation "'check' b ; k" := (if b then k else Fail CheckFailed)
  (at level 10, b at level 100, k at level 200) : outcome_scope.
Local Open Scope outcome_scope.

(** [v.at(i)] and [v[i]] for an [int] or [size_t] index. *)
Definition vec_at {A} (v : list A) (i : Z) : outcome A :=
  if i <? 0 then Fail OutOfRange
  else match v !! Z.to_nat i with
       | Some a => Ret a
       | None => Fail OutOfRange
       end.

Definition vec_idx {A} (v : list A) (i : Z) : outcome A :=
  if i <? 0 then Fail Undefined
  else match v !! Z.to_nat i with
       | Some a => Ret a
       | None => Fail Undefined
       end.

(** ** Tensors, contexts and tasks *)

(** The part of the [Tensor] interface the front-end reads: [size()] in
    bytes, [data()] as an address (0 for null), [dtype()] and [shape()]. *)
Record Tensor : Set := mkTensor {
  t_size : Z;
  t_data : Z;
  t_dtype : Z;
  t_shape : list Z
}.

Module BPSContext.
Record t : Set := mk {
  initialized : bool;
  tensor_name : string;
  base_tensor_name : string;
  declared_key : Z;               (* int32_t *)
  key_list : list Z;              (* vector<uint64_t> *)
  cpubuff : Z;
  gpu_ptr : Z;
  bounds_for_ranks : list Z;      (* vector<uint32_t> *)
  profile_flag : bool;
  compressor_list : list Z;       (* compressor handles *)
  kwargs : list (string * string);
  cpubuff_list : list Z;
  sender : Z;
  receiver : Z;
  op_type : OperationType;
  op_count : Z
}.

Definition set_key_list (c : t) (kl : list Z) : t :=
  mk (initialized c) (tensor_name c) (base_tensor_name c) (declared_key c)
     kl (cpubuff c) (gpu_ptr c) (bounds_for_ranks c) (profile_flag c)
     (compressor_list c) (kwargs c) (cpubuff_list c) (sender c)
     (receiver c) (op_type c) (op_count c).

Definition set_initialized (c : t) (b : bool) : t :=
  mk b (tensor_name c) (base_tensor_name c) (declared_key c)
     (key_list c) (cpubuff c) (gpu_ptr c) (bounds_for_ranks c)
     (profile_flag c) (compressor_list c) (kwargs c) (cpubuff_list c)
     (sender c) (receiver c) (op_type c) (op_count c).

Definition set_gpu_ptr (c : t) (p : Z) : t :=
  mk (initialized c) (tensor_name c) (base_tensor_name c) (declared_key c)
     (key_list c) (cpubuff c) p (bounds_for_ranks c) (profile_flag c)
     (compressor_list c) (kwargs c) (cpubuff_list c) (sender c)
     (receiver c) (op_type c) (op_count c).

Definition set_cpubuff (c : t) (p : Z) : t :=
  mk (initialized c) (tensor_name c) (base_tensor_name c) (declared_key c)
     (key_list c) p (gpu_ptr c) (bounds_for_ranks c) (profile_flag c)
     (compressor_list c) (kwargs c) (cpubuff_list c) (sender c)
     (receiver c) (op_type c) (op_count c).

Definition set_bounds_for_ranks (c : t) (b : list Z) : t :=
  mk (initialized c) (tensor_name c) (base_tensor_name c) (declared_key c)
     (key_list c) (cpubuff c) (gpu_ptr c) b (profile_flag c)
     (compressor_list c) (kwargs c) (cpubuff_list c) (sender c)
     (receiver c) (op_type c) (op_count c).

Definition set_compressor_list (c : t) (l : list Z) : t :=
  mk (initialized c) (tensor_name c) (base_tensor_name c) (declared_key c)
     (key_list c) (cpubuff c) (gpu_ptr c) (bounds_for_ranks c)
     (profile_flag c) l (kwargs c) (cpubuff_list c) (sender c)
     (receiver c) (op_type c) (op_count c).

Definition set_kwargs (c : t) (k : list (string * string)) : t :=
  mk (initialized c) (tensor_name c) (base_tensor_name c) (declared_key c)
     (key_list c) (cpubuff c) (gpu_ptr c) (bounds_for_ranks c)
     (profile_flag c) (compressor_list c) k (cpubuff_list c) (sender c)
     (receiver c) (op_type c) (op_count c).

Definition set_cpubuff_list (c : t) (l : list Z) : t :=
  mk (initialized c) (tensor_name c) (base_tensor_name c) (declared_key c)
     (key_list c) (cpubuff c) (gpu_ptr c) (bounds_for_ranks c)
     (profile_flag c) (compressor_list c) (kwargs c) l (sender c)
     (receiver c) (op_type c) (op_count c).

Definition set_op_count (c : t) (n : Z) : t :=
  mk (initialized c) (tensor_name c) (base_tensor_name c) (declared_key c)
     (key_list c) (cpubuff c) (gpu_ptr c) (bounds_for_ranks c)
     (profile_flag c) (compressor_list c) (kwargs c) (cpubuff_list c)
     (sender c) (receiver c) (op_type c) n.
End BPSContext.

(** [TensorTableEntry].  The context pointer is kept as the name under which
    the context is registered; the callback, the ready event and the shared
    counters are owned by the caller and the loops and carry no data here. *)
Record TensorTableEntry : Set := mkEntry {
  tensor_name : string;
  key : Z;                          (* uint64_t *)
  context : string;
  tensor : option Tensor;
  output : option Tensor;
  priority : Z;
  version : Z;
  device : Z;
  cpubuff : Z;
  gpu_ptr : Z;
  queue_list : list QueueType;
  offset : Z;                       (* unsigned int *)
  len : Z;                          (* unsigned int *)
  total_partnum : Z;                (* unsigned int *)
  compressor : option Z
}.

(** ** Process-wide configuration read by the front-end ([BytePSGlobal]) *)

Record Config : Set := mkConfig {
  _partition_bytes : Z;             (* uint32_t, GetPartitionBound() *)
  _is_root_device : bool;
  _is_joint : bool;
  _is_distributed : bool;
  _rank : Z;
  _local_rank : Z;
  _size : Z;
  _num_phy_node : Z;
  _phy_node_id : Z;
  _is_gdr : bool;
  _is_gdr_gpu2gpu : bool;
  _gdr_phase1_thresh : Z;
  _is_using_reduce : bool;
  _should_skip_input_copy : bool;
  _alltoall_use_pull : bool;
  _p2p_ack_disabled : bool;
  _is_signal_root : bool;
  _is_gdr_allgather : bool;
  _alltoall_buff_bound : Z;         (* uint32_t *)
  _min_compress_bytes : Z;
  _building_cuda : bool;            (* BYTEPS_BUILDING_CUDA == 1 *)
  _building_compressor : bool;      (* BYTEPS_BUILDING_COMPRESSOR == 1 *)
  _hash_knob : string;
  _local_size : Z;
  _server_local_root : Z;
  _mixed_mode : bool;
  _alltoall_session_size : Z;       (* uint32_t *)
  _is_cpu_allreduce_disabled : bool;
  _is_gpu_allreduce_disabled : bool;
  _is_cross_pcie_switch : bool;
  (* ps::Postoffice::Get()->GetServerKeyRanges(): [begin, end) per server *)
  _server_key_ranges : list (Z * Z)
}.

(** ** [PartitionTensor] (operations.cc) *)

Section Partition.
(** The constructor of [TensorTableEntry] does not initialise [key], and
    [PartitionTensor] leaves the member to its caller ("will assign the key
    later"): the value that the [i]-th new entry holds there is not
    determined by the program and is taken as given. *)
Variable uninitialized_key : Z -> Z.

(** One partition [e] built from the prototype [entry] at loop state
    [(accumulated, i)].  [len] and [offset] are [unsigned int] members, so
    the [size_t] values assigned to them are cut to 32 bits.  With
    compressors the handle is [compressor_list[i]], an unchecked index. *)
Definition partition_entry (g : Config) (ctx : BPSContext.t)
    (entry : TensorTableEntry) (size bound accumulated i : Z)
    : outcome TensorTableEntry :=
  let len_ := u32 (if u64 (size - accumulated) >? bound then bound
                   else u64 (size - accumulated)) in
  do buff <-
    (if decide (BPSContext.op_type ctx = PUSH_PULL_OP) then Ret (cpubuff entry)
     else
       match tensor entry with
       | Some t =>
           if _should_skip_input_copy g && negb (t_data t =? 0)
           then Ret (u64 (t_data t + accumulated))
           else vec_at (BPSContext.cpubuff_list ctx) i
       | None => vec_at (BPSContext.cpubuff_list ctx) i
       end);
  do compressor_ <-
    (match BPSContext.compressor_list ctx with
     | [] => Ret None
     | _ :: _ =>
         do c <- vec_idx (BPSContext.compressor_list ctx) i;
         Ret (Some c)
     end);
  Ret (mkEntry (tensor_name entry +:+ "_" +:+ pretty i)
               (uninitialized_key i)
               (context entry)
               (tensor entry) (output entry)
               (priority entry) (version entry) (device entry)
               buff (gpu_ptr entry)
               (queue_list entry)
               (u32 accumulated) len_
               (total_partnum entry)
               compressor_).

Fixpoint PartitionTensor_loop (fuel : nat) (g : Config) (ctx : BPSContext.t)
    (entry : TensorTableEntry) (size bound accumulated i : Z)
    (partitions : list TensorTableEntry) : outcome (list TensorTableEntry) :=
  if accumulated <? size then
    match fuel with
    | O => Fail OutOfFuel
    | S fuel' =>
        do e <- partition_entry g ctx entry size bound accumulated i;
        PartitionTensor_loop fuel' g ctx entry size bound
          (u64 (accumulated + len e)) (i32 (i + 1)) (partitions ++ [e])
    end
  else Ret partitions.

(** [size = entry->tensor ? entry->tensor->size() : entry->output->size()],
    an [int64_t] converted to [size_t]. *)
Definition entry_size (entry : TensorTableEntry) : outcome Z :=
  match tensor entry, output entry with
  | Some t, _ => Ret (u64 (t_size t))
  | None, Some o => Ret (u64 (t_size o))
  | None, None => Fail Undefined
  end.

Definition PartitionTensor (fuel : nat) (g : Config) (ctx : BPSContext.t)
    (entry : TensorTableEntry) (partitions : list TensorTableEntry)
    : outcome (list TensorTableEntry) :=
  do size <- entry_size entry;
  let bound := _partition_bytes g in
  PartitionTensor_loop fuel g ctx entry size bound 0 0 partitions.
End Partition.

(** ** Key lists of [InitTensor] and [InitTensorP2P] (operations.cc) *)

(** [while (accumulated < size) { key_list.push_back(start_key++);
    accumulated += min(size - accumulated, bound); }] *)
Fixpoint key_loop (fuel : nat) (size bound accumulated start_key : Z)
    (key_list : list Z) : outcome (list Z) :=
  if accumulated <? size then
    match fuel with
    | O => Fail OutOfFuel
    | S fuel' =>
        key_loop fuel' size bound
          (u64 (accumulated +
                (if u64 (size - accumulated) >? bound then bound
                 else u64 (size - accumulated))))
          (u64 (start_key + 1)) (key_list ++ [start_key])
    end
  else Ret key_list.

(** [ps::Key start_key = context.declared_key << 16;
     start_key += (uint32_t) PUSH_PULL_OP << 10;]
    The shift is done on the [int32_t] member, in 32 bits, and only then
    converted to the 64-bit key. *)
Definition push_pull_start_key (declared_key : Z) : Z :=
  u64 (u64 (i32 (declared_key * 2 ^ 16)) + u32 (op_code PUSH_PULL_OP * 2 ^ 10)).

(** [ps::Key start_key = (uint64_t) sender << 32;
     start_key += ((uint64_t) context.declared_key) << 16;
     start_key += (uint32_t) P2P_OP << 10;] *)
Definition p2p_start_key (sender declared_key : Z) : Z :=
  u64 (u64 (u64 (u64 sender * 2 ^ 32) + u64 (u64 declared_key * 2 ^ 16))
       + u32 (op_code P2P_OP * 2 ^ 10)).

(** The handles of the compressors that the init-push loop of [InitTensor]
    creates: one per partition, named by the partition's index. *)
Definition init_compressors (n : nat) : list Z := Z.of_nat <$> seq 0 n.

(** ** The process-wide tables of [BytePSGlobal] (global.cc) *)

(** [PSKV]: the encoded keys, their lengths and the total size of one
    routing key. *)
Module PSKV.
Record t : Set := mk {
  keys : list Z;                  (* SArray<ps::Key> *)
  lens : list Z;                  (* SArray<int> *)
  size : Z                        (* int *)
}.

(** A value-initialised entry, as [ps_kv_[key]] creates it. *)
Definition empty : t := mk [] [] 0.
End PSKV.

Record BytePSGlobal : Type := mkGlobal {
  _initialized : bool;
  _should_shutdown : bool;
  _declared_tensors : list string;
  _name_to_cxt : gmap string BPSContext.t;
  next_keys_ : gmap OperationType Z;
  used_keys_ : gmap OperationType (gset Z);
  p2p_next_keys_ : gmap Z Z;
  ps_kv_ : gmap Z PSKV.t;
  _server_accumulated_len : list Z;
  _total_accumulated_len : Z
}.

(** The tables of a process that has been initialised for [num_server]
    servers and has declared nothing yet. *)
Definition initial_global (num_server : nat) : BytePSGlobal :=
  mkGlobal true false [] ∅ ∅ ∅ ∅ ∅ (replicate num_server 0) 0.

(** [std::string(s.c_str())]: the characters before the first NUL. *)
Fixpoint c_str (s : string) : string :=
  match s with
  | EmptyString => EmptyString
  | String a s' =>
      if Ascii.eqb a Ascii.zero then EmptyString else String a (c_str s')
  end.

(** The name under which [DeclareTensor] registers the context. *)
Definition session_tensor_name (name : string) (session : Z) : string :=
  if session =? -1 then c_str name
  else "session_" +:+ pretty session +:+ "_" +:+ c_str name.

(** [provided_key = next_keys_[op_type]++;
     while (used_key_set.find(provided_key) != used_key_set.end())
       provided_key = next_keys_[op_type]++;]
    Each round draws the counter and advances it; incrementing an
    [int32_t] at its maximum is undefined.  Returns the key and the
    counter. *)
Fixpoint next_free_key (fuel : nat) (used : gset Z) (next : Z)
    : outcome (Z * Z) :=
  if next =? INT32_MAX then Fail Undefined
  else if bool_decide (next ∈ used) then
    match fuel with
    | O => Fail OutOfFuel
    | S fuel' => next_free_key fuel' used (next + 1)
    end
  else Ret (next, next + 1).

(** [BytePSGlobal::DeclareTensor(name, op_type, provided_key, session)].
    The search loop is given one round per used key plus one, which
    [next_free_key_fuel] shows to be enough. *)
Definition DeclareTensor (G : BytePSGlobal) (name : string)
    (op_type : OperationType) (provided_key session : Z)
    : outcome (BytePSGlobal * Z) :=
  let tensor_name := session_tensor_name name session in
  match _name_to_cxt G !! tensor_name with
  | Some cxt => Ret (G, BPSContext.declared_key cxt)
  | None =>
      let declared :=
        if bool_decide (name ∈ _declared_tensors G) then _declared_tensors G
        else _declared_tensors G ++ [tensor_name] in
      let used_key_set : gset Z := default ∅ (used_keys_ G !! op_type) in
      do (provided_key, next_keys) <-
        (if provided_key =? -1 then
           do (k, next) <-
             next_free_key (size used_key_set) used_key_set
                           (default 0 (next_keys_ G !! op_type));
           Ret (k, <[op_type := next]> (next_keys_ G))
         else
           check (negb (bool_decide (provided_key ∈ used_key_set)));
           Ret (provided_key, next_keys_ G));
      let cxt :=
        BPSContext.mk false tensor_name (c_str name) (i32 (u64 provided_key))
                      [] 0 0 [] false [] [] [] (-1) (-1) op_type 0 in
      Ret (mkGlobal (_initialized G) (_should_shutdown G) declared
                    (<[tensor_name := cxt]> (_name_to_cxt G))
                    next_keys
                    (<[op_type := {[provided_key]} ∪ used_key_set]> (used_keys_ G))
                    (p2p_next_keys_ G) (ps_kv_ G)
                    (_server_accumulated_len G) (_total_accumulated_len G),
           i32 (u64 provided_key))
  end.

(** The state reset at the end of [BytePSGlobal::Shutdown].  Joining the
    threads and destroying queues, tables and streams is external. *)
Definition Shutdown (G : BytePSGlobal) : BytePSGlobal :=
  mkGlobal false false (_declared_tensors G) ∅ ∅ (used_keys_ G)
           (p2p_next_keys_ G) ∅ [] 0.

(** The part of [BytePSGlobal::Init] that writes the tables: nothing when
    the process is initialised; otherwise, for a distributed job, one zero
    load counter is pushed per server ([num_server] is [DMLC_NUM_SERVER]),
    and the flag is set.  [g] is the configuration that [Init] reads from
    the environment. *)
Definition Init (g : Config) (num_server : Z) (G : BytePSGlobal)
    : BytePSGlobal :=
  if _initialized G then G
  else
    mkGlobal true (_should_shutdown G) (_declared_tensors G) (_name_to_cxt G)
             (next_keys_ G) (used_keys_ G) (p2p_next_keys_ G) (ps_kv_ G)
             (if _is_distributed g
              then _server_accumulated_len G
                     ++ replicate (Z.to_nat (i32 num_server)) 0
              else _server_accumulated_len G)
             (_total_accumulated_len G).

(** [BytePSGlobal::ReDeclareTensor]: every remembered name is declared
    again as a push-pull tensor with no provided key and no session.  The
    names are found in [_declared_tensors], so the vector does not grow
    while it is traversed. *)
Fixpoint ReDeclareTensor_loop (G : BytePSGlobal) (names : list string)
    : outcome BytePSGlobal :=
  match names with
  | [] => Ret G
  | name :: names' =>
      do (G', _) <- DeclareTensor G name PUSH_PULL_OP (-1) (-1);
      ReDeclareTensor_loop G' names'
  end.

Definition ReDeclareTensor (G : BytePSGlobal) : outcome BytePSGlobal :=
  ReDeclareTensor_loop G (_declared_tensors G).

(** The declared key of the context registered under [name]. *)
Definition declared_key_of (G : BytePSGlobal) (name : string) : option Z :=
  BPSContext.declared_key <$> (_name_to_cxt G !! name).

(** ** Key encoding (global.cc) *)

(** [int c = *str]: the characters of a string as the [int] values that the
    hash loops read.  [char] is signed on the x86-64 Linux targets of the
    build, so that a byte above 127 reads as a negative [int]; the decimal
    digits read as their codes. *)
Definition char_codes (s : string) : list Z :=
  (fun a => let n := Z.of_nat (Ascii.nat_of_ascii a) in
            if n <? 128 then n else n - 256)
    <$> String.list_ascii_of_string s.

(** [std::to_string(key)] of a [uint64_t]. *)
Definition to_string (key : Z) : string := pretty key.

Definition Hash_Naive (key : Z) : Z :=
  u64 (u64 (key / 2 ^ 16 + key mod 65536) * 9973).

Definition set_ps_kv (G : BytePSGlobal) (kv : gmap Z PSKV.t) : BytePSGlobal :=
  mkGlobal (_initialized G) (_should_shutdown G) (_declared_tensors G)
           (_name_to_cxt G) (next_keys_ G) (used_keys_ G) (p2p_next_keys_ G)
           kv (_server_accumulated_len G) (_total_accumulated_len G).

Definition set_accumulated_len (G : BytePSGlobal) (per_server : list Z)
    (total : Z) : BytePSGlobal :=
  mkGlobal (_initialized G) (_should_shutdown G) (_declared_tensors G)
           (_name_to_cxt G) (next_keys_ G) (used_keys_ G) (p2p_next_keys_ G)
           (ps_kv_ G) per_server total.

Section KeyEncoder.
(** [auto str = std::to_string(key).c_str();] keeps a pointer into a
    temporary string that is destroyed at the end of that statement.  The
    characters that the hash functions then read through the pointer are not
    determined by the program; [dangling_c_str key] stands for what is found
    there, up to the first NUL.  While the storage of the temporary has not
    been reused they are still the decimal digits, [to_string key]. *)
Variable dangling_c_str : Z -> string.

(** [std::hash<std::string>] and its coefficient are the library's and the
    environment's; [Hash_Mixed_Mode] compares against a floating-point
    threshold.  The three are taken as given; [Hash_Mixed_Mode] may abort
    on its own checks. *)
Variable _built_in_hash_fn : string -> Z.
Variable _built_in_hash_coefficient : Z.
Variable Hash_Mixed_Mode : Z -> outcome Z.

Definition Hash_BuiltIn (key : Z) : Z :=
  u64 (_built_in_hash_fn (dangling_c_str key) * _built_in_hash_coefficient).

(** [hash = ((hash << 5) + hash) + c] over the characters read, from 5381. *)
Definition Hash_DJB2 (key : Z) : Z :=
  fold_left (fun hash c => u64 (u64 (u64 (hash * 2 ^ 5) + hash) + c))
            (char_codes (dangling_c_str key)) 5381.

(** [hash = c + (hash << 6) + (hash << 16) - hash] over the characters
    read, from 0. *)
Definition Hash_SDBM (key : Z) : Z :=
  fold_left (fun hash c =>
               u64 (u64 (u64 (c + u64 (hash * 2 ^ 6)) + u64 (hash * 2 ^ 16)) - hash))
            (char_codes (dangling_c_str key)) 0.

(** The branch on [_hash_knob] that picks the server of a new key. *)
Definition pick_server (g : Config) (key num_servers : Z) : outcome Z :=
  if String.eqb (_hash_knob g) "naive" then
    Ret (i32 (Hash_Naive key mod num_servers))
  else if String.eqb (_hash_knob g) "built_in" then
    Ret (i32 (Hash_BuiltIn key mod num_servers))
  else if String.eqb (_hash_knob g) "djb2" then
    Ret (i32 (Hash_DJB2 key mod num_servers))
  else if String.eqb (_hash_knob g) "djb2-colocate" then
    if u64 (_num_phy_node g) =? 0 then Fail Undefined
    else
      let server := i32 (Hash_DJB2 key mod u64 (_num_phy_node g)) in
      Ret (i32 (server * _local_size g + _server_local_root g))
  else if String.eqb (_hash_knob g) "sdbm" then
    Ret (i32 (Hash_SDBM key mod num_servers))
  else if String.eqb (_hash_knob g) "mixed" then
    check (_mixed_mode g);
    do h <- Hash_Mixed_Mode key;
    let server := i32 h in
    check (server <? num_servers);
    Ret server
  else Fail CheckFailed.

(** [BytePSGlobal::EncodeDefaultKey(key, len)].  Returns the tables and
    the entry the returned reference designates. *)
Definition EncodeDefaultKey (g : Config) (G : BytePSGlobal) (key len : Z)
    : outcome (BytePSGlobal * PSKV.t) :=
  let pskv := default PSKV.empty (ps_kv_ G !! key) in
  match PSKV.keys pskv with
  | _ :: _ =>
      if (0 <? len) && negb (u64 (PSKV.size pskv) =? len) then
        match PSKV.lens pskv with
        | [] => Fail Undefined
        | _ :: _ =>
            let pskv' := PSKV.mk (PSKV.keys pskv)
                                 (<[0%nat := i32 len]> (PSKV.lens pskv))
                                 (i32 len) in
            Ret (set_ps_kv G (<[key := pskv']> (ps_kv_ G)), pskv')
        end
      else Ret (G, pskv)
  | [] =>
      let krs := _server_key_ranges g in
      let num_servers := i32 (Z.of_nat (length krs)) in
      check (0 <? num_servers);
      do server <- pick_server g key num_servers;
      do acc <- vec_idx (_server_accumulated_len G) server;
      let per_server :=
        <[Z.to_nat server := u64 (acc + len)]> (_server_accumulated_len G) in
      let total := u64 (_total_accumulated_len G + len) in
      do kr <- vec_idx krs server;
      let ps_key := u64 (fst kr + key) in
      check (ps_key <? snd kr);
      let pskv' := PSKV.mk (PSKV.keys pskv ++ [ps_key])
                           (PSKV.lens pskv ++ [i32 len]) (i32 len) in
      Ret (set_ps_kv (set_accumulated_len G per_server total)
                     (<[key := pskv']> (ps_kv_ G)),
           pskv')
  end.

End KeyEncoder.

(** A run of returning [EncodeDefaultKey] calls, on any keys and lengths,
    under any configuration and whatever the hash functions read. *)
Inductive encode_calls : BytePSGlobal -> BytePSGlobal -> Prop :=
| encode_calls_nil G : encode_calls G G
| encode_calls_cons G G' G'' c fn coef mixed g key len pskv :
    EncodeDefaultKey c fn coef mixed g G key len = Ret (G', pskv) ->
    encode_calls G' G'' ->
    encode_calls G G''.

(** Every memoized entry that has a key has a length: what
    [EncodeDefaultKey] writes, and all it writes. *)
Definition ps_kv_wf (G : BytePSGlobal) : Prop :=
  forall key pskv,
    ps_kv_ G !! key = Some pskv -> PSKV.keys pskv <> [] -> PSKV.lens pskv <> [].

(** Key [K] is memoized with first encoded key [k0]. *)
Definition memoized (K k0 : Z) (G : BytePSGlobal) : Prop :=
  exists pskv,
    ps_kv_ G !! K = Some pskv /\
    head (PSKV.keys pskv) = Some k0 /\
    PSKV.lens pskv <> [].

(** ** The enqueue front-end (operations.cc) *)

(** [P2PTensorTableEntry]: the base entry and the members added for
    all-to-all and all-gather.  A shared counter is given by the value it
    is created with; [pcie_cpubuff] is the inherited staging list that the
    all-to-all path fills. *)
Record P2PTensorTableEntry : Set := mkP2PEntry {
  base : TensorTableEntry;
  pcie_cpubuff : list Z;
  aux_output : option Tensor;
  offset_list : list Z;             (* vector<int> *)
  key_list : list Z;                (* vector<uint64_t> *)
  shape_list : list Z;              (* vector<int> *)
  request_counter : option Z;
  allgather_pull_local_root_counter : option Z;
  output_device : Z;
  output_size_unknown : bool;
  group_tensors : list Tensor;
  group_outputs : list Tensor
}.

Inductive Task : Set :=
| PushPullTask (e : TensorTableEntry)
| P2PTask (e : P2PTensorTableEntry).

Inductive ReadyTableId : Set := P2PPullResponseTable | P2PCopyTable.

(** What the front-end does to its collaborators, in program order. *)
Inductive event : Set :=
| AddTask (q : QueueType) (task : Task)   (* GetScheduledQueue(q)->addTask *)
| Callback (st : Status)                  (* callback(st) *)
| RecordCallback (k : Z)                  (* BytePSError::RecordCallback *)
| AddReadyCount (table : ReadyTableId) (k : Z)
| ZPush (ps_key : Z).                     (* blocking push of the init path *)

Definition is_AddTask (ev : event) : bool :=
  match ev with AddTask _ _ => true | _ => false end.

Definition is_Callback (ev : event) : bool :=
  match ev with Callback _ => true | _ => false end.

(** [std::find(begin, end, x) - begin]: the index of the first [x], the
    length when there is none. *)
Fixpoint find_index (x : QueueType) (l : list QueueType) : nat :=
  match l with
  | [] => 0%nat
  | y :: l' => if decide (y = x) then 0%nat else S (find_index x l')
  end.

(** [v.insert(v.begin() + i, x)] for [i <= v.size()]. *)
Definition insert_at (i : nat) (x : QueueType) (l : list QueueType)
    : list QueueType :=
  take i l ++ x :: drop i l.

(** The block of [EnqueueTensor] that adds the compression stages:
    [COMPRESS] goes where the first [PUSH] is (at the end when there is
    none), [DECOMPRESS] one past the first [PULL]; with no [PULL] the
    iterator [end() + 1] is undefined. *)
Definition add_compress_stages (g : Config) (context : BPSContext.t)
    (queue_list : list QueueType) : outcome (list QueueType) :=
  if _is_root_device g
     && negb (bool_decide (BPSContext.compressor_list context = [])) then
    let it := find_index PUSH queue_list in
    let queue_list := insert_at it COMPRESS queue_list in
    let it := find_index PULL queue_list in
    if bool_decide (it < length queue_list)%nat
    then Ret (insert_at (S it) DECOMPRESS queue_list)
    else Fail Undefined
  else Ret queue_list.

(** The loop of [EnqueueTensor] over the partitions: the key is assigned,
    small partitions take the GDR fast path, and the task goes to the queue
    of its first stage. *)
Fixpoint enqueue_partitions (g : Config) (key_list : list Z)
    (partitions : list TensorTableEntry) (i : Z) (accumulated : Z)
    : outcome (list event * Z) :=
  match partitions with
  | [] => Ret ([], accumulated)
  | task :: rest =>
      do k <- vec_idx key_list i;
      let ql :=
        if negb (device task =? CPU_DEVICE_ID) && (1 <? _num_phy_node g)
           && _is_gdr g && _is_gdr_gpu2gpu g
           && (len task <=? _gdr_phase1_thresh g)
           && negb (_is_using_reduce g)
        then [GDR_V2_PUSH_PULL] else queue_list task in
      let task :=
        mkEntry (tensor_name task) k (context task) (tensor task) (output task)
                (priority task) (version task) (device task) (cpubuff task)
                (gpu_ptr task) ql (offset task) (len task)
                (total_partnum task) (compressor task) in
      check (negb (String.eqb (tensor_name task) ""));
      do q <- vec_idx ql 0;
      do (evs, acc) <- enqueue_partitions g key_list rest (i + 1)
                         (u64 (accumulated + len task));
      Ret (AddTask q (PushPullTask task) :: evs, acc)
  end.

Section Enqueue.
(** [Telemetry::RecordStart] gives the operation count of a name. *)
Variable Telemetry_RecordStart : string -> Z.
(** What the [key] member of a new partition holds before [EnqueueTensor]
    assigns it (see [PartitionTensor]). *)
Variable uninitialized_key : Z -> Z.

(** [EnqueueTensor].  Returns the status, the context and the caller's
    stage list as the call leaves them, and the events.  The profiling
    timestamps pushed under [profile_flag] are telemetry and not
    represented. *)
Definition EnqueueTensor (fuel : nat) (g : Config) (G : BytePSGlobal)
    (context : BPSContext.t) (input output : option Tensor)
    (device priority version : Z) (queue_list : list QueueType)
    : outcome (Status * BPSContext.t * list QueueType * list event) :=
  if _should_shutdown G then Ret (Status_OK, context, queue_list, [])
  else
    let name := BPSContext.tensor_name context in
    check (match input, output with
           | Some i, Some o =>
               if decide (BPSContext.op_type context = PUSH_PULL_OP)
               then t_size i =? t_size o else true
           | _, _ => true
           end);
    do queue_list <- add_compress_stages g context queue_list;
    let context :=
      if (device =? CPU_DEVICE_ID)
         && bool_decide (BPSContext.op_type context = PUSH_PULL_OP)
      then BPSContext.set_gpu_ptr context 0 else context in
    let e :=
      mkEntry name 0 name input output priority version device
              (BPSContext.cpubuff context) (BPSContext.gpu_ptr context)
              queue_list 0 0
              (u32 (Z.of_nat (length (BPSContext.key_list context)))) None in
    do partitions <- PartitionTensor uninitialized_key fuel g context e [];
    check (bool_decide (length (BPSContext.key_list context) = length partitions));
    match bool_decide (queue_list = []) with
    | true =>
        check (negb (String.eqb name ""));
        Ret (Status_OK, context, queue_list, [Callback Status_OK])
    | false =>
        let context :=
          BPSContext.set_op_count context
            (Telemetry_RecordStart (BPSContext.base_tensor_name context)) in
        do (evs, accumulated) <-
          enqueue_partitions g (BPSContext.key_list context) partitions 0 0;
        do k0 <- vec_idx (BPSContext.key_list context) 0;
        do size <- entry_size e;
        check (accumulated =? size);
        Ret (Status_OK, context, queue_list, evs ++ [RecordCallback k0])
    end.

(** *** All-gather *)

(** [GetAllgatherRequestQueueList]; empty without CUDA. *)
Definition GetAllgatherRequestQueueList (g : Config) : list QueueType :=
  if _building_cuda g then
    (if _is_signal_root g then [ALLGATHER]
     else [COORDINATE_ALLGATHER; ALLGATHER])
    ++ (if 1 <? _num_phy_node g then
          (if negb (_is_gdr_allgather g) then [ALLGATHER_COPYD2H] else [])
          ++ (if _is_root_device g
              then [ALLGATHER_PULL_WORKER_LOCAL_ROOT; ALLGATHER_PULL] else [])
          ++ (if negb (_is_gdr_allgather g) then [ALLGATHER_COPYH2D] else [])
          ++ (if _is_signal_root g then [ALLGATHER_BCAST]
              else [COORDINATE_ALLGATHER_BCAST; ALLGATHER_BCAST])
        else [])
  else [].

(** [GetAllgatherResponseQueueList]; empty without CUDA. *)
Definition GetAllgatherResponseQueueList (g : Config) : list QueueType :=
  if _building_cuda g && (1 <? _num_phy_node g) then
    (if _local_rank g =? 0 then
       if _p2p_ack_disabled g then [ALLGATHER_PULL_WORKER_LOCAL_ROOT_RESP]
       else [ALLGATHER_PULL_WORKER_LOCAL_ROOT_RESP;
             ALLGATHER_PULL_WORKER_LOCAL_ROOT_ACK]
     else [])
    ++ (if _is_root_device g then
          if _p2p_ack_disabled g then [ALLGATHER_PULL_RESP]
          else [ALLGATHER_PULL_RESP; ALLGATHER_PULL_ACK]
        else [])
  else [].

(** [remaining_dims]: the product of [shape[1:]], each dimension checked
    to be non-zero. *)
Fixpoint remaining_dims_of (dims : list Z) (acc : Z) : outcome Z :=
  match dims with
  | [] => Ret acc
  | d :: dims' =>
      check (negb (d =? 0));
      remaining_dims_of dims' (i32 (acc * d))
  end.

(** [offset_list[i] = offset_list[i - 1] + shape_list[i - 1] * remaining_dims]
    for [i = 1 .. rank_num]; [prev] is [offset_list[i - 1]]. *)
Fixpoint allgather_offsets (shape_list : list Z) (remaining_dims : Z)
    (rank_num : nat) (i : Z) (prev : Z) : outcome (list Z) :=
  match rank_num with
  | O => Ret []
  | S rank_num' =>
      do sh <- vec_idx shape_list (i - 1);
      let cur := i32 (prev + i32 (sh * remaining_dims)) in
      do rest <- allgather_offsets shape_list remaining_dims rank_num' (i + 1) cur;
      Ret (cur :: rest)
  end.

(** A copy of a P2P task with another key. *)
Definition with_key (t : P2PTensorTableEntry) (k : Z) : P2PTensorTableEntry :=
  let b := base t in
  mkP2PEntry
    (mkEntry (tensor_name b) k (context b) (tensor b) (output b)
             (priority b) (version b) (device b) (cpubuff b) (gpu_ptr b)
             (queue_list b) (offset b) (len b) (total_partnum b)
             (compressor b))
    (pcie_cpubuff t) (aux_output t) (offset_list t) (key_list t)
    (shape_list t) (request_counter t) (allgather_pull_local_root_counter t)
    (output_device t) (output_size_unknown t) (group_tensors t)
    (group_outputs t).

(** The response tasks of [EnqueueAllgatherTensor]: one per physical node
    other than this one, keyed by [key_list.at(i)]. *)
Fixpoint allgather_responses (keys : list Z) (resp_task : P2PTensorTableEntry)
    (q : QueueType) (phy_id : Z) (nodes : list Z) : outcome (list event) :=
  match nodes with
  | [] => Ret []
  | i :: nodes' =>
      if i =? phy_id then allgather_responses keys resp_task q phy_id nodes'
      else
        do k <- vec_at keys i;
        do rest <- allgather_responses keys resp_task q phy_id nodes';
        Ret (AddTask q (P2PTask (with_key resp_task k)) :: rest)
  end.

(** [EnqueueAllgatherTensor].  Returns the status, the context and the
    events.  The profiling timestamps are not represented. *)
Definition EnqueueAllgatherTensor (g : Config) (G : BytePSGlobal)
    (context : BPSContext.t) (input output : option Tensor)
    (device priority version : Z) (shape_list : list Z)
    : outcome (Status * BPSContext.t * list event) :=
  if _should_shutdown G then Ret (Status_OK, context, [])
  else
    check (_is_joint g);
    let req_q := GetAllgatherRequestQueueList g in
    let resp_q := GetAllgatherResponseQueueList g in
    let num_phy_node := _num_phy_node g in
    let phy_id := _phy_node_id g in
    match input with
    | None => Fail CheckFailed
    | Some input_t =>
        check (i32 (Z.of_nat (length (BPSContext.key_list context))) =? num_phy_node);
        let total_partnum :=
          if _is_distributed g && ((_local_rank g =? 0) || _is_root_device g)
          then num_phy_node else 1 in
        do offsets <-
          (match shape_list with
           | [] => Ret []
           | _ :: _ =>
               do remaining_dims <- remaining_dims_of (tail (t_shape input_t)) 1;
               let rank_num := _size g in
               do rest <- allgather_offsets shape_list remaining_dims
                            (Z.to_nat rank_num) 1 0;
               Ret (0 :: rest)
           end);
        do req_key <- vec_idx (BPSContext.key_list context) phy_id;
        let mk_base ql k :=
          mkEntry (BPSContext.tensor_name context) k
                  (BPSContext.tensor_name context) input output priority
                  version device (BPSContext.cpubuff context) 0 ql 0
                  (u32 (t_size input_t)) (u32 total_partnum) None in
        let req_task :=
          mkP2PEntry (mk_base req_q req_key) [] None offsets [] shape_list
                     (Some (num_phy_node - 1)) (Some (num_phy_node - 1))
                     CPU_DEVICE_ID false [] [] in
        let resp_task :=
          mkP2PEntry (mk_base resp_q 0) [] None offsets [] shape_list
                     None None CPU_DEVICE_ID false [] [] in
        let context :=
          BPSContext.set_op_count context
            (Telemetry_RecordStart (BPSContext.base_tensor_name context)) in
        if total_partnum =? 0 then
          Ret (Status_OK, context, [Callback Status_OK])
        else
          let req_evs :=
            match req_q with
            | [] => []
            | q :: _ => [AddTask q (P2PTask req_task)]
            end in
          do resp_evs <-
            (match resp_q with
             | [] => Ret []
             | q :: _ =>
                 allgather_responses (BPSContext.key_list context) resp_task q
                   phy_id (Z.of_nat <$> seq 0 (Z.to_nat num_phy_node))
             end);
          Ret (Status_OK, context, req_evs ++ resp_evs)
    end.

(** *** All-to-all *)

(** [getDataTypeLength], the key helpers of the server namespace, the
    floating-point sizing [static_cast<uint32_t>(req_size * factor)] and the
    allocator are not part of the front-end; they are taken as given. *)
Variable getDataTypeLength : Z -> Z.
Variable ComposeAlltoallKey : Z -> Z -> Z.
Variable GetAlltoallTensorId : Z -> Z.
Variable alltoall_needed_size : Z -> Z.
Variable PageAlignedMalloc : Z -> Z.

(** [v[i]] for the offset vectors [send_begin] and [recv_begin].  Reading
    past the end is undefined in the source; the model reads 0 there, and
    the theorems take both vectors with [num_ranks + 1] entries. *)
Definition begin_at (v : list Z) (i : Z) : Z :=
  if i <? 0 then 0 else default 0 (v !! Z.to_nat i).

(** [unit_size * (begin[i + 1] - begin[i])], in [int]. *)
Definition slot_size (unit_size : Z) (begin : list Z) (i : Z) : Z :=
  i32 (unit_size * i32 (begin_at begin (i + 1) - begin_at begin i)).

(** The state of the sizing loop of [EnqueueAlltoAllTensor]. *)
Record AlltoallCount : Set := mkCount {
  num_ps_requests : Z;
  resp_total_partnum : Z;
  request_size_list : list Z;
  resp_size_list : list Z;
  request_offset_list : list Z;
  resp_offset_list : list Z
}.

(** One round of [for (int i = 0; i < (int) num_ranks; ++i)]. *)
Definition alltoall_count_step (unit_size my_rank : Z)
    (request_begin resp_begin : list Z) (unknown : bool)
    (a : AlltoallCount) (i : Z) : AlltoallCount :=
  let request_size := slot_size unit_size request_begin i in
  let resp_size := slot_size unit_size resp_begin i in
  mkCount
    (if unknown && negb (i =? my_rank) then num_ps_requests a + 1
     else if negb (i =? my_rank) && negb (request_size =? 0)
          then num_ps_requests a + 1
          else num_ps_requests a)
    (if negb unknown && negb (resp_size =? 0) then resp_total_partnum a + 1
     else resp_total_partnum a)
    (request_size_list a ++ [request_size])
    (resp_size_list a ++ [resp_size])
    (request_offset_list a ++ [i32 (begin_at request_begin (i + 1) * unit_size)])
    (resp_offset_list a ++ [i32 (begin_at resp_begin (i + 1) * unit_size)]).

Definition alltoall_count (unit_size my_rank : Z)
    (request_begin resp_begin : list Z) (unknown : bool) (num_ranks : nat)
    : AlltoallCount :=
  fold_left (alltoall_count_step unit_size my_rank request_begin resp_begin unknown)
            (Z.of_nat <$> seq 0 num_ranks)
            (mkCount 0 (if unknown then 1 else 0) [] [] [0] [0]).

(** [request_total_partnum] and [total_partnum] as the code derives them
    from the counts. *)
Definition request_total_partnum_of (unknown : bool) (c : AlltoallCount) : Z :=
  if negb unknown && (num_ps_requests c =? 0) then 0 else 1.

Definition total_partnum_of (unknown : bool) (c : AlltoallCount) : Z :=
  request_total_partnum_of unknown c + resp_total_partnum c.

(** [input ? input->dtype() : group_inputs[0]->dtype()] *)
Definition alltoall_dtype (input : option Tensor) (group_inputs : list Tensor)
    : outcome Z :=
  match input with
  | Some t => Ret (t_dtype t)
  | None => do t <- vec_idx group_inputs 0; Ret (t_dtype t)
  end.

(** [BytePSGlobal::EncodeP2PKey(key, len, receiver)] (global.cc). *)
Definition EncodeP2PKey (g : Config) (k len_ receiver_ : Z) : outcome PSKV.t :=
  let krs := _server_key_ranges g in
  let num_servers := i32 (Z.of_nat (length krs)) in
  check (0 <? num_servers);
  let server := receiver_ in
  check (server <? num_servers);
  do kr <- vec_idx krs server;
  let ps_key := u64 (fst kr + k) in
  check (ps_key <? snd kr);
  Ret (PSKV.mk [ps_key] [i32 len_] (i32 len_)).

(** [GenerateAlltoallKeys]: the request key of this rank [num_ranks] times,
    then one response key per rank. *)
Definition GenerateAlltoallKeys (g : Config) (keys : list Z)
    (declared_key : Z) (num_ranks : nat) : list Z :=
  keys ++ replicate num_ranks (ComposeAlltoallKey declared_key (_rank g))
       ++ ((fun i => ComposeAlltoallKey declared_key (Z.of_nat i)) <$> seq 0 num_ranks).

(** The size checks of [InitTensorAlltoall] against the context's bounds. *)
Fixpoint alltoall_check_sizes (bounds request_sizes resp_sizes : list Z)
    (i : Z) : outcome unit :=
  match request_sizes with
  | [] => Ret tt
  | rq :: request_sizes' =>
      do rs <- vec_idx resp_sizes i;
      do b <- vec_idx bounds i;
      check (rq <=? i32 b);
      check (rs <=? i32 b);
      alltoall_check_sizes bounds request_sizes' resp_sizes (i + 1)
  end.

(** The send buffers of a new all-to-all context in push mode: the key is
    encoded for the receiver, a buffer is allocated and, for another rank,
    pushed to its server. *)
Fixpoint alltoall_send_buffs (g : Config) (keys bounds : list Z)
    (ranks : list Z) : outcome (list Z * list event) :=
  match ranks with
  | [] => Ret ([], [])
  | i :: ranks' =>
      do k <- vec_idx keys i;
      do b <- vec_idx bounds i;
      do pskv <- EncodeP2PKey g k b i;
      do ps_key <- vec_idx (PSKV.keys pskv) 0;
      let buff := if _should_skip_input_copy g then 0 else PageAlignedMalloc b in
      do (buffs, evs) <- alltoall_send_buffs g keys bounds ranks';
      Ret (buff :: buffs,
           (if negb (_rank g =? i) then [ZPush ps_key] else []) ++ evs)
  end.

(** [InitTensorAlltoall]. *)
Definition InitTensorAlltoall (g : Config) (context : BPSContext.t)
    (request_sizes resp_sizes : list Z) (use_pull : bool)
    : outcome (BPSContext.t * list event) :=
  let bound := _alltoall_buff_bound g in
  let num_ranks := length request_sizes in
  do bounds_for_ranks <-
    (if BPSContext.initialized context then Ret (replicate num_ranks bound)
     else
       (fix go (rqs : list Z) (i : Z) : outcome (list Z) :=
          match rqs with
          | [] => Ret []
          | rq :: rqs' =>
              do rs <- vec_idx resp_sizes i;
              let req_size := u32 (Z.max rq rs) in
              let needed_size := alltoall_needed_size req_size in
              do rest <- go rqs' (i + 1);
              Ret (Z.max needed_size bound :: rest)
          end) request_sizes 0);
  let context :=
    if BPSContext.initialized context then context
    else BPSContext.set_bounds_for_ranks context bounds_for_ranks in
  do _ <- alltoall_check_sizes (BPSContext.bounds_for_ranks context)
            request_sizes resp_sizes 0;
  if BPSContext.initialized context then Ret (context, [])
  else
    let keys := GenerateAlltoallKeys g (BPSContext.key_list context)
                  (BPSContext.declared_key context) num_ranks in
    let context := BPSContext.set_key_list context keys in
    check (bool_decide ((num_ranks * 2)%nat = length keys));
    let context := BPSContext.set_gpu_ptr context 0 in
    let context := BPSContext.set_cpubuff context 0 in
    check (_is_distributed g);
    do (send_buffs, evs) <-
      (if use_pull then Ret (replicate num_ranks 0, [])
       else alltoall_send_buffs g keys bounds_for_ranks
              (Z.of_nat <$> seq 0 num_ranks));
    let context :=
      BPSContext.set_cpubuff_list context
        (BPSContext.cpubuff_list context ++ send_buffs ++ replicate num_ranks 0) in
    Ret (BPSContext.set_initialized context true, evs).

Definition GetAlltoallRequestQueueList (use_pull : bool) : list QueueType :=
  [if use_pull then P2P_PULL else SEND].

Definition GetAlltoallResponseQueueList (g : Config) (use_pull unknown : bool)
    : list QueueType :=
  if use_pull then
    if _p2p_ack_disabled g then [P2P_PULL_RESPONSE]
    else [P2P_PULL_RESPONSE; P2P_WAIT_ACK]
  else if unknown then [P2P_GROUP_COPYH2D] else [RECV].

(** The receive tasks of the known-size path: one per rank with a non-empty
    response slot; the self slot also signals its ready table. *)
Fixpoint alltoall_responses (g : Config) (base_resp_task : P2PTensorTableEntry)
    (name : string) (q : QueueType) (unit_size : Z)
    (request_begin resp_begin : list Z) (use_pull grouped : bool)
    (ranks : list Z) : outcome (list event) :=
  match ranks with
  | [] => Ret []
  | i :: ranks' =>
      let resp_size := slot_size unit_size resp_begin i in
      if resp_size =? 0 then
        alltoall_responses g base_resp_task name q unit_size request_begin
          resp_begin use_pull grouped ranks'
      else
        do k <- vec_at (key_list base_resp_task) i;
        do off <- (if grouped then Ret 0
                   else vec_idx (offset_list base_resp_task) i);
        let my_rank := _rank g in
        let off := if i =? my_rank
                   then i32 (begin_at request_begin i * unit_size) else off in
        let b := base base_resp_task in
        let task :=
          mkP2PEntry
            (mkEntry (name +:+ "_request_" +:+ pretty i +:+ "_resp_" +:+ pretty my_rank)
                     k (context b) (tensor b) (output b) (priority b) (version b)
                     (device b) (cpubuff b) (gpu_ptr b) (queue_list b)
                     (u32 off) (u32 resp_size) (total_partnum b) (compressor b))
            (pcie_cpubuff base_resp_task) (aux_output base_resp_task)
            (offset_list base_resp_task) (key_list base_resp_task)
            (shape_list base_resp_task) (request_counter base_resp_task)
            (allgather_pull_local_root_counter base_resp_task)
            (output_device base_resp_task) (output_size_unknown base_resp_task)
            (group_tensors base_resp_task) (group_outputs base_resp_task) in
        do rest <- alltoall_responses g base_resp_task name q unit_size
                     request_begin resp_begin use_pull grouped ranks';
        Ret (AddTask q (P2PTask task)
             :: (if i =? my_rank
                 then [AddReadyCount (if use_pull then P2PPullResponseTable
                                      else P2PCopyTable) k]
                 else [])
             ++ rest)
  end.

(** The request task of [EnqueueAlltoAllTensor] as it stands when the
    request counter has been set. *)
Definition alltoall_request_task (name : string) (context : BPSContext.t)
    (input output : option Tensor) (group_inputs group_outputs_ : list Tensor)
    (input_device output_device_ priority version : Z) (unknown : bool)
    (request_q : list QueueType) (num_ranks : nat) (total_partnum : Z)
    (c : AlltoallCount) : P2PTensorTableEntry :=
  mkP2PEntry
    (mkEntry "base_request_task" 0 name input output priority version
             input_device 0 0 request_q 0 0 (u32 total_partnum) None)
    (take num_ranks (BPSContext.cpubuff_list context))
    None (request_offset_list c)
    (take num_ranks (BPSContext.key_list context))
    [] (Some (num_ps_requests c)) None output_device_ unknown
    group_inputs group_outputs_.

Definition rename_task (t : P2PTensorTableEntry) (name : string)
    : P2PTensorTableEntry :=
  let b := base t in
  mkP2PEntry
    (mkEntry name (key b) (context b) (tensor b) (output b)
             (priority b) (version b) (device b) (cpubuff b) (gpu_ptr b)
             (queue_list b) (offset b) (len b) (total_partnum b)
             (compressor b))
    (pcie_cpubuff t) (aux_output t) (offset_list t) (key_list t)
    (shape_list t) (request_counter t) (allgather_pull_local_root_counter t)
    (output_device t) (output_size_unknown t) (group_tensors t)
    (group_outputs t).

Definition set_name_to_cxt (G : BytePSGlobal) (m : gmap string BPSContext.t)
    : BytePSGlobal :=
  mkGlobal (_initialized G) (_should_shutdown G) (_declared_tensors G) m
           (next_keys_ G) (used_keys_ G) (p2p_next_keys_ G) (ps_kv_ G)
           (_server_accumulated_len G) (_total_accumulated_len G).

(** [EnqueueAlltoAllTensor].  Returns the status, the tables with the
    context as the call leaves it, and the events. *)
Definition EnqueueAlltoAllTensor (g : Config) (G : BytePSGlobal)
    (name : string) (input : option Tensor) (group_inputs : list Tensor)
    (output : option Tensor) (group_outputs_ : list Tensor)
    (size_output : option Tensor)
    (input_device output_device_ priority version : Z)
    (send_begin recv_begin : list Z) (unknown : bool)
    : outcome (Status * BytePSGlobal * list event) :=
  if _should_shutdown G then Ret (Status_OK, G, [])
  else
    check (_is_joint g);
    let use_pull := _alltoall_use_pull g && negb unknown in
    let num_ranks := u64 (Z.of_nat (length send_begin) - 1) in
    let n := Z.to_nat (i32 num_ranks) in
    do dtype <- alltoall_dtype input group_inputs;
    let unit_size := getDataTypeLength dtype in
    let my_rank := _rank g in
    match _name_to_cxt G !! name with
    | None => Fail CheckFailed
    | Some byteps_context =>
        let byteps_context :=
          BPSContext.set_op_count byteps_context
            (Telemetry_RecordStart (BPSContext.base_tensor_name byteps_context)) in
        let request_begin := if use_pull then recv_begin else send_begin in
        let resp_begin := if use_pull then send_begin else recv_begin in
        let request_q := GetAlltoallRequestQueueList use_pull in
        let response_q := GetAlltoallResponseQueueList g use_pull unknown in
        let c := alltoall_count unit_size my_rank request_begin resp_begin unknown n in
        let request_total_partnum := request_total_partnum_of unknown c in
        let total_partnum := total_partnum_of unknown c in
        do (byteps_context, init_evs) <-
          InitTensorAlltoall g byteps_context (request_size_list c)
            (resp_size_list c) use_pull;
        check (Z.of_nat (length (BPSContext.cpubuff_list byteps_context))
               =? u64 (num_ranks * 2));
        check (Z.of_nat (length (BPSContext.key_list byteps_context))
               =? u64 (num_ranks * 2));
        let request_task :=
          alltoall_request_task name byteps_context input output group_inputs
            group_outputs_ input_device output_device_ priority version unknown
            request_q (Z.to_nat num_ranks) total_partnum c in
        let base_resp_task :=
          mkP2PEntry
            (mkEntry "base_response_task" 0 name input output priority version
                     input_device 0 0 response_q 0 0 (u32 total_partnum) None)
            (drop (Z.to_nat num_ranks) (BPSContext.cpubuff_list byteps_context))
            size_output (resp_offset_list c)
            (drop (Z.to_nat num_ranks) (BPSContext.key_list byteps_context))
            [] None None output_device_ unknown group_inputs group_outputs_ in
        check (Z.of_nat (length (pcie_cpubuff request_task)) =? num_ranks);
        check (Z.of_nat (length (key_list request_task)) =? num_ranks);
        check (Z.of_nat (length (pcie_cpubuff base_resp_task)) =? num_ranks);
        check (Z.of_nat (length (key_list base_resp_task)) =? num_ranks);
        do request_evs <-
          (if request_total_partnum =? 0 then Ret []
           else
             do q <- vec_at request_q 0;
             Ret [AddTask q (P2PTask (rename_task request_task
                                        (name +:+ "_request")))]);
        do response_evs <-
          (if total_partnum =? 0 then Ret [Callback Status_OK]
           else if resp_total_partnum c =? 0 then Ret []
           else
             do k0 <- vec_idx (BPSContext.key_list byteps_context) 0;
             do q <- vec_at response_q 0;
             do evs <-
               (if unknown then
                  do k <- vec_at (key_list base_resp_task) 0;
                  Ret [AddTask q (P2PTask (with_key
                         (rename_task base_resp_task (name +:+ "_resp"))
                         (GetAlltoallTensorId k)))]
                else
                  alltoall_responses g base_resp_task name q unit_size
                    request_begin resp_begin use_pull
                    (negb (bool_decide (group_inputs = [])))
                    (Z.of_nat <$> seq 0 n));
             Ret (RecordCallback k0 :: evs));
        Ret (Status_OK,
             set_name_to_cxt G (<[name := byteps_context]> (_name_to_cxt G)),
             init_evs ++ request_evs ++ response_evs)
    end.
End Enqueue.

(** The slot [i] of an offset vector: [begin[i + 1] - begin[i]]. *)
Definition slot (begin : list Z) (i : Z) : Z :=
  match begin !! Z.to_nat i, begin !! Z.to_nat (i + 1) with
  | Some lo, Some hi => hi - lo
  | _, _ => 0
  end.

(** The ranks below [n] other than [my_rank]. *)
Definition nonself_ranks (my_rank : Z) (n : nat) : list Z :=
  filter (fun i => i <> my_rank) (Z.of_nat <$> seq 0 n).

(** The ranks other than [my_rank] whose slot is not empty. *)
Definition nonempty_nonself_slots (my_rank : Z) (begin : list Z) (n : nat)
    : list Z :=
  filter (fun i => i <> my_rank /\ slot begin i <> 0) (Z.of_nat <$> seq 0 n).

(** The byte size of slot [i] is representable in [int]. *)
Definition slot_fits (unit_size : Z) (begin : list Z) (i : Z) : Prop :=
  - 2 ^ 31 <= slot begin i < 2 ^ 31 /\
  - 2 ^ 31 <= unit_size * slot begin i < 2 ^ 31.

(** An event that puts a task on a request queue of all-to-all. *)
Definition is_request_task (ev : event) : bool :=
  match ev with
  | AddTask SEND _ | AddTask P2P_PULL _ => true
  | _ => false
  end.

(** ** [PrepareAlltoallTensor] (operations.cc) *)

Definition i64 (z : Z) : Z := (z + 2 ^ 63) mod 2 ^ 64 - 2 ^ 63.

(** The caller's variables behind the output pointers. *)
Record PrepareOut : Set := mkPrepareOut {
  split_indices_list : list Z;          (* vector<int32_t> *)
  recv_split_indices_list : list Z;     (* vector<int32_t> *)
  dim0_in : Z;                          (* int32_t *)
  dim0_out : Z;                         (* int32_t *)
  session_name : string;
  initialized : bool
}.

(** [stride]: the product of [shape[1:]], in [int64_t]. *)
Definition stride_of (shape : list Z) : Z :=
  fold_left (fun stride d => i64 (stride * d)) (tail shape) 1.

(** The list of splits as the error message prints it. *)
Definition splits_text (split_list : list Z) : string :=
  fold_left (fun reason x => reason +:+ pretty x +:+ ",") split_list "".

(** The loop over [split_list]: the sum and the scaled index are stored
    before the sign is tested; a negative entry returns. *)
Fixpoint split_loop (name : string) (stride : Z) (split_list : list Z)
    (i : Z) (o : PrepareOut) : PrepareOut * option Status :=
  match split_list with
  | [] => (o, None)
  | split_i :: rest =>
      let o :=
        mkPrepareOut (split_indices_list o ++ [i32 (i64 (split_i * stride))])
                     (recv_split_indices_list o)
                     (i32 (dim0_in o + split_i)) (dim0_out o)
                     (session_name o) (initialized o) in
      if split_i <? 0 then
        (o, Some (Status_InvalidArgument
                    (name +:+ ": invalid split[" +:+ pretty i +:+ "]="
                          +:+ pretty split_i)))
      else split_loop name stride rest (i + 1) o
  end.

(** The loop over [recv_split_list]: the sign is tested first. *)
Fixpoint recv_split_loop (name : string) (stride : Z) (recv_split_list : list Z)
    (i : Z) (o : PrepareOut) : PrepareOut * option Status :=
  match recv_split_list with
  | [] => (o, None)
  | recv_split_i :: rest =>
      if recv_split_i <? 0 then
        (o, Some (Status_InvalidArgument
                    (name +:+ ": invalid recv_split[" +:+ pretty i +:+ "]="
                          +:+ pretty recv_split_i)))
      else
        recv_split_loop name stride rest (i + 1)
          (mkPrepareOut (split_indices_list o)
                        (recv_split_indices_list o
                           ++ [i32 (i64 (recv_split_i * stride))])
                        (dim0_in o) (i32 (dim0_out o + recv_split_i))
                        (session_name o) (initialized o))
  end.

(** [for i: DeclareAlltoallTensor(name, tensor_key[i], i)] *)
Fixpoint declare_sessions (G : BytePSGlobal) (name : string)
    (tensor_key : list Z) (i : Z) : outcome BytePSGlobal :=
  match tensor_key with
  | [] => Ret G
  | k :: rest =>
      do (G', _) <- DeclareTensor G name ALLTOALL_OP k (i32 i);
      declare_sessions G' name rest (i + 1)
  end.

Section Prepare.
(** [byteps_session_id] is kept by the session tables, which are not part
    of these files; its result for a name is taken as given. *)
Variable byteps_session_id : string -> Z.

(** [PrepareAlltoallTensor].  [TensorShape::dim_size(0)] reads the first
    dimension; on a shape without dimensions the read is undefined. *)
Definition PrepareAlltoallTensor (g : Config) (G : BytePSGlobal)
    (shape : list Z) (tensor_key split_list recv_split_list : list Z)
    (name : string) (o : PrepareOut)
    : outcome (Status * BytePSGlobal * PrepareOut) :=
  let stride := stride_of shape in
  match split_loop name stride split_list 0 o with
  | (o, Some st) => Ret (st, G, o)
  | (o, None) =>
      do expected_dim0 <- vec_idx shape 0;
      if negb (dim0_in o =? expected_dim0) then
        Ret (Status_InvalidArgument
               (name +:+ ": invalid split. tensor.shape[0]="
                     +:+ pretty expected_dim0 +:+ ". split="
                     +:+ splits_text split_list),
             G, o)
      else
        match recv_split_loop name stride recv_split_list 0 o with
        | (o, Some st) => Ret (st, G, o)
        | (o, None) =>
            let session_size := i32 (_alltoall_session_size g) in
            if u64 session_size =? 0 then Fail Undefined
            else
              let session_id :=
                u64 (byteps_session_id (c_str name)) mod u64 session_size in
              let session :=
                "session_" +:+ pretty session_id +:+ "_" +:+ name in
              do G <- declare_sessions G name tensor_key 0;
              match _name_to_cxt G !! session with
              | None => Fail CheckFailed
              | Some bps_context =>
                  Ret (Status_OK, G,
                       mkPrepareOut (split_indices_list o)
                                    (recv_split_indices_list o)
                                    (dim0_in o) (dim0_out o) session
                                    (BPSContext.initialized bps_context))
              end
        end
  end.
End Prepare.

(** ** More of the declaration tables (global.cc) *)

(** [BytePSGlobal::GetContextFromName]: the lookup is checked. *)
Definition GetContextFromName (G : BytePSGlobal) (name : string)
    : outcome BPSContext.t :=
  match _name_to_cxt G !! name with
  | Some cxt => Ret cxt
  | None => Fail CheckFailed
  end.

(** [int send_recv_pair = (sender << 16) + receiver;], in [int]. *)
Definition send_recv_pair (sender receiver : Z) : Z :=
  i32 (i32 (sender * 2 ^ 16) + receiver).

(** [BytePSGlobal::DeclareP2PTensor(name, sender, receiver)].  The context
    is registered under [name] itself; the key is drawn from the
    [unsigned int] counter of the pair and stored in the [int32_t] member. *)
Definition DeclareP2PTensor (G : BytePSGlobal) (name : string)
    (sender receiver : Z) : outcome (BytePSGlobal * Z) :=
  match _name_to_cxt G !! name with
  | Some cxt => Ret (G, BPSContext.declared_key cxt)
  | None =>
      let declared :=
        if bool_decide (name ∈ _declared_tensors G) then _declared_tensors G
        else _declared_tensors G ++ [name] in
      let pair := send_recv_pair sender receiver in
      check (negb (sender =? receiver));
      let next := default 0 (p2p_next_keys_ G !! pair) in
      let cxt :=
        BPSContext.mk false (c_str name) (c_str name) (i32 next)
                      [] 0 0 [] false [] [] [] sender receiver P2P_OP 0 in
      Ret (mkGlobal (_initialized G) (_should_shutdown G) declared
                    (<[name := cxt]> (_name_to_cxt G))
                    (next_keys_ G) (used_keys_ G)
                    (<[pair := u32 (next + 1)]> (p2p_next_keys_ G)) (ps_kv_ G)
                    (_server_accumulated_len G) (_total_accumulated_len G),
           i32 next)
  end.

(** [BytePSGlobal::RegisterCompressor(name, kwargs)]. *)
Definition RegisterCompressor (G : BytePSGlobal) (name : string)
    (kwargs : list (string * string)) : outcome BytePSGlobal :=
  match _name_to_cxt G !! name with
  | Some cxt =>
      Ret (set_name_to_cxt G
             (<[name := BPSContext.set_kwargs cxt kwargs]> (_name_to_cxt G)))
  | None => Fail CheckFailed
  end.

(** [BytePSGlobal::IsGDRKeyInited(key, receiver)] on the table
    [_gdr_inited_key]: the flag is read, and set when it was clear. *)
Definition IsGDRKeyInited (inited : gmap Z (gmap Z bool)) (key receiver : Z)
    : gmap Z (gmap Z bool) * bool :=
  let row := default ∅ (inited !! key) in
  if default false (row !! receiver) then (inited, true)
  else (<[key := <[receiver := true]> row]> inited, false).

(** ** The stage lists of push-pull and send/recv (operations.cc) *)

Definition GetSendQueueList : list QueueType := [SEND].

Definition GetRecvQueueList : list QueueType := [RECV].

Definition GetPushQueueListGPU (g : Config) : list QueueType :=
  (if _building_cuda g then
     if _is_signal_root g then [REDUCE] else [COORDINATE_REDUCE; REDUCE]
   else [])
  ++ (if _is_distributed g || _is_cross_pcie_switch g then [COPYD2H] else [])
  ++ (if _is_cross_pcie_switch g then [PCIE_REDUCE] else [])
  ++ (if _is_distributed g || _is_cross_pcie_switch g then
        if _is_root_device g then [PUSH] else [COORDINATE_PUSH]
      else []).

Definition GetPushQueueListCPU (g : Config) : list QueueType :=
  (if _is_root_device g then [CPU_COPY; CPU_REDUCE] else [CPU_COPY; CPU_REDUCE])
  ++ (if _is_distributed g || _is_cross_pcie_switch g then
        if _is_root_device g then [PUSH] else []
      else []).

Definition GetPushQueueListGDR (g : Config) : list QueueType :=
  if _building_cuda g then
    (if _is_signal_root g then [REDUCE] else [COORDINATE_REDUCE; REDUCE])
    ++ (if 1 <? _num_phy_node g then
          (if _is_gdr_gpu2gpu g then [GDR_V2_PUSH_PULL] else [GDR_V1_PUSH_PULL])
          ++ [GDR_WAIT_PUSH_PULL]
        else [])
  else [].

Definition GetPullQueueListGDR (g : Config) : list QueueType :=
  if _building_cuda g then
    if 1 <? _num_phy_node g then
      if _is_signal_root g then [BROADCAST]
      else [COORDINATE_BROADCAST; BROADCAST]
    else []
  else [].

Definition GetPushQueueList (g : Config) (device : Z) : list QueueType :=
  if device =? CPU_DEVICE_ID then GetPushQueueListCPU g
  else if _is_gdr g then GetPushQueueListGDR g
  else GetPushQueueListGPU g.

Definition GetPullQueueListGPU (g : Config) : list QueueType :=
  (if _is_distributed g then if _is_root_device g then [PULL] else [] else [])
  ++ (if _is_distributed g || _is_cross_pcie_switch g then [COPYH2D] else [])
  ++ (if _building_cuda g then
        if _is_signal_root g then [BROADCAST]
        else [COORDINATE_BROADCAST; BROADCAST]
      else []).

Definition GetPullQueueListCPU (g : Config) : list QueueType :=
  (if _is_distributed g then if _is_root_device g then [PULL] else [] else [])
  ++ [CPU_BCAST]
  ++ (if _is_root_device g then [CPU_BCAST_FINISH] else []).

Definition GetPullQueueList (g : Config) (device : Z) : list QueueType :=
  if device =? CPU_DEVICE_ID then GetPullQueueListCPU g
  else if _is_gdr g then GetPullQueueListGDR g
  else GetPullQueueListGPU g.

(** ** [Align] (common.h) and [InitTensorAllgather] (operations.cc) *)

Section AllgatherInit.
(** [getDataTypeLength] and the shared-memory object are not part of these
    files; the element length of a type and the address at which a buffer of
    a key and size is opened are taken as given. *)
Variable getDataTypeLength : Z -> Z.
Variable openSharedMemory : Z -> Z -> Z.

(** [min_size = (getDataTypeLength(dtype) * getDataTypeLength(dtype)) * 8],
    computed in [int] and converted to [size_t]. *)
Definition Align_min_size (dtype : Z) : Z :=
  u64 (i32 (i32 (getDataTypeLength dtype * getDataTypeLength dtype) * 8)).

(** [size + (min_size - size % min_size) % min_size]; a zero [min_size]
    divides by zero. *)
Definition Align (size dtype : Z) : outcome Z :=
  let min_size := Align_min_size dtype in
  if min_size =? 0 then Fail Undefined
  else Ret (u64 (size + u64 (min_size - size mod min_size) mod min_size)).

(** [key = ((uint64_t) i << 32) + ((uint64_t) declared_key << 16)
           + ((uint64_t) ALLGATHER_OP << 10)] *)
Definition allgather_key (i declared_key : Z) : Z :=
  u64 (u64 (u64 (u64 i * 2 ^ 32) + u64 (u64 declared_key * 2 ^ 16))
       + u64 (u64 (op_code ALLGATHER_OP) * 2 ^ 10)).

(** [InitTensorAllgather]: the initialised guard, the two size checks, one
    key per physical node and, without GDR all-gather, the staging buffer
    opened under the first key.  The CUDA events, the profiling flag and the
    start of the PS worker are external and not represented. *)
Definition InitTensorAllgather (g : Config) (context : BPSContext.t)
    (input_size output_size dtype : Z) : outcome BPSContext.t :=
  if BPSContext.initialized context then Ret context
  else
    check (0 <? input_size);
    check (0 <? output_size);
    let num_phy_node := _num_phy_node g in
    let keys :=
      (fun i => allgather_key (Z.of_nat i) (BPSContext.declared_key context))
        <$> seq 0 (Z.to_nat num_phy_node) in
    let context :=
      BPSContext.set_key_list context (BPSContext.key_list context ++ keys) in
    do context <-
      (if _is_gdr_allgather g then Ret context
       else
         do aligned_size <- Align output_size dtype;
         do k0 <- vec_idx (BPSContext.key_list context) 0;
         Ret (BPSContext.set_cpubuff context (openSharedMemory k0 aligned_size)));
    Ret (BPSContext.set_initialized context true).
End AllgatherInit.

(** ** [InitTensor] and [InitTensorP2P] (operations.cc) *)

Section InitPush.
(** What the hash functions of [EncodeDefaultKey] read, the element length
    of a type, the addresses at which the shared-memory object opens its
    buffers (plain, per NUMA node [i], per PCIe switch, and for send/recv,
    each for a key and a size) and the size of the serialised keyword
    arguments are not part of these files and are taken as given. *)
Variable dangling_c_str : Z -> string.
Variable _built_in_hash_fn : string -> Z.
Variable _built_in_hash_coefficient : Z.
Variable Hash_Mixed_Mode : Z -> outcome Z.
Variable getDataTypeLength : Z -> Z.
Variable openSharedMemory : Z -> Z -> Z.
Variable openNumaSharedMemory : Z -> Z -> Z -> Z.
Variable openPcieSharedMemory : Z -> Z -> list Z.
Variable openP2PSharedMemory : Z -> Z -> Z.
Variable Serialize_size : list (string * string) -> Z.

(** [int len = ((size - accumulated) > bound) ? bound : (size - accumulated);] *)
Definition init_len (size bound accumulated : Z) : Z :=
  i32 (if u64 (size - accumulated) >? bound then bound
       else u64 (size - accumulated)).

(** The buffer that [InitTensor] attaches to the context: behind a PCIe
    switch the last of the buffers opened for the switch, for a CPU tensor
    the buffer of the local rank among those opened per NUMA node, for a GPU
    tensor without GDR the plain buffer, and none with GDR. *)
Definition init_cpubuff (g : Config) (context : BPSContext.t)
    (key_list : list Z) (aligned_size : Z) (on_cpu : bool)
    : outcome BPSContext.t :=
  if _is_cross_pcie_switch g then
    check (_is_cpu_allreduce_disabled g || negb on_cpu);
    do k0 <- vec_idx key_list 0;
    match last (openPcieSharedMemory k0 aligned_size) with
    | Some buff => Ret (BPSContext.set_cpubuff context buff)
    | None => Fail Undefined
    end
  else if on_cpu then
    do k0 <- vec_idx key_list 0;
    let numa_cpubuff :=
      (fun i => openNumaSharedMemory (Z.of_nat i) k0 aligned_size)
        <$> seq 0 (Z.to_nat (_local_size g)) in
    do buff <- vec_idx numa_cpubuff (_local_rank g);
    Ret (BPSContext.set_cpubuff context buff)
  else if negb (_is_gdr g) then
    do k0 <- vec_idx key_list 0;
    Ret (BPSContext.set_cpubuff context (openSharedMemory k0 aligned_size))
  else Ret context.

(** The init-push loop of [InitTensor]: [while (accumulated < size)] with
    [key = key_list[i]].  [keys] are the entries of [key_list] from index
    [i] on, so that [key_list[i]] is their head; past the end the unchecked
    read is undefined.  With [push] (a distributed job in which this
    process does the init push) the key is encoded with the length of the
    partition and pushed, and with [register] (a build with the compressor
    and keyword arguments present) a compressor is created for the aligned
    length, its handle named by [i].  Returns the tables, the compressors,
    the pushes and the final [accumulated] and [i]. *)
Fixpoint init_push_loop (g : Config) (push register : bool)
    (dtype size bound : Z) (keys : list Z) (G : BytePSGlobal)
    (compressors : list Z) (accumulated i : Z)
    : outcome (BytePSGlobal * list Z * list event * Z * Z) :=
  if accumulated <? size then
    match keys with
    | [] => Fail Undefined
    | key :: keys' =>
        let len_ := init_len size bound accumulated in
        do (G, compressors, evs) <-
          (if push then
             do (G, pskv) <-
               EncodeDefaultKey dangling_c_str _built_in_hash_fn
                 _built_in_hash_coefficient Hash_Mixed_Mode g G key (u64 len_);
             do compressors <-
               (if register then
                  do _ <- Align getDataTypeLength (u64 len_) dtype;
                  Ret (compressors ++ [i])
                else Ret compressors);
             Ret (G, compressors, ZPush <$> PSKV.keys pskv)
           else Ret (G, compressors, []));
        do (G, compressors, evs', accumulated, i) <-
          init_push_loop g push register dtype size bound keys' G
            compressors (u64 (accumulated + u64 len_)) (u64 (i + 1));
        Ret (G, compressors, evs ++ evs', accumulated, i)
    end
  else Ret (G, compressors, [], accumulated, i).

(** [for (auto key : key_list)]: the serialised keyword arguments are
    pushed under every key, encoded with their length. *)
Fixpoint kwargs_push_loop (g : Config) (len_ : Z) (keys : list Z)
    (G : BytePSGlobal) : outcome (BytePSGlobal * list event) :=
  match keys with
  | [] => Ret (G, [])
  | key :: keys' =>
      do (G, kv) <-
        EncodeDefaultKey dangling_c_str _built_in_hash_fn
          _built_in_hash_coefficient Hash_Mixed_Mode g G key len_;
      do (G, evs) <- kwargs_push_loop g len_ keys' G;
      Ret (G, (ZPush <$> PSKV.keys kv) ++ evs)
  end.

(** [InitTensor(context, size, dtype, cpubuff)]; [on_cpu] says that
    [cpubuff] is not null.  Returns the context, the tables and the blocking
    pushes (one [ZPush] per pushed key).  The CUDA device and events, the
    profiling flag and the start of the PS worker are external and not
    represented. *)
Definition InitTensor (fuel : nat) (g : Config) (G : BytePSGlobal)
    (context : BPSContext.t) (size dtype : Z) (on_cpu : bool)
    : outcome (BPSContext.t * BytePSGlobal * list event) :=
  if BPSContext.initialized context then Ret (context, G, [])
  else
    check (0 <? size);
    let bound := _partition_bytes g in
    let start_key := push_pull_start_key (BPSContext.declared_key context) in
    do key_list <-
      key_loop fuel size bound 0 start_key (BPSContext.key_list context);
    let context := BPSContext.set_key_list context key_list in
    check (0 <? Z.of_nat (length key_list));
    check (Z.of_nat (length key_list) =? u64 (size + bound - 1) / bound);
    check (if on_cpu then negb (_is_cpu_allreduce_disabled g)
           else _is_gdr g || negb (_is_gpu_allreduce_disabled g));
    let context := if on_cpu then BPSContext.set_gpu_ptr context 0 else context in
    do aligned_size <- Align getDataTypeLength size dtype;
    do context <- init_cpubuff g context key_list aligned_size on_cpu;
    let context :=
      if size <? _min_compress_bytes g then BPSContext.set_kwargs context []
      else context in
    let should_init_push := _is_root_device g && (on_cpu || negb (_is_gdr g)) in
    let push := _is_distributed g && should_init_push in
    let register :=
      _building_compressor g
      && negb (bool_decide (BPSContext.kwargs context = [])) in
    do (G, compressors, evs, accumulated, i) <-
      init_push_loop g push register dtype size bound key_list G
        (BPSContext.compressor_list context) 0 0;
    let context := BPSContext.set_compressor_list context compressors in
    check (i =? Z.of_nat (length key_list));
    check (accumulated =? size);
    do (G, evs') <-
      (if negb (bool_decide (BPSContext.kwargs context = [])) && push then
         kwargs_push_loop g (u64 (Serialize_size (BPSContext.kwargs context)))
           key_list G
       else Ret (G, []));
    Ret (BPSContext.set_initialized context true, G, evs ++ evs').

(** [for (auto k : key_list)] of [InitTensorP2P]: every key is encoded for
    the receiver with the partition bound as its length; the sending rank
    opens a staging buffer under the encoded key and pushes it, any other
    process records a null buffer.  Returns the buffers, the pushes and the
    final [accumulated]. *)
Fixpoint p2p_init_loop (g : Config) (sender receiver size bound : Z)
    (keys : list Z) (accumulated : Z) : outcome (list Z * list event * Z) :=
  match keys with
  | [] => Ret ([], [], accumulated)
  | k :: keys' =>
      let len_ := init_len size bound accumulated in
      do pskv <- EncodeP2PKey g k bound receiver;
      do (buff, evs) <-
        (if (sender =? _rank g) && negb (sender =? receiver) then
           do ps_key <- vec_idx (PSKV.keys pskv) 0;
           Ret (openP2PSharedMemory ps_key bound, ZPush <$> PSKV.keys pskv)
         else Ret (0, []));
      do (buffs, evs', accumulated) <-
        p2p_init_loop g sender receiver size bound keys'
          (u64 (accumulated + u64 len_));
      Ret (buff :: buffs, evs ++ evs', accumulated)
  end.

(** [InitTensorP2P(context, size, dtype, cpubuff, sender, receiver,
    recv_on_gpu)].  Returns the context and the blocking pushes. *)
Definition InitTensorP2P (fuel : nat) (g : Config) (context : BPSContext.t)
    (size : Z) (sender receiver : Z) : outcome (BPSContext.t * list event) :=
  check (_is_joint g);
  let bound := _partition_bytes g in
  check (0 <? size);
  if BPSContext.initialized context then
    let num_partitions := i32 (u64 (size + bound - 1) / bound) in
    check (Z.of_nat (length (BPSContext.key_list context)) =? u64 num_partitions);
    Ret (context, [])
  else
    let sender := if sender =? -1 then _rank g else sender in
    let receiver := if receiver =? -1 then _rank g else receiver in
    let start_key := p2p_start_key sender (BPSContext.declared_key context) in
    do key_list <-
      key_loop fuel size bound 0 start_key (BPSContext.key_list context);
    let context := BPSContext.set_key_list context key_list in
    let context := BPSContext.set_gpu_ptr context 0 in
    let context := BPSContext.set_cpubuff context 0 in
    check (_is_distributed g);
    do (buffs, evs, accumulated) <-
      p2p_init_loop g sender receiver size bound key_list 0;
    let context :=
      BPSContext.set_cpubuff_list context
        (BPSContext.cpubuff_list context ++ buffs) in
    check (accumulated =? size);
    Ret (BPSContext.set_initialized context true, evs).
End InitPush.

(** ** The PyTorch front-end (torch/ops.cc) *)

Module torch.
(** [GetOpName(prefix, name, handle)]. *)
Definition GetOpName (prefix name : string) (handle : Z) : string :=
  if negb (String.eqb name "") then prefix +:+ "." +:+ name
  else prefix +:+ ".noname." +:+ pretty handle.

(** The name that [DoPushPull], [DoAllgather] and [DoPushPullGroupSync] look
    up: [GetOpName("byteps", name.c_str(), 0)] when [staleness == 0],
    [GetOpName("byteps_version_" + to_string(version), name.c_str(), 0)]
    otherwise. *)
Definition versioned_name (name : string) (version staleness : Z) : string :=
  if staleness =? 0 then GetOpName "byteps" (c_str name) 0
  else GetOpName ("byteps_version_" +:+ pretty version) (c_str name) 0.

(** The loop [for (int i = 0; i < num_versions; ++i)] of [DeclareTensor]
    and [DeclareTensorAllgather]; [op_type] is the operation type that the
    declaration called in the body fixes. *)
Fixpoint declare_versions (G : BytePSGlobal) (op_type : OperationType)
    (name : string) (versions : list Z) : outcome BytePSGlobal :=
  match versions with
  | [] => Ret G
  | i :: versions' =>
      let tensor_name :=
        GetOpName ("byteps_version_" +:+ pretty i) (c_str name) 0 in
      do (G', _) <- DeclareTensor G tensor_name op_type (-1) (-1);
      declare_versions G' op_type name versions'
  end.

(** [DeclareTensorAllgather(name, staleness)]. *)
Definition DeclareTensorAllgather (G : BytePSGlobal) (name : string)
    (staleness : Z) : outcome BytePSGlobal :=
  let num_versions := i32 (staleness + 1) in
  if num_versions =? 1 then
    do (G', _) <- DeclareTensor G (GetOpName "byteps" (c_str name) 0)
                    ALLGATHER_OP (-1) (-1);
    Ret G'
  else
    declare_versions G ALLGATHER_OP name
      (Z.of_nat <$> seq 0 (Z.to_nat num_versions)).

(** [DeclareTensor(name, staleness)]. *)
Definition DeclareTensor (G : BytePSGlobal) (name : string) (staleness : Z)
    : outcome BytePSGlobal :=
  let num_versions := i32 (staleness + 1) in
  if num_versions =? 1 then
    do (G', _) <- DeclareTensor G (GetOpName "byteps" (c_str name) 0)
                    PUSH_PULL_OP (-1) (-1);
    Ret G'
  else
    declare_versions G PUSH_PULL_OP name
      (Z.of_nat <$> seq 0 (Z.to_nat num_versions)).

(** [DeclareTensorP2P(name, sender, receiver)]; [my_rank] is
    [byteps_rank()]. *)
Definition DeclareTensorP2P (G : BytePSGlobal) (my_rank : Z) (name : string)
    (sender receiver : Z) : outcome (BytePSGlobal * Z) :=
  let sender := if sender =? -1 then my_rank else sender in
  let receiver := if receiver =? -1 then my_rank else receiver in
  let prefix :=
    "byteps_p2p_send_" +:+ pretty sender +:+ "_recv_" +:+ pretty receiver in
  DeclareP2PTensor G (GetOpName prefix (c_str name) 0) sender receiver.

(** The counter of [DoPushPullGroupSync]: [grad_count_] is advanced, read
    into [curr_count] and reset when it reaches [num_grads_].  Returns
    [curr_count] and the new [grad_count_]. *)
Definition group_sync_count (num_grads_ grad_count_ : Z) : Z * Z :=
  let grad_count_ := i32 (grad_count_ + 1) in
  (grad_count_, if grad_count_ =? num_grads_ then 0 else grad_count_).

(** [n] calls of [DoPushPullGroupSync] in a row: the [curr_count] of each and
    the [grad_count_] left. *)
Fixpoint group_sync_counts (n : nat) (num_grads_ grad_count_ : Z)
    : list Z * Z :=
  match n with
  | O => ([], grad_count_)
  | S n' =>
      let (c, grad_count_) := group_sync_count num_grads_ grad_count_ in
      let (cs, final) := group_sync_counts n' num_grads_ grad_count_ in
      (c :: cs, final)
  end.

Section StartTask.
Variable Telemetry_RecordStart : string -> Z.
Variable uninitialized_key : Z -> Z.
Variable dangling_c_str : Z -> string.
Variable _built_in_hash_fn : string -> Z.
Variable _built_in_hash_coefficient : Z.
Variable Hash_Mixed_Mode : Z -> outcome Z.
Variable getDataTypeLength : Z -> Z.
Variable openSharedMemory : Z -> Z -> Z.
Variable openNumaSharedMemory : Z -> Z -> Z -> Z.
Variable openPcieSharedMemory : Z -> Z -> list Z.
Variable Serialize_size : list (string * string) -> Z.

(** [StartTask]: the context is looked up, initialised on first use, and
    the tensor is enqueued on the push stages followed by the pull stages.
    [device] is [GetDeviceID(tensor)].  [ThrowIfError] raises on a status
    other than OK; the status is returned to show which it is.  The context
    is a reference into the table, which is returned as the call leaves
    it, with the events of the initialisation before those of the
    enqueue. *)
Definition StartTask (fuel : nat) (g : Config) (G : BytePSGlobal)
    (tensor output : Tensor) (device : Z) (tensor_name : string)
    (version priority : Z) : outcome (Status * BytePSGlobal * list event) :=
  do context <- GetContextFromName G tensor_name;
  do (context, G, init_evs) <-
    InitTensor dangling_c_str _built_in_hash_fn _built_in_hash_coefficient
      Hash_Mixed_Mode getDataTypeLength openSharedMemory openNumaSharedMemory
      openPcieSharedMemory Serialize_size fuel g G context
      (u64 (t_size tensor)) (t_dtype tensor)
      ((device =? CPU_DEVICE_ID) && negb (t_data tensor =? 0));
  let queue_list := GetPushQueueList g device ++ GetPullQueueList g device in
  do (st, context, _, evs) <-
    EnqueueTensor Telemetry_RecordStart uninitialized_key fuel g G context
      (Some tensor) (Some output) device priority version queue_list;
  Ret (st, set_name_to_cxt G (<[tensor_name := context]> (_name_to_cxt G)),
       init_evs ++ evs).
End StartTask.
End torch.

(** ** Specification vocabulary and sample values *)

(** Sum of a list of integers. *)
Definition sum_Z (l : list Z) : Z := foldr Z.add 0 l.

(** A split that [PrepareAlltoallTensor] must reject: a negative entry in
    either list, or splits that do not add up to the first dimension. *)
Definition bad_split (split_list recv_split_list : list Z) (dim0 : Z) : Prop :=
  Exists (fun x => x < 0) split_list \/
  Exists (fun x => x < 0) recv_split_list \/
  sum_Z split_list <> dim0.


(** A blocking push of the initialisation. *)
Definition is_ZPush (ev : event) : bool :=
  match ev with ZPush _ => true | _ => false end.

(** An event that neither enqueues a task nor invokes the callback. *)
Definition quiet (ev : event) : Prop :=
  is_AddTask ev = false /\ is_Callback ev = false.


(** The number of partitions of [N] bytes under bound [B], rounded up. *)
Definition ceil_div (N B : Z) : Z := (N + B - 1) / B.

(** Sum of the partition lengths. *)
Definition total_len (ps : list TensorTableEntry) : Z :=
  foldr (fun e s => len e + s) 0 ps.

(** A two-worker, one-GPU-per-host, distributed root process with the
    default partition bound of 4,096,000 bytes. *)
Definition sample_config_with (partition_bytes : Z) : Config :=
  {| _partition_bytes := partition_bytes;
     _is_root_device := true; _is_joint := true; _is_distributed := true;
     _rank := 0; _local_rank := 0; _size := 2; _num_phy_node := 2;
     _phy_node_id := 0; _is_gdr := false; _is_gdr_gpu2gpu := false;
     _gdr_phase1_thresh := 102400; _is_using_reduce := false;
     _should_skip_input_copy := false; _alltoall_use_pull := false;
     _p2p_ack_disabled := false; _is_signal_root := true;
     _is_gdr_allgather := true; _alltoall_buff_bound := 4096000;
     _min_compress_bytes := 65536; _building_cuda := true;
     _building_compressor := false; _hash_knob := "djb2";
     _local_size := 1; _server_local_root := 0; _mixed_mode := false;
     _alltoall_session_size := 2; _is_cpu_allreduce_disabled := false;
     _is_gpu_allreduce_disabled := false; _is_cross_pcie_switch := false;
     _server_key_ranges := [(0, 2 ^ 63); (2 ^ 63, 2 ^ 64 - 1)] |}.

Definition sample_config : Config := sample_config_with 4096000.

Definition sample_tensor (bytes : Z) : Tensor :=
  {| t_size := bytes; t_data := 4096; t_dtype := 0; t_shape := [bytes / 4] |}.

(** A declared push-pull context named [name] with declared key [d]. *)
Definition sample_context (name : string) (d : Z) : BPSContext.t :=
  BPSContext.mk false name name d [] 0 0 [] false [] [] [] (-1) (-1)
                PUSH_PULL_OP 0.

Definition sample_entry (name : string) (bytes : Z) : TensorTableEntry :=
  mkEntry name 0 name (Some (sample_tensor bytes)) (Some (sample_tensor bytes))
          0 0 0 0 0 [REDUCE; COPYD2H; PUSH; PULL; COPYH2D; BROADCAST] 0 0 2 None.

(** The request counters of the tasks put on a request queue. *)
Definition request_counters (evs : list event) : list (option Z) :=
  omap (fun ev => match ev with
                  | AddTask SEND (P2PTask t) | AddTask P2P_PULL (P2PTask t) =>
                      Some (request_counter t)
                  | _ => None
                  end) evs.

(** Sample collaborators: four-byte elements, a key that packs the declared
    key and the rank, a sizing factor of 1.5 and one allocation address. *)
Definition sample_RecordStart (name : string) : Z := 1.
Definition sample_getDataTypeLength (dtype : Z) : Z := 4.
Definition sample_ComposeAlltoallKey (declared_key rank : Z) : Z :=
  declared_key * 2 ^ 16 + op_code ALLTOALL_OP * 2 ^ 10 + rank.
Definition sample_GetAlltoallTensorId (k : Z) : Z := k / 2 ^ 16.
Definition sample_needed_size (req_size : Z) : Z := req_size * 3 / 2.
Definition sample_PageAlignedMalloc (bytes : Z) : Z := 4096.

(** Sample collaborators of the key encoder and of the initialisation: the
    hash functions still find the decimal digits of the key, the library
    hash is constant, mixed mode is off, every buffer is opened at one
    address, the serialised keyword arguments take 16 bytes, and a new
    entry holds the pattern [0xABAB...AB] in its [key]. *)
Definition sample_c_str (key : Z) : string := to_string key.
Definition sample_hash_fn (s : string) : Z := 0.
Definition sample_Hash_Mixed_Mode (key : Z) : outcome Z := Fail CheckFailed.
Definition sample_uninitialized_key (i : Z) : Z := 12370169555311111083.
Definition sample_openSharedMemory (key size : Z) : Z := 4096.
Definition sample_openNumaSharedMemory (i key size : Z) : Z := 4096.
Definition sample_openPcieSharedMemory (key size : Z) : list Z := [4096].
Definition sample_Serialize_size (kwargs : list (string * string)) : Z := 16.

Definition sample_EncodeDefaultKey :=
  EncodeDefaultKey sample_c_str sample_hash_fn 1 sample_Hash_Mixed_Mode.

Definition sample_InitTensor :=
  InitTensor sample_c_str sample_hash_fn 1 sample_Hash_Mixed_Mode
    sample_getDataTypeLength sample_openSharedMemory
    sample_openNumaSharedMemory sample_openPcieSharedMemory
    sample_Serialize_size.

Definition sample_InitTensorP2P := InitTensorP2P sample_openSharedMemory.

Definition sample_StartTask :=
  torch.StartTask sample_RecordStart sample_uninitialized_key sample_c_str
    sample_hash_fn 1 sample_Hash_Mixed_Mode sample_getDataTypeLength
    sample_openSharedMemory sample_openNumaSharedMemory
    sample_openPcieSharedMemory sample_Serialize_size.

(** The tables after one all-to-all declaration of ["a2a"] in session 0. *)
Definition sample_alltoall_global : BytePSGlobal :=
  match DeclareTensor (initial_global 2) "a2a" ALLTOALL_OP (-1) 0 with
  | Ret (G, _) => G
  | Fail _ => initial_global 2
  end.

(** The tables of a process whose shutdown flag is set. *)
Definition sample_shutdown_global : BytePSGlobal :=
  mkGlobal true true [] ∅ ∅ ∅ ∅ ∅ [] 0.

(** [EnqueueAlltoAllTensor] on the sample collaborators, for two ranks. *)
Definition sample_EnqueueAlltoAll (send_begin recv_begin : list Z)
    (unknown : bool) : outcome (Status * BytePSGlobal * list event) :=
  EnqueueAlltoAllTensor sample_RecordStart sample_getDataTypeLength
    sample_ComposeAlltoallKey sample_GetAlltoallTensorId sample_needed_size
    sample_PageAlignedMalloc sample_config sample_alltoall_global
    "session_0_a2a" (Some (sample_tensor 120)) [] (Some (sample_tensor 48)) []
    None CPU_DEVICE_ID CPU_DEVICE_ID 0 0 send_begin recv_begin unknown.


(** ** Vocabulary and sample values for the further properties *)

(** The declaration tables are consistent: the key counters are within
    [0, INT32_MAX], the declared key of every registered context other than
    a p2p one is marked as used for its operation type, and two such
    contexts of one operation type registered under different names have
    different declared keys. *)
Definition keys_consistent (G : BytePSGlobal) : Prop :=
  (forall op next, next_keys_ G !! op = Some next -> 0 <= next <= INT32_MAX) /\
  (forall name cxt,
     _name_to_cxt G !! name = Some cxt ->
     BPSContext.op_type cxt <> P2P_OP ->
     BPSContext.declared_key cxt
       ∈ default (∅ : gset Z) (used_keys_ G !! BPSContext.op_type cxt)) /\
  (forall name1 name2 cxt1 cxt2,
     _name_to_cxt G !! name1 = Some cxt1 ->
     _name_to_cxt G !! name2 = Some cxt2 ->
     name1 <> name2 ->
     BPSContext.op_type cxt1 = BPSContext.op_type cxt2 ->
     BPSContext.op_type cxt1 <> P2P_OP ->
     BPSContext.declared_key cxt1 <> BPSContext.declared_key cxt2).

(** The room the push-pull key counter needs: the counter plus the number
    of used push-pull keys at or above it. *)
Definition push_pull_key_room (G : BytePSGlobal) : Z :=
  default 0 (next_keys_ G !! PUSH_PULL_OP)
  + Z.of_nat (size (filter (fun k => default 0 (next_keys_ G !! PUSH_PULL_OP) <= k)
                           (default (∅ : gset Z) (used_keys_ G !! PUSH_PULL_OP)))).

(** The tables after ["a"] has been declared with the provided key 0. *)
Definition sample_declared_global : BytePSGlobal :=
  match DeclareTensor (initial_global 1) "a" PUSH_PULL_OP 0 (-1) with
  | Ret (G, _) => G
  | Fail _ => initial_global 1
  end.

(** The tables after the p2p tensor ["p0"] from rank 0 to rank 1 has been
    declared. *)
Definition sample_p2p_global : BytePSGlobal :=
  match DeclareP2PTensor (initial_global 2) "p0" 0 1 with
  | Ret (G, _) => G
  | Fail _ => initial_global 2
  end.

(** The key a declaration returns, or the way it fails. *)
Definition returned_key (m : outcome (BytePSGlobal * Z)) : outcome Z :=
  do (_, k) <- m; Ret k.

(** The load counters agree: the per-server lengths add up, in 64 bits, to
    the total. *)
Definition load_consistent (G : BytePSGlobal) : Prop :=
  u64 (foldr Z.add 0 (_server_accumulated_len G)) = _total_accumulated_len G.

(** The routing key has been encoded before: its memo entry holds a key. *)
Definition is_memoized (G : BytePSGlobal) (key : Z) : bool :=
  match PSKV.keys (default PSKV.empty (ps_kv_ G !! key)) with
  | [] => false
  | _ :: _ => true
  end.

(** Every memo entry holds exactly one encoded key and one length, which is
    an [int] and equals the entry's size. *)
Definition ps_kv_single (G : BytePSGlobal) : Prop :=
  forall key pskv,
    ps_kv_ G !! key = Some pskv ->
    exists k l,
      PSKV.keys pskv = [k] /\ PSKV.lens pskv = [l] /\ PSKV.size pskv = l /\
      - 2 ^ 31 <= l < 2 ^ 31.

Section ModuloHash.
Variable dangling_c_str : Z -> string.
Variable _built_in_hash_fn : string -> Z.
Variable _built_in_hash_coefficient : Z.

(** The hash function that each of the modulo settings of [_hash_knob]
    selects, in the order in which [EncodeDefaultKey] tests them. *)
Definition modulo_hash (knob : string) : option (Z -> Z) :=
  if String.eqb knob "naive" then Some Hash_Naive
  else if String.eqb knob "built_in"
       then Some (Hash_BuiltIn dangling_c_str _built_in_hash_fn
                               _built_in_hash_coefficient)
  else if String.eqb knob "djb2" then Some (Hash_DJB2 dangling_c_str)
  else if String.eqb knob "djb2-colocate" then None
  else if String.eqb knob "sdbm" then Some (Hash_SDBM dangling_c_str)
  else None.
End ModuloHash.

(** An initialised p2p context with the given staging buffers. *)
Definition sample_p2p_context (buffs : list Z) : BPSContext.t :=
  BPSContext.mk true "p" "p" 0 [2048; 2049] 0 0 [] false [] [] buffs 0 1
                P2P_OP 0.

(** The condition under which [EnqueueTensor] sends a partition down the
    GDR fast path. *)
Definition gdr_fast_path (g : Config) (device len_ : Z) : bool :=
  negb (device =? CPU_DEVICE_ID) && (1 <? _num_phy_node g)
  && _is_gdr g && _is_gdr_gpu2gpu g
  && (len_ <=? _gdr_phase1_thresh g)
  && negb (_is_using_reduce g).

(** The sample process when it is not the local root. *)
Definition sample_non_root_config : Config :=
  {| _partition_bytes := 4096000;
     _is_root_device := false; _is_joint := true; _is_distributed := true;
     _rank := 1; _local_rank := 1; _size := 4; _num_phy_node := 2;
     _phy_node_id := 0; _is_gdr := false; _is_gdr_gpu2gpu := false;
     _gdr_phase1_thresh := 102400; _is_using_reduce := false;
     _should_skip_input_copy := false; _alltoall_use_pull := false;
     _p2p_ack_disabled := false; _is_signal_root := false;
     _is_gdr_allgather := true; _alltoall_buff_bound := 4096000;
     _min_compress_bytes := 65536; _building_cuda := true;
     _building_compressor := false; _hash_knob := "djb2";
     _local_size := 2; _server_local_root := 0; _mixed_mode := false;
     _alltoall_session_size := 2; _is_cpu_allreduce_disabled := false;
     _is_gpu_allreduce_disabled := false; _is_cross_pcie_switch := false;
     _server_key_ranges := [(0, 2 ^ 63); (2 ^ 63, 2 ^ 64 - 1)] |}.

(** [total_partnum] of [EnqueueAllgatherTensor]. *)
Definition allgather_total_partnum (g : Config) : Z :=
  if _is_distributed g && ((_local_rank g =? 0) || _is_root_device g)
  then _num_phy_node g else 1.

(** An all-gather context for the sample process, initialised. *)
Definition sample_allgather_context : BPSContext.t :=
  match InitTensorAllgather (fun _ => 4) (fun _ _ => 0) sample_config
          (BPSContext.mk false "g" "g" 1 [] 0 0 [] false [] [] [] (-1) (-1)
                         ALLGATHER_OP 0) 1024 2048 0 with
  | Ret c => c
  | Fail _ => sample_context "g" 1
  end.

(** The context of ["w"], declared key 3, after [InitTensor] for 5,000,000
    bytes under the default bound: two keys. *)
Definition sample_initialized_context : BPSContext.t :=
  match sample_InitTensor 2 sample_config (initial_global 2)
          (sample_context "w" 3) 5000000 0 false with
  | Ret (c, _, _) => c
  | Fail _ => sample_context "w" 3
  end.

(** An all-to-all context for two ranks after its first use with request
    sizes 20 and 100 and response sizes 20 and 28. *)
Definition sample_alltoall_context : BPSContext.t :=
  match InitTensorAlltoall sample_ComposeAlltoallKey sample_needed_size
          sample_PageAlignedMalloc sample_config
          (BPSContext.mk false "a2a" "a2a" 0 [] 0 0 [] false [] [] [] (-1) (-1)
                         ALLTOALL_OP 0) [20; 100] [20; 28] false with
  | Ret (c, _) => c
  | Fail _ => sample_context "a2a" 0
  end.

(** One returning call of a function of [BytePSGlobal] that writes the
    tables, [Shutdown] apart, or one update in place of a registered
    context, as the initialisation and enqueue functions do through their
    reference to it; none of them writes the declared key. *)
Inductive table_call : BytePSGlobal -> BytePSGlobal -> Prop :=
| call_DeclareTensor G G' name op_type provided_key session k :
    DeclareTensor G name op_type provided_key session = Ret (G', k) ->
    table_call G G'
| call_DeclareP2PTensor G G' name sender receiver k :
    DeclareP2PTensor G name sender receiver = Ret (G', k) ->
    table_call G G'
| call_RegisterCompressor G G' name kwargs :
    RegisterCompressor G name kwargs = Ret G' ->
    table_call G G'
| call_ReDeclareTensor G G' :
    ReDeclareTensor G = Ret G' ->
    table_call G G'
| call_EncodeDefaultKey G G' c fn coef mixed g key len pskv :
    EncodeDefaultKey c fn coef mixed g G key len = Ret (G', pskv) ->
    table_call G G'
| call_Init G g num_server :
    table_call G (Init g num_server G)
| call_context G name cxt cxt' :
    _name_to_cxt G !! name = Some cxt ->
    BPSContext.declared_key cxt' = BPSContext.declared_key cxt ->
    table_call G (set_name_to_cxt G (<[name := cxt']> (_name_to_cxt G))).

(** A run of such calls: what a process does to its tables between two
    shutdowns. *)
Inductive table_calls : BytePSGlobal -> BytePSGlobal -> Prop :=
| table_calls_nil G : table_calls G G
| table_calls_cons G G' G'' :
    table_call G G' -> table_calls G' G'' -> table_calls G G''.

(** The sample process after a resume with a single server. *)
Definition sample_resumed_config : Config :=
  {| _partition_bytes := 4096000;
     _is_root_device := true; _is_joint := true; _is_distributed := true;
     _rank := 0; _local_rank := 0; _size := 2; _num_phy_node := 2;
     _phy_node_id := 0; _is_gdr := false; _is_gdr_gpu2gpu := false;
     _gdr_phase1_thresh := 102400; _is_using_reduce := false;
     _should_skip_input_copy := false; _alltoall_use_pull := false;
     _p2p_ack_disabled := false; _is_signal_root := true;
     _is_gdr_allgather := true; _alltoall_buff_bound := 4096000;
     _min_compress_bytes := 65536; _building_cuda := true;
     _building_compressor := false; _hash_knob := "djb2";
     _local_size := 1; _server_local_root := 0; _mixed_mode := false;
     _alltoall_session_size := 2; _is_cpu_allreduce_disabled := false;
     _is_gpu_allreduce_disabled := false; _is_cross_pcie_switch := false;
     _server_key_ranges := [(0, 2 ^ 64 - 1)] |}.

(** The sample process in a build with the compressor. *)
Definition sample_compressor_config : Config :=
  {| _partition_bytes := 4096000;
     _is_root_device := true; _is_joint := true; _is_distributed := true;
     _rank := 0; _local_rank := 0; _size := 2; _num_phy_node := 2;
     _phy_node_id := 0; _is_gdr := false; _is_gdr_gpu2gpu := false;
     _gdr_phase1_thresh := 102400; _is_using_reduce := false;
     _should_skip_input_copy := false; _alltoall_use_pull := false;
     _p2p_ack_disabled := false; _is_signal_root := true;
     _is_gdr_allgather := true; _alltoall_buff_bound := 4096000;
     _min_compress_bytes := 65536; _building_cuda := true;
     _building_compressor := true; _hash_knob := "djb2";
     _local_size := 1; _server_local_root := 0; _mixed_mode := false;
     _alltoall_session_size := 2; _is_cpu_allreduce_disabled := false;
     _is_gpu_allreduce_disabled := false; _is_cross_pcie_switch := false;
     _server_key_ranges := [(0, 2 ^ 63); (2 ^ 63, 2 ^ 64 - 1)] |}.

(** A declared push-pull context with keyword arguments for a compressor. *)
Definition sample_kwargs_context (name : string) (d : Z) : BPSContext.t :=
  BPSContext.mk false name name d [] 0 0 [] false []
                [("compressor_type", "onebit")] [] (-1) (-1) PUSH_PULL_OP 0.

(** The context has no compressors, or one for each of [n] partitions at
    least, with [n] an [int]: the indices at which [PartitionTensor] reads
    [compressor_list] are within it.  [InitTensor] leaves a context so for
    the number of its keys. *)
Definition compressors_cover (ctx : BPSContext.t) (n : Z) : Prop :=
  BPSContext.compressor_list ctx = [] \/
  n <= Z.of_nat (length (BPSContext.compressor_list ctx)) /\ n < 2 ^ 31.

(** The tables after ["a"] has been declared with the provided key 0 in a
    process with two servers. *)
Definition sample_started_global : BytePSGlobal :=
  match DeclareTensor (initial_global 2) "a" PUSH_PULL_OP 0 (-1) with
  | Ret (G, _) => G
  | Fail _ => initial_global 2
  end.


(* ===================================================================== *)
(** * Theorems *)
(* ===================================================================== *)

(** ** Arithmetic of the partition count *)

Lemma ceil_div_zero B : 0 < B -> ceil_div 0 B = 0.
Proof. intros HB. unfold ceil_div. apply Z.div_small. lia. Qed.

Lemma ceil_div_small r B : 0 < r <= B -> ceil_div r B = 1.
Proof.
  intros Hr. unfold ceil_div. symmetry.
  apply (Z.div_unique_pos _ _ 1 (r - 1)); lia.
Qed.

Lemma ceil_div_step r B : 0 < B -> ceil_div r B = 1 + ceil_div (r - B) B.
Proof.
  intros HB. unfold ceil_div.
  replace (r + B - 1) with ((r - B + B - 1) + 1 * B) by lia.
  rewrite Z.div_add by lia. lia.
Qed.

Lemma ceil_div_nonneg r B : 0 < B -> 0 <= r -> 0 <= ceil_div r B.
Proof. intros. unfold ceil_div. apply Z.div_pos; lia. Qed.

Lemma ceil_div_pos r B : 0 < B -> 0 < r -> 0 < ceil_div r B.
Proof.
  intros HB Hr. unfold ceil_div.
  apply Z.div_str_pos. lia.
Qed.

Lemma u64_small z : 0 <= z < 2 ^ 64 -> u64 z = z.
Proof. intros. unfold u64. by apply Z.mod_small. Qed.

Lemma u32_small z : 0 <= z < 2 ^ 32 -> u32 z = z.
Proof. intros. unfold u32. by apply Z.mod_small. Qed.

Lemma i32_small z : - 2 ^ 31 <= z < 2 ^ 31 -> i32 z = z.
Proof. intros. unfold i32. rewrite Z.mod_small; lia. Qed.

Lemma u64_range z : 0 <= u64 z < 2 ^ 64.
Proof. unfold u64. apply Z.mod_pos_bound. lia. Qed.

Lemma entry_size_range entry N : entry_size entry = Ret N -> 0 <= N < 2 ^ 64.
Proof.
  unfold entry_size. intros H.
  destruct (tensor entry), (output entry); inversion H; apply u64_range.
Qed.

(** ** [PartitionTensor]: the partitions of a push-pull tensor *)

Section PartitionLoop.
Context (uninitialized_key : Z -> Z).
Context (g : Config) (ctx : BPSContext.t) (entry : TensorTableEntry).
Context (size bound : Z).
Hypothesis Hop : BPSContext.op_type ctx = PUSH_PULL_OP.
Hypothesis Hbound : 0 < bound < 2 ^ 32.
Hypothesis Hsize : size < 2 ^ 64.

(** The compressor read of one partition, within the list. *)
Lemma compressor_read (i : Z) :
  BPSContext.compressor_list ctx = [] \/
  0 <= i < Z.of_nat (length (BPSContext.compressor_list ctx)) ->
  (match BPSContext.compressor_list ctx with
   | [] => Ret None
   | _ :: _ =>
       do c <- vec_idx (BPSContext.compressor_list ctx) i; Ret (Some c)
   end)
  = Ret (match BPSContext.compressor_list ctx with
         | [] => None
         | _ :: _ => BPSContext.compressor_list ctx !! Z.to_nat i
         end).
Proof.
  intros Hc. destruct (BPSContext.compressor_list ctx) as [|c0 cl] eqn:Hcl.
  - done.
  - destruct Hc as [|Hi]; [done|]. unfold vec_idx.
    destruct (Z.ltb_spec i 0); [lia|].
    destruct ((c0 :: cl) !! Z.to_nat i) eqn:Hlk; [done|].
    apply lookup_ge_None in Hlk. lia.
Qed.

Lemma partition_entry_push_pull accumulated i :
  0 <= accumulated < size ->
  BPSContext.compressor_list ctx = [] \/
  0 <= i < Z.of_nat (length (BPSContext.compressor_list ctx)) ->
  exists e,
    partition_entry uninitialized_key g ctx entry size bound accumulated i
      = Ret e /\
    len e = Z.min bound (size - accumulated) /\
    offset e = u32 accumulated /\
    queue_list e = queue_list entry /\
    total_partnum e = total_partnum entry.
Proof.
  intros Hacc Hc. unfold partition_entry.
  destruct (decide _) as [_|Hne]; [|by destruct Hne].
  cbn [obind]. rewrite (compressor_read i Hc). cbn [obind].
  eexists. split; [reflexivity|]. simpl.
  rewrite u64_small by lia.
  repeat split.
  destruct (Z.gtb_spec (size - accumulated) bound).
  - rewrite u32_small by lia. lia.
  - rewrite u32_small by lia. lia.
Qed.

Lemma PartitionTensor_loop_spec fuel : forall accumulated i partitions,
  0 <= accumulated <= size ->
  (Z.to_nat (ceil_div (size - accumulated) bound) <= fuel)%nat ->
  BPSContext.compressor_list ctx = [] \/
  0 <= i /\
  i + ceil_div (size - accumulated) bound
    <= Z.of_nat (length (BPSContext.compressor_list ctx)) /\
  i + ceil_div (size - accumulated) bound < 2 ^ 31 ->
  exists new,
    PartitionTensor_loop uninitialized_key fuel g ctx entry size bound
      accumulated i partitions
      = Ret (partitions ++ new) /\
    Z.of_nat (length new) = ceil_div (size - accumulated) bound /\
    (forall (j : nat) e, new !! j = Some e ->
       len e = Z.min bound (size - accumulated - Z.of_nat j * bound) /\
       queue_list e = queue_list entry /\
       total_partnum e = total_partnum entry) /\
    total_len new = size - accumulated.
Proof.
  induction fuel as [|fuel IH]; intros accumulated i partitions Hacc Hfuel Hc.
  - (* no fuel: the loop must already be finished *)
    assert (accumulated = size) as ->.
    { destruct (Z.eq_dec accumulated size); [done|].
      pose proof (ceil_div_pos (size - accumulated) bound). lia. }
    exists []. simpl. rewrite Z.ltb_irrefl, app_nil_r, Z.sub_diag.
    rewrite ceil_div_zero by lia. repeat split; intros; done.
  - simpl. destruct (Z.ltb_spec accumulated size) as [Hlt|Hge].
    + pose proof (ceil_div_pos (size - accumulated) bound ltac:(lia) ltac:(lia))
        as Hpos.
      destruct (partition_entry_push_pull accumulated i) as
        (e & -> & Hlen & Hoff & Hq & Hn); [lia| |].
      { destruct Hc as [|Hc]; [by left|right; lia]. }
      simpl.
      assert (u64 (accumulated + len e) = accumulated + len e) as Hacc'
        by (apply u64_small; lia).
      rewrite Hacc'.
      assert (ceil_div (size - (accumulated + len e)) bound
              = ceil_div (size - accumulated) bound - 1) as Hstep.
      { rewrite (ceil_div_step (size - accumulated)) by lia.
        destruct (Z.le_gt_cases (size - accumulated) bound).
        - replace (size - (accumulated + len e)) with 0 by lia.
          replace (size - accumulated - bound) with (size - accumulated - bound)
            by lia.
          rewrite ceil_div_zero by lia.
          assert (ceil_div (size - accumulated - bound) bound = 0) as ->; [|lia].
          unfold ceil_div. apply Z.div_small. lia.
        - replace (size - (accumulated + len e))
            with (size - accumulated - bound) by lia. lia. }
      destruct (IH (accumulated + len e) (i32 (i + 1)) (partitions ++ [e]))
        as (new & -> & Hcount & Hnth & Hsum).
      { lia. }
      { lia. }
      { destruct Hc as [|Hc]; [by left|right].
        rewrite i32_small by lia. lia. }
      exists (e :: new). rewrite <- app_assoc. split; [done|].
      destruct (Z.le_gt_cases (size - accumulated) bound) as [Hle|Hgt].
      * (* the short, last partition *)
        replace (size - (accumulated + len e)) with 0 in * by lia.
        rewrite ceil_div_zero in Hcount by lia.
        destruct new; [|simpl in Hcount; lia].
        rewrite ceil_div_small by lia.
        repeat split; try done.
        -- destruct j; simpl in *; [|done]. inversion H; subst. lia.
        -- destruct j; simpl in *; [|done]. by inversion H; subst.
        -- destruct j; simpl in *; [|done]. by inversion H; subst.
        -- simpl. lia.
      * replace (size - (accumulated + len e))
          with (size - accumulated - bound) in * by lia.
        rewrite (ceil_div_step (size - accumulated)) by lia.
        split; [simpl length; lia|]. split.
        -- intros [|j] e' Hj; simpl in Hj.
           ++ inversion Hj; subst. repeat split; try done. lia.
           ++ destruct (Hnth j e' Hj) as (Hl & ? & ?).
              repeat split; try done. rewrite Hl. f_equal. lia.
        -- simpl. fold (total_len new). lia.
    + assert (accumulated = size) as -> by lia.
      exists []. rewrite app_nil_r, Z.sub_diag, ceil_div_zero by lia.
      repeat split; intros; done.
Qed.
End PartitionLoop.

Lemma ceil_div_bounds N B :
  0 < B -> (ceil_div N B - 1) * B < N <= ceil_div N B * B.
Proof.
  intros HB. unfold ceil_div.
  pose proof (Z.div_mod (N + B - 1) B ltac:(lia)).
  pose proof (Z.mod_pos_bound (N + B - 1) B HB). nia.
Qed.

(** C1. A push-pull tensor of [N > 0] bytes under the partition bound [B] is
    cut by [PartitionTensor] into exactly ceil(N/B) partitions; every
    partition but the last has length [B], the last has length
    [N - (ceil(N/B) - 1) * B], and the lengths sum to [N].  The context
    has no compressors or one per partition, as [InitTensor] leaves it:
    with fewer the unchecked read [compressor_list[i]] is undefined. *)
Theorem PartitionTensor_push_pull (uninitialized_key : Z -> Z) (g : Config)
    (ctx : BPSContext.t) (entry : TensorTableEntry) (N : Z) (fuel : nat) :
  BPSContext.op_type ctx = PUSH_PULL_OP ->
  entry_size entry = Ret N ->
  0 < N ->
  0 < _partition_bytes g < 2 ^ 32 ->
  (Z.to_nat (ceil_div N (_partition_bytes g)) <= fuel)%nat ->
  compressors_cover ctx (ceil_div N (_partition_bytes g)) ->
  exists partitions,
    PartitionTensor uninitialized_key fuel g ctx entry [] = Ret partitions /\
    Z.of_nat (length partitions) = ceil_div N (_partition_bytes g) /\
    (forall (j : nat) e,
       partitions !! j = Some e ->
       Z.of_nat j < ceil_div N (_partition_bytes g) - 1 ->
       len e = _partition_bytes g) /\
    (forall e, last partitions = Some e ->
       len e = N - (ceil_div N (_partition_bytes g) - 1) * _partition_bytes g) /\
    total_len partitions = N.
Proof.
  intros Hop Hsz HN HB Hfuel Hcover.
  pose proof (entry_size_range _ _ Hsz) as HR.
  pose proof (ceil_div_bounds N (_partition_bytes g) ltac:(lia)) as Hc.
  unfold PartitionTensor. rewrite Hsz. simpl.
  destruct (PartitionTensor_loop_spec uninitialized_key g ctx entry N
              (_partition_bytes g) Hop HB ltac:(lia) fuel 0 0 [])
    as (new & -> & Hlen & Hnth & Hsum).
  { lia. }
  { by rewrite Z.sub_0_r. }
  { rewrite Z.sub_0_r. destruct Hcover as [|Hcover]; [by left|right; lia]. }
  rewrite Z.sub_0_r in *. simpl. exists new.
  repeat split; try done.
  - intros j e Hj Hlt. destruct (Hnth j e Hj) as (-> & _). nia.
  - intros e Hlast. rewrite last_lookup in Hlast.
    destruct (Hnth _ e Hlast) as (-> & _).
    replace (Z.of_nat (Init.Nat.pred (length new)))
      with (ceil_div N (_partition_bytes g) - 1) by lia.
    nia.
Qed.

(** The theorem at 5,000,000 bytes under the default bound: two partitions. *)
Lemma PartitionTensor_push_pull_witness :
  exists partitions,
    PartitionTensor sample_uninitialized_key 2 sample_config
                    (sample_context "w" 0) (sample_entry "w" 5000000) []
      = Ret partitions /\
    Z.of_nat (length partitions) = ceil_div 5000000 (_partition_bytes sample_config) /\
    (forall (j : nat) e,
       partitions !! j = Some e ->
       Z.of_nat j < ceil_div 5000000 (_partition_bytes sample_config) - 1 ->
       len e = _partition_bytes sample_config) /\
    (forall e, last partitions = Some e ->
       len e = 5000000 - (ceil_div 5000000 (_partition_bytes sample_config) - 1)
                         * _partition_bytes sample_config) /\
    total_len partitions = 5000000.
Proof.
  apply (PartitionTensor_push_pull sample_uninitialized_key sample_config
           (sample_context "w" 0) (sample_entry "w" 5000000) 5000000 2).
  - reflexivity.
  - reflexivity.
  - lia.
  - simpl. lia.
  - vm_compute. lia.
  - left. reflexivity.
Defined.

Example PartitionTensor_sample_lens :
  match PartitionTensor sample_uninitialized_key 5 sample_config
          (sample_context "w" 0) (sample_entry "w" 5000000) [] with
  | Ret ps =>
      map len ps = [4096000; 904000] /\ map offset ps = [0; 4096000] /\
      map tensor_name ps = ["w_0"; "w_1"]
  | Fail _ => False
  end.
Proof. vm_compute. repeat split. Qed.

(** With one compressor for two partitions the second round reads
    [compressor_list[1]] past the end of the list. *)
Example PartitionTensor_short_compressor_list :
  PartitionTensor sample_uninitialized_key 5 sample_config
    (BPSContext.set_compressor_list (sample_context "w" 0) [7])
    (sample_entry "w" 5000000) []
  = Fail Undefined.
Proof. vm_compute. reflexivity. Qed.

(** ** Key lists *)

Lemma key_loop_spec (size bound : Z) (fuel : nat) :
  0 < bound -> size < 2 ^ 64 ->
  forall accumulated start_key key_list,
    0 <= accumulated <= size ->
    0 <= start_key < 2 ^ 64 ->
    (Z.to_nat (ceil_div (size - accumulated) bound) <= fuel)%nat ->
    exists new,
      key_loop fuel size bound accumulated start_key key_list
        = Ret (key_list ++ new) /\
      Z.of_nat (length new) = ceil_div (size - accumulated) bound /\
      (forall (j : nat) k, new !! j = Some k -> k = u64 (start_key + Z.of_nat j)).
Proof.
  intros HB Hsize.
  induction fuel as [|fuel IH]; intros accumulated start_key key_list Hacc Hk Hfuel.
  - assert (accumulated = size) as ->.
    { destruct (Z.eq_dec accumulated size); [done|].
      pose proof (ceil_div_pos (size - accumulated) bound). lia. }
    exists []. simpl. rewrite Z.ltb_irrefl, app_nil_r, Z.sub_diag.
    rewrite ceil_div_zero by lia. repeat split; intros; done.
  - simpl. destruct (Z.ltb_spec accumulated size) as [Hlt|Hge].
    + rewrite (u64_small (size - accumulated)) by lia.
      set (l := if size - accumulated >? bound then bound else size - accumulated).
      assert (l = Z.min bound (size - accumulated)) as Hl.
      { subst l. destruct (Z.gtb_spec (size - accumulated) bound); lia. }
      rewrite (u64_small (accumulated + l)) by lia.
      destruct (IH (accumulated + l) (u64 (start_key + 1)) (key_list ++ [start_key]))
        as (new & -> & Hcount & Hnth).
      { lia. }
      { apply u64_range. }
      { rewrite (ceil_div_step (size - accumulated)) in Hfuel by lia.
        destruct (Z.le_gt_cases (size - accumulated) bound).
        - replace (size - (accumulated + l)) with 0 by lia.
          rewrite ceil_div_zero by lia. lia.
        - replace (size - (accumulated + l)) with (size - accumulated - bound) by lia.
          pose proof (ceil_div_nonneg (size - accumulated - bound) bound). lia. }
      exists (start_key :: new). rewrite <- app_assoc. split; [done|]. split.
      * simpl length. rewrite Nat2Z.inj_succ, Hcount.
        destruct (Z.le_gt_cases (size - accumulated) bound).
        -- replace (size - (accumulated + l)) with 0 by lia.
           rewrite ceil_div_zero, ceil_div_small by lia. lia.
        -- rewrite (ceil_div_step (size - accumulated)) by lia.
           replace (size - (accumulated + l)) with (size - accumulated - bound) by lia.
           lia.
      * intros [|j] k Hj; simpl in Hj.
        -- inversion Hj; subst. rewrite Z.add_0_r. symmetry. by apply u64_small.
        -- rewrite (Hnth j k Hj). unfold u64.
           rewrite Zplus_mod_idemp_l. f_equal. lia.
    + assert (accumulated = size) as -> by lia.
      exists []. rewrite app_nil_r, Z.sub_diag, ceil_div_zero by lia.
      repeat split; intros; done.
Qed.



(** ** Declaration of tensors *)

Lemma next_free_key_fuel (used : gset Z) (fuel : nat) : forall next : Z,
  (size (filter (fun k => (next <= k)%Z) used) <= fuel)%nat ->
  next_free_key fuel used next <> Fail OutOfFuel.
Proof.
  induction fuel as [|fuel IH]; intros next Hsz; simpl.
  - destruct (next =? INT32_MAX); [done|].
    destruct (bool_decide_reflect (next ∈ used)) as [Hin|_]; [|done].
    assert (next ∈ filter (fun k => next <= k) used) as Hf
      by (apply elem_of_filter; split; [lia|done]).
    assert (size (filter (fun k => next <= k) used) = 0%nat) as Hz by lia.
    apply size_empty_inv in Hz. rewrite Hz in Hf. by apply not_elem_of_empty in Hf.
  - destruct (next =? INT32_MAX); [done|].
    destruct (bool_decide_reflect (next ∈ used)) as [Hin|_]; [|done].
    apply IH.
    assert (filter (fun k => next + 1 <= k) used
              ⊂ filter (fun k => next <= k) used) as Hsub.
    { split.
      - intros k [Hk ?]%elem_of_filter. apply elem_of_filter. split; [lia|done].
      - intros Hsup.
        assert (next ∈ filter (fun k => next + 1 <= k) used) as [Hk _]%elem_of_filter.
        { apply Hsup. apply elem_of_filter. split; [lia|done]. }
        lia. }
    apply subset_size in Hsub. lia.
Qed.

(** The key search of [DeclareTensor] always ends within its rounds. *)
Lemma DeclareTensor_terminates G name op_type provided_key session :
  DeclareTensor G name op_type provided_key session <> Fail OutOfFuel.
Proof.
  unfold DeclareTensor.
  destruct (_name_to_cxt G !! _); [done|].
  destruct (provided_key =? -1).
  - set (used := default ∅ (used_keys_ G !! op_type)).
    pose proof (next_free_key_fuel used (size used)
                  (default 0 (next_keys_ G !! op_type))) as Hf.
    destruct (next_free_key _ _ _) as [[k n]|f] eqn:E; simpl; [done|].
    intros [= ->]. apply Hf; [|done].
    apply subseteq_size. intros k [_ ?]%elem_of_filter. done.
  - destruct (negb _); simpl; done.
Qed.

(** What the tables hold under the other names is not touched by a
    declaration, and a name that is registered stays registered with its
    declared key. *)
Lemma DeclareTensor_keeps_declared G G' name op_type provided_key session k' n k :
  declared_key_of G n = Some k ->
  DeclareTensor G name op_type provided_key session = Ret (G', k') ->
  declared_key_of G' n = Some k.
Proof.
  intros Hn Hcall. unfold DeclareTensor in Hcall.
  destruct (_name_to_cxt G !! session_tensor_name name session) as [cxt|] eqn:Hlk.
  - by inversion Hcall; subst.
  - destruct (if provided_key =? -1 then _ else _) as [[pk nk]|f];
      simpl in Hcall; [|done].
    inversion Hcall; subst. unfold declared_key_of in *. simpl.
    destruct (decide (n = session_tensor_name name session)) as [->|Hne].
    + by rewrite Hlk in Hn.
    + by rewrite lookup_insert_ne.
Qed.

Lemma DeclareP2PTensor_keeps_declared G G' name sender receiver k' n k :
  declared_key_of G n = Some k ->
  DeclareP2PTensor G name sender receiver = Ret (G', k') ->
  declared_key_of G' n = Some k.
Proof.
  intros Hn Hcall. unfold DeclareP2PTensor in Hcall.
  destruct (_name_to_cxt G !! name) as [cxt|] eqn:Hlk.
  - by inversion Hcall; subst.
  - destruct (negb (sender =? receiver)); [|done].
    inversion Hcall; subst. unfold declared_key_of in *. simpl.
    destruct (decide (n = name)) as [->|Hne].
    + by rewrite Hlk in Hn.
    + by rewrite lookup_insert_ne.
Qed.

Lemma context_update_keeps_declared G name cxt cxt' n k :
  declared_key_of G n = Some k ->
  _name_to_cxt G !! name = Some cxt ->
  BPSContext.declared_key cxt' = BPSContext.declared_key cxt ->
  declared_key_of (set_name_to_cxt G (<[name := cxt']> (_name_to_cxt G))) n
  = Some k.
Proof.
  intros Hn Hlk Hkey. unfold declared_key_of in *. simpl.
  destruct (decide (n = name)) as [->|Hne].
  - rewrite lookup_insert_eq. rewrite Hlk in Hn. simpl in *. by rewrite Hkey.
  - by rewrite lookup_insert_ne.
Qed.

Lemma ReDeclareTensor_loop_keeps_declared names : forall G G' n k,
  declared_key_of G n = Some k ->
  ReDeclareTensor_loop G names = Ret G' ->
  declared_key_of G' n = Some k.
Proof.
  induction names as [|name names IH]; intros G G' n k Hn Hrun; simpl in Hrun.
  - by inversion Hrun; subst.
  - destruct (DeclareTensor G name PUSH_PULL_OP (-1) (-1)) as [[G1 k1]|] eqn:Hd;
      [|done].
    cbn [obind] in Hrun.
    eapply IH; [|exact Hrun].
    eapply DeclareTensor_keeps_declared; eauto.
Qed.

Lemma EncodeDefaultKey_name_table c fn coef mixed g G G' key len pskv :
  EncodeDefaultKey c fn coef mixed g G key len = Ret (G', pskv) ->
  _name_to_cxt G' = _name_to_cxt G.
Proof.
  intros Hcall. unfold EncodeDefaultKey, obind in Hcall.
  repeat case_match; simplify_eq; done.
Qed.

Lemma table_call_keeps_declared G G' n k :
  declared_key_of G n = Some k -> table_call G G' ->
  declared_key_of G' n = Some k.
Proof.
  intros Hn Hcall.
  destruct Hcall as [G G' name op_type provided_key session k' Hc
                    |G G' name sender receiver k' Hc
                    |G G' name kwargs Hc
                    |G G' Hc
                    |G G' c fn coef mixed g key len pskv Hc
                    |G g num_server
                    |G name cxt cxt' Hlk Hkey].
  - eapply DeclareTensor_keeps_declared; eauto.
  - eapply DeclareP2PTensor_keeps_declared; eauto.
  - unfold RegisterCompressor in Hc.
    destruct (_name_to_cxt G !! name) as [cxt|] eqn:Hlk; [|done].
    inversion Hc; subst.
    by apply (context_update_keeps_declared G name cxt).
  - eapply ReDeclareTensor_loop_keeps_declared; eauto.
  - unfold declared_key_of in *.
    by rewrite (EncodeDefaultKey_name_table _ _ _ _ _ _ _ _ _ _ Hc).
  - unfold Init. by destruct (_initialized G).
  - by apply (context_update_keeps_declared G name cxt).
Qed.

Lemma table_calls_keep_declared G G' n k :
  declared_key_of G n = Some k -> table_calls G G' ->
  declared_key_of G' n = Some k.
Proof.
  intros Hn Hcalls. induction Hcalls as [|G G' G'' Hc _ IH]; [done|].
  apply IH. by eapply table_call_keeps_declared.
Qed.

(** C3. Once a tensor is declared under a name (and session), every later
    [DeclareTensor] with that name, after any run of calls that write the
    tables ([Shutdown] apart), whatever operation type and key it
    provides, returns the same declared key and leaves all tables as they
    are: no context is created and no key is taken. *)
Theorem DeclareTensor_same_name (G G1 : BytePSGlobal) (name : string)
    (op_type : OperationType) (provided_key session k : Z) :
  DeclareTensor G name op_type provided_key session = Ret (G1, k) ->
  forall G2 op_type' provided_key',
    table_calls G1 G2 ->
    DeclareTensor G2 name op_type' provided_key' session = Ret (G2, k).
Proof.
  intros Hfirst G2 op_type' provided_key' Hcalls.
  assert (declared_key_of G1 (session_tensor_name name session) = Some k) as H1.
  { unfold DeclareTensor in Hfirst. unfold declared_key_of.
    destruct (_name_to_cxt G !! session_tensor_name name session)
      as [cxt|] eqn:Hlk.
    - inversion Hfirst; subst. by rewrite Hlk.
    - destruct (if provided_key =? -1 then _ else _) as [[pk nk]|f];
        simpl in Hfirst; [|done].
      inversion Hfirst; subst. simpl. by rewrite lookup_insert_eq. }
  pose proof (table_calls_keep_declared _ _ _ _ H1 Hcalls) as H2.
  unfold declared_key_of in H2. unfold DeclareTensor.
  destruct (_name_to_cxt G2 !! session_tensor_name name session) as [cxt|];
    [|done].
  simpl in H2. by inversion H2; subst.
Qed.

(** The theorem on a first declaration in a fresh process, with a second
    tensor declared and a key encoded in between. *)
Lemma DeclareTensor_same_name_witness :
  exists G1 G2 G3 pskv,
    DeclareTensor (initial_global 2) "grad" PUSH_PULL_OP (-1) (-1) = Ret (G1, 0) /\
    DeclareTensor G1 "bias" PUSH_PULL_OP (-1) (-1) = Ret (G2, 1) /\
    sample_EncodeDefaultKey sample_config G2 1024 4096 = Ret (G3, pskv) /\
    forall op_type' provided_key',
      DeclareTensor G3 "grad" op_type' provided_key' (-1) = Ret (G3, 0).
Proof.
  eexists _, _, _, _.
  split; [vm_compute; reflexivity|].
  split; [vm_compute; reflexivity|].
  split; [vm_compute; reflexivity|].
  intros op_type' provided_key'.
  eapply (DeclareTensor_same_name (initial_global 2) _ "grad" PUSH_PULL_OP
            (-1) (-1) 0).
  - vm_compute. reflexivity.
  - eapply table_calls_cons.
    + eapply (call_DeclareTensor _ _ "bias" PUSH_PULL_OP (-1) (-1) 1).
      vm_compute. reflexivity.
    + eapply table_calls_cons; [|apply table_calls_nil].
      eapply (call_EncodeDefaultKey _ _ sample_c_str sample_hash_fn 1
                sample_Hash_Mixed_Mode sample_config 1024 4096).
      vm_compute. reflexivity.
Defined.

Example DeclareTensor_keys_in_order :
  match DeclareTensor (initial_global 1) "a" PUSH_PULL_OP (-1) (-1) with
  | Ret (G1, ka) =>
      match DeclareTensor G1 "b" ALLTOALL_OP 7 1 with
      | Ret (G2, kb) =>
          match DeclareTensor G2 "c" PUSH_PULL_OP (-1) (-1) with
          | Ret (G3, kc) =>
              (ka, kb, kc) = (0, 7, 1) /\
              _declared_tensors G3 = ["a"; "session_1_b"; "c"]
          | Fail _ => False
          end
      | Fail _ => False
      end
  | Fail _ => False
  end.
Proof. vm_compute. split; reflexivity. Qed.

(** C2, on the code.  A tensor declared first in a fresh process gets key 0.
    [Shutdown] clears the contexts and the key counters but keeps
    [used_keys_] (and nothing on the way to [ReDeclareTensor] resets it), so
    the replay finds key 0 taken and assigns key 1: the key of before the
    shutdown is not reproduced. *)
Theorem ReDeclareTensor_after_Shutdown :
  match DeclareTensor (initial_global 1) "grad" PUSH_PULL_OP (-1) (-1) with
  | Ret (G1, k) =>
      k = 0 /\ declared_key_of G1 "grad" = Some 0 /\
      _declared_tensors (Shutdown G1) = ["grad"] /\
      match ReDeclareTensor (Shutdown G1) with
      | Ret G2 => declared_key_of G2 "grad" = Some 1
      | Fail _ => False
      end
  | Fail _ => False
  end.
Proof. vm_compute. repeat split. Qed.

(** ** Key encoding: the memo of [EncodeDefaultKey] *)

Section KeyEncoderFacts.
Context (dangling_c_str : Z -> string) (_built_in_hash_fn : string -> Z)
        (_built_in_hash_coefficient : Z) (Hash_Mixed_Mode : Z -> outcome Z).

Local Abbreviation Encode :=
  (EncodeDefaultKey dangling_c_str _built_in_hash_fn
     _built_in_hash_coefficient Hash_Mixed_Mode).

(** A memoized key is answered from the memo, whatever the length. *)
Lemma EncodeDefaultKey_hit g G K k0 len :
  memoized K k0 G ->
  exists G' pskv,
    Encode g G K len = Ret (G', pskv) /\
    head (PSKV.keys pskv) = Some k0 /\
    memoized K k0 G'.
Proof.
  intros (p & Hlk & Hhd & Hlens). unfold EncodeDefaultKey. rewrite Hlk. simpl.
  destruct (PSKV.keys p) as [|k ks] eqn:Hk; [done|].
  destruct (PSKV.lens p) as [|l ls] eqn:Hl; [done|].
  destruct (_ && _).
  - eexists _, _. split; [reflexivity|]. split; [done|].
    eexists. simpl. rewrite lookup_insert_eq. split; [done|]. by simpl.
  - eexists _, _. split; [reflexivity|]. rewrite Hk. split; [done|].
    exists p. rewrite Hk, Hl. done.
Qed.

(** No successful call removes or changes the first key of a memoized
    entry. *)
Lemma EncodeDefaultKey_keeps g G G' K K' k0 len pskv :
  memoized K k0 G ->
  Encode g G K' len = Ret (G', pskv) ->
  memoized K k0 G'.
Proof.
  intros Hm Hcall. destruct (decide (K' = K)) as [->|Hne].
  - destruct (EncodeDefaultKey_hit g G K k0 len Hm) as (G2 & p2 & Hc & _ & Hm2).
    rewrite Hcall in Hc. by inversion Hc; subst.
  - destruct Hm as (p & Hlk & Hhd & Hlens).
    assert (ps_kv_ G' !! K = ps_kv_ G !! K) as Hsame.
    { unfold EncodeDefaultKey, obind in Hcall.
      repeat case_match; simplify_eq; simpl;
        by rewrite ?lookup_insert_ne. }
    exists p. by rewrite Hsame.
Qed.

(** The first successful call leaves the key memoized. *)
Lemma EncodeDefaultKey_first g G G1 K len p1 :
  ps_kv_wf G ->
  Encode g G K len = Ret (G1, p1) ->
  exists k0, head (PSKV.keys p1) = Some k0 /\ memoized K k0 G1.
Proof.
  intros Hwf Hcall. unfold EncodeDefaultKey, obind in Hcall.
  destruct (ps_kv_ G !! K) as [p|] eqn:Hlk; simpl in Hcall.
  - destruct (PSKV.keys p) as [|k ks] eqn:Hk.
    + repeat case_match; simplify_eq. simpl.
      eexists. split; [reflexivity|].
      eexists. simpl. rewrite lookup_insert_eq. split; [done|].
      split; [done|]. by destruct (PSKV.lens p).
    + pose proof (Hwf K p Hlk) as Hl. rewrite Hk in Hl.
      specialize (Hl ltac:(done)).
      repeat case_match; simplify_eq; simpl.
      * exists k. split; [done|]. eexists. simpl.
        rewrite lookup_insert_eq. split; [done|]. by simpl.
      * exists k. rewrite Hk. split; [done|].
        eexists. split; [exact Hlk|]. by rewrite Hk.
  - repeat case_match; simplify_eq. simpl.
    eexists. split; [reflexivity|].
    eexists. simpl. rewrite lookup_insert_eq. done.
Qed.

Lemma EncodeDefaultKey_wf g G G' K len pskv :
  ps_kv_wf G -> Encode g G K len = Ret (G', pskv) -> ps_kv_wf G'.
Proof.
  intros Hwf Hcall key p Hlk Hkeys.
  destruct (decide (key = K)) as [->|Hne].
  - destruct (EncodeDefaultKey_first g G G' K len pskv Hwf Hcall)
      as (k0 & _ & p' & Hlk' & _ & Hl).
    rewrite Hlk in Hlk'. by inversion Hlk'; subst.
  - apply (Hwf key p); [|done].
    unfold EncodeDefaultKey, obind in Hcall.
    repeat case_match; simplify_eq; simpl in Hlk;
      by rewrite ?lookup_insert_ne in Hlk.
Qed.
End KeyEncoderFacts.

Lemma ps_kv_wf_initial n : ps_kv_wf (initial_global n).
Proof. intros key pskv Hlk. simpl in Hlk. by rewrite lookup_empty in Hlk. Qed.

Lemma encode_calls_keep G G' K k0 :
  memoized K k0 G -> encode_calls G G' -> memoized K k0 G'.
Proof.
  intros Hm Hcalls.
  induction Hcalls as [|G G' G'' c fn coef mixed g key len pskv Hc _ IH];
    [done|].
  apply IH. eapply EncodeDefaultKey_keeps; eauto.
Qed.

Lemma encode_calls_wf G G' :
  ps_kv_wf G -> encode_calls G G' -> ps_kv_wf G'.
Proof.
  intros Hwf Hcalls.
  induction Hcalls as [|G G' G'' c fn coef mixed g key len pskv Hc _ IH];
    [done|].
  apply IH. eapply EncodeDefaultKey_wf; eauto.
Qed.

Lemma encode_calls_trans G G' G'' :
  encode_calls G G' -> encode_calls G' G'' -> encode_calls G G''.
Proof.
  intros H1 H2. induction H1 as [|G G1 G2 c fn coef mixed g key len pskv Hc _ IH];
    [done|].
  eapply encode_calls_cons; [exact Hc|]. by apply IH.
Qed.

(** The declarations leave the memo alone. *)
Lemma DeclareTensor_ps_kv G G' name op_type provided_key session k :
  DeclareTensor G name op_type provided_key session = Ret (G', k) ->
  ps_kv_ G' = ps_kv_ G.
Proof.
  intros Hcall. unfold DeclareTensor, obind in Hcall.
  repeat case_match; simplify_eq; done.
Qed.

Lemma ReDeclareTensor_loop_ps_kv names : forall G G',
  ReDeclareTensor_loop G names = Ret G' -> ps_kv_ G' = ps_kv_ G.
Proof.
  induction names as [|name names IH]; intros G G' Hrun; simpl in Hrun.
  - by inversion Hrun; subst.
  - destruct (DeclareTensor G name PUSH_PULL_OP (-1) (-1)) as [[G1 k1]|] eqn:Hd;
      [|done].
    cbn [obind] in Hrun. rewrite (IH _ _ Hrun).
    by eapply DeclareTensor_ps_kv.
Qed.

Lemma table_call_keeps_memo G G' K k0 :
  memoized K k0 G -> table_call G G' -> memoized K k0 G'.
Proof.
  intros Hm Hcall.
  assert (ps_kv_ G' = ps_kv_ G -> memoized K k0 G') as Hsame.
  { intros Heq. destruct Hm as (p & Hlk & Hrest). exists p. by rewrite Heq. }
  destruct Hcall as [G G' name op_type provided_key session k' Hc
                    |G G' name sender receiver k' Hc
                    |G G' name kwargs Hc
                    |G G' Hc
                    |G G' c fn coef mixed g key len pskv Hc
                    |G g num_server
                    |G name cxt cxt' Hlk Hkey].
  - apply Hsame. by eapply DeclareTensor_ps_kv.
  - apply Hsame. unfold DeclareP2PTensor in Hc.
    repeat case_match; simplify_eq; done.
  - apply Hsame. unfold RegisterCompressor in Hc.
    repeat case_match; simplify_eq; done.
  - apply Hsame. by eapply ReDeclareTensor_loop_ps_kv.
  - eapply EncodeDefaultKey_keeps; eauto.
  - apply Hsame. unfold Init. by destruct (_initialized G).
  - by apply Hsame.
Qed.

Lemma table_calls_keep_memo G G' K k0 :
  memoized K k0 G -> table_calls G G' -> memoized K k0 G'.
Proof.
  intros Hm Hcalls. induction Hcalls as [|G G' G'' Hc _ IH]; [done|].
  apply IH. by eapply table_call_keeps_memo.
Qed.

(** C4 (amended). After a first successful [EncodeDefaultKey(K, len)],
    every later call for [K], after any run of calls that write the tables
    ([Shutdown] apart) on any keys and with any length, under any
    configuration and whatever the hash functions read, returns and gives
    the same [keys[0]] as the first. *)
Theorem EncodeDefaultKey_memoized c fn coef mixed g G G1 K len p1 :
  ps_kv_wf G ->
  EncodeDefaultKey c fn coef mixed g G K len = Ret (G1, p1) ->
  forall G2 c' fn' coef' mixed' g' len',
    table_calls G1 G2 ->
    exists G3 p3 k0,
      EncodeDefaultKey c' fn' coef' mixed' g' G2 K len' = Ret (G3, p3) /\
      head (PSKV.keys p1) = Some k0 /\
      head (PSKV.keys p3) = Some k0.
Proof.
  intros Hwf Hfirst G2 c' fn' coef' mixed' g' len' Hcalls.
  destruct (EncodeDefaultKey_first c fn coef mixed g G G1 K len p1 Hwf Hfirst)
    as (k0 & Hk0 & Hm).
  pose proof (table_calls_keep_memo G1 G2 K k0 Hm Hcalls) as Hm2.
  destruct (EncodeDefaultKey_hit c' fn' coef' mixed' g' G2 K k0 len' Hm2)
    as (G3 & p3 & Hc & Hhd & _).
  by exists G3, p3, k0.
Qed.

(** C4 as stated fails across a shutdown: [Shutdown] clears the memo, and
    after a resume with one server instead of two the routing key 197632,
    first sent to the second server, is assigned to the only one: the first
    encoded key changes from [2^63 + 197632] to [197632]. *)
Lemma EncodeDefaultKey_after_Shutdown_counterexample :
  exists G1 p1 G3 p3,
    sample_EncodeDefaultKey sample_config (initial_global 2) 197632 4096000
      = Ret (G1, p1) /\
    sample_EncodeDefaultKey sample_resumed_config
      (Init sample_resumed_config 1 (Shutdown G1)) 197632 4096000
      = Ret (G3, p3) /\
    head (PSKV.keys p1) = Some (2 ^ 63 + 197632) /\
    head (PSKV.keys p3) = Some 197632.
Proof.
  eexists _, _, _, _.
  split; [vm_compute; reflexivity|].
  split; [vm_compute; reflexivity|].
  split; reflexivity.
Qed.

(** ** [EnqueueTensor]: the compression stages *)




(** ** Shutdown guard of the enqueue functions *)

(** C10. With the shutdown flag set, [EnqueueTensor],
    [EnqueueAlltoAllTensor] and [EnqueueAllgatherTensor] return
    [Status::OK] at once: nothing is enqueued, the callback is not invoked,
    and the context, the stage list and the tables are untouched. *)
Theorem Enqueue_when_shutdown
    (Telemetry_RecordStart : string -> Z) (uninitialized_key : Z -> Z)
    (getDataTypeLength : Z -> Z)
    (ComposeAlltoallKey : Z -> Z -> Z) (GetAlltoallTensorId : Z -> Z)
    (alltoall_needed_size : Z -> Z) (PageAlignedMalloc : Z -> Z)
    (fuel : nat) (g : Config) (G : BytePSGlobal) (context : BPSContext.t)
    (name : string) (input output size_output : option Tensor)
    (group_inputs group_outputs_ : list Tensor)
    (device output_device_ priority version : Z)
    (queue_list : list QueueType) (send_begin recv_begin shape_list : list Z)
    (unknown : bool) :
  _should_shutdown G = true ->
  EnqueueTensor Telemetry_RecordStart uninitialized_key fuel g G context
                input output device priority version queue_list
    = Ret (Status_OK, context, queue_list, []) /\
  EnqueueAlltoAllTensor Telemetry_RecordStart getDataTypeLength
      ComposeAlltoallKey GetAlltoallTensorId alltoall_needed_size
      PageAlignedMalloc g G name input group_inputs output group_outputs_
      size_output device output_device_ priority version send_begin recv_begin
      unknown
    = Ret (Status_OK, G, []) /\
  EnqueueAllgatherTensor Telemetry_RecordStart g G context input output device
                         priority version shape_list
    = Ret (Status_OK, context, []).
Proof.
  intros Hdown.
  unfold EnqueueTensor, EnqueueAlltoAllTensor, EnqueueAllgatherTensor.
  rewrite Hdown. repeat split.
Qed.

(** ** All-to-all: counting the requests *)

Lemma begin_at_lookup (v : list Z) (i x : Z) :
  0 <= i -> v !! Z.to_nat i = Some x -> begin_at v i = x.
Proof.
  intros Hi Hx. unfold begin_at.
  destruct (Z.ltb_spec i 0); [lia|]. by rewrite Hx.
Qed.

Lemma slot_in_range (begin : list Z) (i : Z) :
  0 <= i -> (Z.to_nat (i + 1) < length begin)%nat ->
  slot begin i = begin_at begin (i + 1) - begin_at begin i.
Proof.
  intros Hi Hlen. unfold slot.
  assert (Z.to_nat i < length begin)%nat as Hlen' by lia.
  assert (0 <= i + 1) as Hi' by lia.
  destruct (lookup_lt_is_Some_2 begin (Z.to_nat i) Hlen') as [lo Hlo].
  destruct (lookup_lt_is_Some_2 begin (Z.to_nat (i + 1)) Hlen) as [hi Hhi].
  rewrite Hlo, Hhi.
  by rewrite (begin_at_lookup _ _ _ Hi Hlo), (begin_at_lookup _ _ _ Hi' Hhi).
Qed.

Lemma slot_size_fits (unit_size : Z) (begin : list Z) (i : Z) :
  0 <= i -> (Z.to_nat (i + 1) < length begin)%nat ->
  slot_fits unit_size begin i ->
  slot_size unit_size begin i = unit_size * slot begin i.
Proof.
  intros Hi Hlen [Hs Hp]. unfold slot_size.
  rewrite <- slot_in_range by done.
  rewrite (i32_small (slot begin i)) by done. by apply i32_small.
Qed.

Lemma slot_size_empty (unit_size : Z) (begin : list Z) (i : Z) :
  0 <= i -> (Z.to_nat (i + 1) < length begin)%nat ->
  slot begin i = 0 ->
  slot_size unit_size begin i = 0.
Proof.
  intros Hi Hlen Hz. unfold slot_size.
  rewrite <- slot_in_range, Hz by done.
  rewrite (i32_small 0) by lia. rewrite Z.mul_0_r. apply i32_small. lia.
Qed.

Section AlltoallCount.
Context (unit_size my_rank : Z) (request_begin resp_begin : list Z).

Local Abbreviation step unknown :=
  (alltoall_count_step unit_size my_rank request_begin resp_begin unknown).

(** With the output size unknown every other rank is counted. *)
Lemma count_requests_unknown (ranks : list Z) (a : AlltoallCount) :
  num_ps_requests (fold_left (step true) ranks a)
  = num_ps_requests a
    + Z.of_nat (length (filter (fun i => i <> my_rank) ranks)).
Proof.
  revert a. induction ranks as [|i ranks IH]; intros a; simpl.
  - lia.
  - rewrite IH. simpl. rewrite filter_cons.
    destruct (Z.eqb_spec i my_rank) as [->|Hne]; simpl.
    + destruct (decide (my_rank <> my_rank)); [done|]. lia.
    + destruct (decide (i <> my_rank)); [|done]. simpl length. lia.
Qed.

(** With the output size known a rank is counted when its request slot is
    not empty. *)
Lemma count_requests_known (ranks : list Z) (a : AlltoallCount) :
  0 < unit_size ->
  Forall (fun i => 0 <= i /\ (Z.to_nat (i + 1) < length request_begin)%nat /\
                   slot_fits unit_size request_begin i) ranks ->
  num_ps_requests (fold_left (step false) ranks a)
  = num_ps_requests a
    + Z.of_nat (length (filter (fun i => i <> my_rank /\ slot request_begin i <> 0)
                               ranks)).
Proof.
  intros Hunit Hall. revert a.
  induction Hall as [|i ranks (Hi & Hlen & Hfit) _ IH]; intros a; simpl.
  - lia.
  - rewrite IH. simpl. rewrite filter_cons.
    rewrite (slot_size_fits _ _ _ Hi Hlen Hfit).
    destruct (Z.eqb_spec i my_rank) as [->|Hne]; simpl.
    + destruct (decide _) as [[? _]|_]; [done|]. lia.
    + destruct (Z.eqb_spec (unit_size * slot request_begin i) 0) as [Hz|Hnz]; simpl.
      * destruct (decide _) as [[_ Hs]|_]; [|lia]. nia.
      * destruct (decide _) as [_|Hn]; [simpl length; lia|].
        destruct Hn. split; [done|]. nia.
Qed.

(** Empty request slots of the other ranks give no request. *)
Lemma count_requests_empty (ranks : list Z) (a : AlltoallCount) :
  Forall (fun i => i <> my_rank -> slot_size unit_size request_begin i = 0) ranks ->
  num_ps_requests (fold_left (step false) ranks a) = num_ps_requests a.
Proof.
  intros Hall. revert a.
  induction Hall as [|i ranks Hi _ IH]; intros a; simpl; [done|].
  rewrite IH. simpl.
  destruct (Z.eqb_spec i my_rank) as [->|Hne]; simpl; [done|].
  by rewrite (Hi Hne).
Qed.

(** Empty response slots give no response task. *)
Lemma count_responses_empty (ranks : list Z) (a : AlltoallCount) :
  Forall (fun i => slot_size unit_size resp_begin i = 0) ranks ->
  resp_total_partnum (fold_left (step false) ranks a) = resp_total_partnum a.
Proof.
  intros Hall. revert a.
  induction Hall as [|i ranks Hi _ IH]; intros a; simpl; [done|].
  rewrite IH. simpl. by rewrite Hi.
Qed.

Lemma count_responses_nonneg unknown (ranks : list Z) (a : AlltoallCount) :
  resp_total_partnum a
  <= resp_total_partnum (fold_left (step unknown) ranks a).
Proof.
  revert a. induction ranks as [|i ranks IH]; intros a; simpl; [lia|].
  etrans; [|apply IH]. simpl. destruct (_ && _); lia.
Qed.
End AlltoallCount.

(** ** All-to-all: what a returning call has done *)

Lemma quiet_not_request ev : quiet ev -> is_request_task ev = false.
Proof. intros [Ht _]. by destruct ev as [[] ?| | | |]. Qed.

Section AlltoallReturn.
Context (Telemetry_RecordStart : string -> Z) (getDataTypeLength : Z -> Z)
        (ComposeAlltoallKey : Z -> Z -> Z) (GetAlltoallTensorId : Z -> Z)
        (alltoall_needed_size : Z -> Z) (PageAlignedMalloc : Z -> Z).

Lemma alltoall_send_buffs_quiet g keys bounds ranks buffs evs :
  alltoall_send_buffs PageAlignedMalloc g keys bounds ranks = Ret (buffs, evs) ->
  Forall quiet evs.
Proof.
  revert buffs evs. induction ranks as [|i ranks IH]; intros buffs evs Hrun;
    simpl in Hrun.
  - inversion Hrun; subst. constructor.
  - unfold obind in Hrun. repeat case_match; simplify_eq.
    all: simpl; repeat (apply Forall_cons; split; [by split|]).
    all: eapply IH; eauto.
Qed.

Lemma InitTensorAlltoall_quiet g context request_sizes resp_sizes use_pull
    context' evs :
  InitTensorAlltoall ComposeAlltoallKey alltoall_needed_size PageAlignedMalloc
    g context request_sizes resp_sizes use_pull = Ret (context', evs) ->
  Forall quiet evs.
Proof.
  unfold InitTensorAlltoall, obind. intros Hrun.
  repeat case_match; simplify_eq; try constructor.
  all: eapply alltoall_send_buffs_quiet; eauto.
Qed.

Lemma alltoall_responses_events g base_resp_task name q unit_size
    request_begin resp_begin use_pull grouped ranks evs :
  alltoall_responses g base_resp_task name q unit_size request_begin resp_begin
    use_pull grouped ranks = Ret evs ->
  Forall (fun ev => is_Callback ev = false /\
                    (is_request_task ev = true -> q = SEND \/ q = P2P_PULL)) evs.
Proof.
  revert evs. induction ranks as [|i ranks IH]; intros evs Hrun; simpl in Hrun.
  - inversion Hrun; subst. constructor.
  - unfold obind in Hrun. repeat case_match; simplify_eq; eauto.
    all: apply Forall_cons; split;
      [split; [done|]; destruct q; simpl; intros; auto; done|].
    all: simpl; repeat (apply Forall_cons; split; [by split|]); eauto.
Qed.
End AlltoallReturn.

Section AlltoallClaims.
Context (Telemetry_RecordStart : string -> Z) (getDataTypeLength : Z -> Z)
        (ComposeAlltoallKey : Z -> Z -> Z) (GetAlltoallTensorId : Z -> Z)
        (alltoall_needed_size : Z -> Z) (PageAlignedMalloc : Z -> Z).

Local Abbreviation Enqueue :=
  (EnqueueAlltoAllTensor Telemetry_RecordStart getDataTypeLength
     ComposeAlltoallKey GetAlltoallTensorId alltoall_needed_size
     PageAlignedMalloc).

Lemma response_queue_not_request g use_pull unknown q :
  vec_at (GetAlltoallResponseQueueList g use_pull unknown) 0 = Ret q ->
  q <> SEND /\ q <> P2P_PULL.
Proof.
  unfold GetAlltoallResponseQueueList.
  destruct use_pull, (_p2p_ack_disabled g), unknown; simpl;
    intros [= <-]; by split.
Qed.

(** The shape of every returning call that was not cut short by the
    shutdown flag. *)
Lemma EnqueueAlltoAllTensor_returns g G name input group_inputs output
    group_outputs_ size_output input_device output_device_ priority version
    send_begin recv_begin unknown st G' evs :
  _should_shutdown G = false ->
  Enqueue g G name input group_inputs output group_outputs_ size_output
          input_device output_device_ priority version send_begin recv_begin
          unknown = Ret (st, G', evs) ->
  let use_pull := _alltoall_use_pull g && negb unknown in
  let request_begin := if use_pull then recv_begin else send_begin in
  let resp_begin := if use_pull then send_begin else recv_begin in
  let num_ranks := u64 (Z.of_nat (length send_begin) - 1) in
  exists dtype ctx init_evs request_evs response_evs,
    alltoall_dtype input group_inputs = Ret dtype /\
    let c := alltoall_count (getDataTypeLength dtype) (_rank g) request_begin
               resp_begin unknown (Z.to_nat (i32 num_ranks)) in
    st = Status_OK /\
    evs = init_evs ++ request_evs ++ response_evs /\
    Forall quiet init_evs /\
    (request_total_partnum_of unknown c = 0 /\ request_evs = [] \/
     request_total_partnum_of unknown c <> 0 /\
     exists q, (q = SEND \/ q = P2P_PULL) /\
       request_evs =
         [AddTask q (P2PTask (rename_task
            (alltoall_request_task name ctx input output group_inputs
               group_outputs_ input_device output_device_ priority version
               unknown (GetAlltoallRequestQueueList use_pull)
               (Z.to_nat num_ranks) (total_partnum_of unknown c) c)
            (name +:+ "_request")))]) /\
    (total_partnum_of unknown c = 0 /\ response_evs = [Callback Status_OK] \/
     total_partnum_of unknown c <> 0 /\
     Forall (fun ev => is_Callback ev = false /\ is_request_task ev = false)
            response_evs).
Proof.
  intros Hdown Hrun use_pull request_begin resp_begin num_ranks.
  unfold EnqueueAlltoAllTensor in Hrun. rewrite Hdown in Hrun.
  destruct (_is_joint g); [|done].
  destruct (alltoall_dtype input group_inputs) as [dtype|] eqn:Hdt; [|done].
  simpl in Hrun.
  destruct (_name_to_cxt G !! name) as [ctx0|]; [|done].
  fold use_pull request_begin resp_begin num_ranks in Hrun.
  set (c := alltoall_count (getDataTypeLength dtype) (_rank g) request_begin
              resp_begin unknown (Z.to_nat (i32 num_ranks))) in *.
  destruct (InitTensorAlltoall _ _ _ _ _ _ _ _) as [[ctx init_evs]|] eqn:Hinit;
    [|done].
  simpl in Hrun.
  repeat match type of Hrun with
         | (check ?b; _)%outcome = _ => destruct b; [|done]
         end.
  exists dtype, ctx, init_evs.
  pose proof (InitTensorAlltoall_quiet _ _ _ _ _ _ _ _ _ _ Hinit) as Hquiet.
  destruct (Z.eqb_spec (request_total_partnum_of unknown c) 0) as [Hreq|Hreq];
    simpl in Hrun.
  - destruct (Z.eqb_spec (total_partnum_of unknown c) 0) as [Htot|Htot];
      simpl in Hrun.
    + inversion Hrun; subst. exists [], [Callback Status_OK].
      repeat split; auto.
    + destruct (resp_total_partnum c =? 0); simpl in Hrun.
      * inversion Hrun; subst. exists [], []. repeat split; auto.
      * unfold obind in Hrun.
        destruct (vec_idx (BPSContext.key_list ctx) 0) as [k0|]; [|done].
        destruct (vec_at (GetAlltoallResponseQueueList g use_pull unknown) 0)
          as [q|] eqn:Hq; [|done].
        apply response_queue_not_request in Hq as [Hq1 Hq2].
        destruct unknown.
        -- destruct (vec_at _ 0) as [k|]; [|done].
           inversion Hrun; subst. eexists [], _.
           repeat split; auto. right. split; [done|].
           repeat (apply Forall_cons; split); try done.
           all: try (split; [done|]; by destruct q).
        -- destruct (alltoall_responses _ _ _ _ _ _ _ _ _ _) as [revs|] eqn:Hr;
             [|done].
           inversion Hrun; subst. eexists [], _.
           repeat split; auto. right. split; [done|].
           apply Forall_cons. split; [done|].
           apply alltoall_responses_events in Hr.
           eapply Forall_impl; [exact Hr|]. simpl. intros ev [Hc Hrq].
           split; [done|]. destruct (is_request_task ev); [|done].
           destruct (Hrq eq_refl); done.
  - assert (total_partnum_of unknown c <> 0) as Htot.
    { unfold total_partnum_of.
      pose proof (count_responses_nonneg (getDataTypeLength dtype) (_rank g)
                    request_begin resp_begin unknown
                    (Z.of_nat <$> seq 0 (Z.to_nat (i32 num_ranks)))
                    (mkCount 0 (if unknown then 1 else 0) [] [] [0] [0])) as Hnn.
      fold (alltoall_count (getDataTypeLength dtype) (_rank g) request_begin
              resp_begin unknown (Z.to_nat (i32 num_ranks))) in Hnn.
      fold c in Hnn. simpl in Hnn.
      unfold request_total_partnum_of in *.
      destruct (negb unknown && (num_ps_requests c =? 0)); [done|].
      destruct unknown; lia. }
    destruct (Z.eqb_spec (total_partnum_of unknown c) 0) as [|_]; [done|].
    simpl in Hrun.
    assert (exists q, (q = SEND \/ q = P2P_PULL) /\
              (if use_pull then P2P_PULL else SEND) = q) as (q0 & Hq0 & Hq0')
      by (destruct use_pull; eauto).
    rewrite Hq0' in Hrun.
    destruct (resp_total_partnum c =? 0); simpl in Hrun.
    + inversion Hrun; subst st G' evs. eexists [_], [].
      split; [done|]; cbv zeta; fold c; split_and!; try done.
      * right. split; [done|]. exists q0. by split.
      * right. by split.
    + unfold obind in Hrun.
      destruct (vec_idx (BPSContext.key_list ctx) 0) as [k0|]; [|done].
      destruct (vec_at (GetAlltoallResponseQueueList g use_pull unknown) 0)
        as [q|] eqn:Hq; [|done].
      apply response_queue_not_request in Hq as [Hq1 Hq2].
      destruct unknown.
      * destruct (vec_at _ 0) as [k|]; [|done].
        inversion Hrun; subst st G' evs. eexists [_], _.
        split; [done|]; cbv zeta; fold c; split_and!; try done.
        -- right. split; [done|]. exists q0. by split.
        -- right. split; [done|].
           repeat (apply Forall_cons; split); try done.
           all: try (split; [done|]; by destruct q).
      * destruct (alltoall_responses _ _ _ _ _ _ _ _ _ _) as [revs|] eqn:Hr;
          [|done].
        inversion Hrun; subst st G' evs. eexists [_], _.
        split; [done|]; cbv zeta; fold c; split_and!; try done.
        -- right. split; [done|]. exists q0. by split.
        -- right. split; [done|].
           apply Forall_cons. split; [done|].
           apply alltoall_responses_events in Hr.
           eapply Forall_impl; [exact Hr|]. simpl. intros ev [Hc Hrq'].
           split; [done|]. destruct (is_request_task ev); [|done].
           destruct (Hrq' eq_refl); done.
Qed.
Lemma quiet_no_task (evs : list event) :
  Forall quiet evs ->
  List.filter is_AddTask evs = [] /\ List.filter is_Callback evs = [] /\
  Forall (fun ev => is_request_task ev = false) evs.
Proof.
  induction 1 as [|ev evs [Ht Hc] Hq (IH1 & IH2 & IH3)]; [done|].
  simpl. rewrite Ht, Hc. split_and!; try done.
  apply Forall_cons. split; [|done]. by apply quiet_not_request.
Qed.

Lemma num_ranks_of_length (begin : list Z) (n : nat) :
  length begin = S n -> Z.of_nat n < 2 ^ 31 ->
  u64 (Z.of_nat (length begin) - 1) = Z.of_nat n /\
  Z.to_nat (i32 (u64 (Z.of_nat (length begin) - 1))) = n.
Proof.
  intros -> Hn.
  replace (Z.of_nat (S n) - 1) with (Z.of_nat n) by lia.
  rewrite u64_small by lia. split; [done|].
  rewrite i32_small by lia. lia.
Qed.

(** C7 (amended).  With the output size known, [num_ps_requests] is the
    number of ranks other than this one whose request slot is not empty;
    with the output size unknown it is the number of all ranks other than
    this one.  The request task that a returning call enqueues carries a
    request counter created with exactly this value. *)
Theorem EnqueueAlltoAllTensor_num_ps_requests g G name input group_inputs
    output group_outputs_ size_output input_device output_device_ priority
    version send_begin recv_begin unknown (n : nat) dtype st G' evs :
  _should_shutdown G = false ->
  length send_begin = S n -> length recv_begin = S n ->
  Z.of_nat n < 2 ^ 31 ->
  alltoall_dtype input group_inputs = Ret dtype ->
  0 < getDataTypeLength dtype ->
  let use_pull := _alltoall_use_pull g && negb unknown in
  let request_begin := if use_pull then recv_begin else send_begin in
  let resp_begin := if use_pull then send_begin else recv_begin in
  (unknown = false ->
   forall i, 0 <= i < Z.of_nat n ->
             slot_fits (getDataTypeLength dtype) request_begin i) ->
  Enqueue g G name input group_inputs output group_outputs_ size_output
          input_device output_device_ priority version send_begin recv_begin
          unknown = Ret (st, G', evs) ->
  let expected :=
    if unknown then Z.of_nat (length (nonself_ranks (_rank g) n))
    else Z.of_nat (length (nonempty_nonself_slots (_rank g) request_begin n)) in
  num_ps_requests
    (alltoall_count (getDataTypeLength dtype) (_rank g) request_begin
       resp_begin unknown n) = expected /\
  forall q t,
    AddTask q (P2PTask t) ∈ evs -> q = SEND \/ q = P2P_PULL ->
    request_counter t = Some expected.
Proof.
  intros Hdown Hls Hlr Hn Hdt Hunit use_pull request_begin resp_begin Hfit
         Hrun expected.
  assert (length request_begin = S n) as Hlen
    by (subst request_begin; by destruct use_pull).
  assert (num_ps_requests
            (alltoall_count (getDataTypeLength dtype) (_rank g) request_begin
               resp_begin unknown n) = expected) as Hcount.
  { unfold alltoall_count, expected. destruct unknown.
    - by rewrite count_requests_unknown.
    - rewrite count_requests_known; [done|done|].
      apply Forall_forall. intros i (k & -> & Hk%elem_of_seq)%list_elem_of_fmap.
      split; [lia|]. split; [lia|]. apply Hfit; [done|lia]. }
  split; [done|].
  intros q t Hin Hq.
  destruct (EnqueueAlltoAllTensor_returns _ _ _ _ _ _ _ _ _ _ _ _ _ _ _ _ _ _
              Hdown Hrun)
    as (dtype' & ctx & init_evs & request_evs & response_evs & Hdt' & Hrest).
  rewrite Hdt in Hdt'. inversion Hdt'; subst dtype'. clear Hdt'.
  destruct (num_ranks_of_length send_begin n Hls Hn) as [Hnr Hnn].
  cbv zeta in Hrest. rewrite Hnn, Hnr in Hrest.
  fold use_pull request_begin resp_begin in Hrest.
  destruct Hrest as (_ & -> & Hinit & Hreq & Hresp).
  apply elem_of_app in Hin as [Hin|Hin].
  { rewrite Forall_forall in Hinit. by destruct (Hinit _ Hin) as [? _]. }
  apply elem_of_app in Hin as [Hin|Hin].
  - destruct Hreq as [[_ ->]|(_ & q' & _ & ->)].
    + by apply elem_of_nil in Hin.
    + apply list_elem_of_singleton in Hin. inversion Hin; subst.
      simpl. by rewrite Hcount.
  - assert (is_request_task (AddTask q (P2PTask t)) = false) as Hnot.
    { destruct Hresp as [[_ ->]|[_ Hall]].
      - apply list_elem_of_singleton in Hin. done.
      - rewrite Forall_forall in Hall. by destruct (Hall _ Hin). }
    destruct Hq as [-> | ->]; done.
Qed.

(** C8 (amended).  With the output size known and every send and receive
    slot of the other ranks empty, a returning call puts no task on a
    request queue; if the slots of this rank are empty as well,
    [total_partnum] is 0, no task is enqueued at all, and the callback is
    invoked exactly once, with [Status::OK]. *)
Theorem EnqueueAlltoAllTensor_nothing_to_send g G name input group_inputs
    output group_outputs_ size_output input_device output_device_ priority
    version send_begin recv_begin (n : nat) dtype st G' evs :
  _should_shutdown G = false ->
  length send_begin = S n -> length recv_begin = S n ->
  Z.of_nat n < 2 ^ 31 ->
  alltoall_dtype input group_inputs = Ret dtype ->
  (forall i, 0 <= i < Z.of_nat n -> i <> _rank g ->
             slot send_begin i = 0 /\ slot recv_begin i = 0) ->
  Enqueue g G name input group_inputs output group_outputs_ size_output
          input_device output_device_ priority version send_begin recv_begin
          false = Ret (st, G', evs) ->
  let use_pull := _alltoall_use_pull g && negb false in
  let request_begin := if use_pull then recv_begin else send_begin in
  let resp_begin := if use_pull then send_begin else recv_begin in
  let c := alltoall_count (getDataTypeLength dtype) (_rank g) request_begin
             resp_begin false n in
  st = Status_OK /\
  num_ps_requests c = 0 /\
  Forall (fun ev => is_request_task ev = false) evs /\
  (slot send_begin (_rank g) = 0 /\ slot recv_begin (_rank g) = 0 ->
   total_partnum_of false c = 0 /\
   List.filter is_AddTask evs = [] /\
   List.filter is_Callback evs = [Callback Status_OK]).
Proof.
  intros Hdown Hls Hlr Hn Hdt Hzero Hrun use_pull request_begin resp_begin c.
  assert (length request_begin = S n /\ length resp_begin = S n) as [Hlq Hlp]
    by (subst request_begin resp_begin; by destruct use_pull).
  assert (forall i, 0 <= i < Z.of_nat n -> i <> _rank g ->
            slot request_begin i = 0 /\ slot resp_begin i = 0) as Hzero'.
  { intros i Hi Hne. destruct (Hzero i Hi Hne).
    subst request_begin resp_begin. by destruct use_pull. }
  assert (num_ps_requests c = 0) as Hreq0.
  { unfold c, alltoall_count. rewrite count_requests_empty; [done|].
    apply Forall_forall. intros i (k & -> & Hk%elem_of_seq)%list_elem_of_fmap Hne.
    apply slot_size_empty; [lia|lia|]. apply Hzero'; [lia|done]. }
  destruct (EnqueueAlltoAllTensor_returns _ _ _ _ _ _ _ _ _ _ _ _ _ _ _ _ _ _
              Hdown Hrun)
    as (dtype' & ctx & init_evs & request_evs & response_evs & Hdt' & Hrest).
  rewrite Hdt in Hdt'. inversion Hdt'; subst dtype'. clear Hdt'.
  destruct (num_ranks_of_length send_begin n Hls Hn) as [Hnr Hnn].
  cbv zeta in Hrest. rewrite Hnn, Hnr in Hrest.
  fold use_pull request_begin resp_begin in Hrest. fold c in Hrest.
  destruct Hrest as (-> & -> & Hinit & Hreq & Hresp).
  destruct (quiet_no_task _ Hinit) as (Hi1 & Hi2 & Hi3).
  assert (request_evs = []) as ->.
  { destruct Hreq as [[_ ->]|[Hne _]]; [done|].
    destruct Hne. unfold request_total_partnum_of. by rewrite Hreq0. }
  split; [done|]. split; [done|]. split.
  - rewrite Forall_app. split; [done|]. simpl.
    destruct Hresp as [[_ ->]|[_ Hall]].
    + by repeat constructor.
    + eapply Forall_impl; [exact Hall|]. by intros ev [_ ?].
  - intros [Hs Hr].
    assert (total_partnum_of false c = 0) as Htot.
    { unfold total_partnum_of, request_total_partnum_of. rewrite Hreq0. simpl.
      unfold c, alltoall_count. rewrite count_responses_empty; [done|].
      apply Forall_forall.
      intros i (k & -> & Hk%elem_of_seq)%list_elem_of_fmap.
      apply slot_size_empty; [lia|lia|].
      destruct (Z.eq_dec (Z.of_nat k) (_rank g)) as [Heq|Hne].
      - rewrite Heq. subst resp_begin. by destruct use_pull.
      - apply Hzero'; [lia|done]. }
    split; [done|].
    destruct Hresp as [[_ ->]|[Hne _]]; [|done].
    simpl. rewrite !List.filter_app, Hi1, Hi2. done.
Qed.
End AlltoallClaims.

(** ** Sample runs *)

Example sample_EnqueueAlltoAll_known :
  match sample_EnqueueAlltoAll [0; 5; 30] [0; 5; 12] false with
  | Ret (st, _, evs) =>
      st = Status_OK /\ request_counters evs = [Some 1] /\
      length (List.filter is_AddTask evs) = 3%nat /\
      List.filter is_Callback evs = []
  | Fail _ => False
  end.
Proof. vm_compute. repeat split. Qed.

(** C7 as stated fails when the output size is unknown: with two ranks and
    every slot empty, the request task is still created with a request
    counter of 1, the other rank, while no slot of another rank is
    non-empty. *)
Lemma num_ps_requests_unknown_counterexample :
  match sample_EnqueueAlltoAll [0; 0; 0] [0; 0; 0] true with
  | Ret (_, _, evs) => request_counters evs = [Some 1]
  | Fail _ => False
  end /\
  num_ps_requests
    (alltoall_count 4 (_rank sample_config) [0; 0; 0] [0; 0; 0] true 2) = 1 /\
  nonempty_nonself_slots (_rank sample_config) [0; 0; 0] 2 = [].
Proof. vm_compute. repeat split. Qed.

(** C8 as stated fails when the output size is unknown: with every slot
    empty a request task is enqueued, a response task too, and the callback
    is not invoked by the call. *)
Lemma nothing_to_send_unknown_counterexample :
  match sample_EnqueueAlltoAll [0; 0; 0] [0; 0; 0] true with
  | Ret (_, _, evs) =>
      length (List.filter is_request_task evs) = 1%nat /\
      length (List.filter is_AddTask evs) = 2%nat /\
      List.filter is_Callback evs = []
  | Fail _ => False
  end /\
  (forall i, 0 <= i < 2 -> slot [0; 0; 0] i = 0) /\
  total_partnum_of true
    (alltoall_count 4 (_rank sample_config) [0; 0; 0] [0; 0; 0] true 2) = 2.
Proof.
  split; [vm_compute; repeat split|]. split; [|vm_compute; reflexivity].
  intros i Hi. assert (i = 0 \/ i = 1) as [-> | ->] by lia; reflexivity.
Qed.

(** The theorem on two ranks with known sizes: rank 0 sends 5 elements to
    itself and 25 to rank 1. *)
Lemma EnqueueAlltoAllTensor_num_ps_requests_witness :
  exists st G' evs,
    sample_EnqueueAlltoAll [0; 5; 30] [0; 5; 12] false = Ret (st, G', evs) /\
    num_ps_requests
      (alltoall_count (sample_getDataTypeLength 0) (_rank sample_config)
         [0; 5; 30] [0; 5; 12] false 2)
    = Z.of_nat (length (nonempty_nonself_slots (_rank sample_config) [0; 5; 30] 2)) /\
    forall q t,
      AddTask q (P2PTask t) ∈ evs -> q = SEND \/ q = P2P_PULL ->
      request_counter t
      = Some (Z.of_nat (length (nonempty_nonself_slots (_rank sample_config)
                                  [0; 5; 30] 2))).
Proof.
  eexists _, _, _. split; [vm_compute; reflexivity|].
  eapply (EnqueueAlltoAllTensor_num_ps_requests sample_RecordStart
           sample_getDataTypeLength sample_ComposeAlltoallKey
           sample_GetAlltoallTensorId sample_needed_size
           sample_PageAlignedMalloc sample_config sample_alltoall_global
           "session_0_a2a" (Some (sample_tensor 120)) []
           (Some (sample_tensor 48)) [] None CPU_DEVICE_ID CPU_DEVICE_ID 0 0
           [0; 5; 30] [0; 5; 12] false 2 0).
  - reflexivity.
  - reflexivity.
  - reflexivity.
  - simpl. lia.
  - reflexivity.
  - vm_compute. reflexivity.
  - intros _ i Hi.
    assert (i = 0 \/ i = 1) as [-> | ->] by lia; vm_compute;
      repeat split; congruence.
  - vm_compute. reflexivity.
Defined.

(** The theorem on two ranks with known sizes and every slot empty. *)
Lemma EnqueueAlltoAllTensor_nothing_to_send_witness :
  exists st G' evs,
    sample_EnqueueAlltoAll [0; 0; 0] [0; 0; 0] false = Ret (st, G', evs) /\
    st = Status_OK /\
    num_ps_requests
      (alltoall_count (sample_getDataTypeLength 0) (_rank sample_config)
         [0; 0; 0] [0; 0; 0] false 2) = 0 /\
    Forall (fun ev => is_request_task ev = false) evs /\
    total_partnum_of false
      (alltoall_count (sample_getDataTypeLength 0) (_rank sample_config)
         [0; 0; 0] [0; 0; 0] false 2) = 0 /\
    List.filter is_AddTask evs = [] /\
    List.filter is_Callback evs = [Callback Status_OK].
Proof.
  eexists _, _, _. split; [vm_compute; reflexivity|].
  edestruct (EnqueueAlltoAllTensor_nothing_to_send sample_RecordStart
               sample_getDataTypeLength sample_ComposeAlltoallKey
               sample_GetAlltoallTensorId sample_needed_size
               sample_PageAlignedMalloc sample_config sample_alltoall_global
               "session_0_a2a" (Some (sample_tensor 120)) []
               (Some (sample_tensor 48)) [] None CPU_DEVICE_ID CPU_DEVICE_ID
               0 0 [0; 0; 0] [0; 0; 0] 2 0)
    as (Hst & Hreq & Hnone & Hself).
  - reflexivity.
  - reflexivity.
  - reflexivity.
  - simpl. lia.
  - reflexivity.
  - intros i Hi _.
    assert (i = 0 \/ i = 1) as [-> | ->] by lia; split; reflexivity.
  - vm_compute. reflexivity.
  - split; [exact Hst|]. split; [exact Hreq|]. split; [exact Hnone|].
    apply Hself. split; reflexivity.
Defined.

(** The theorem in a process that is shutting down. *)
Lemma Enqueue_when_shutdown_witness :
  EnqueueTensor sample_RecordStart sample_uninitialized_key 2 sample_config
    sample_shutdown_global (sample_context "w" 0) (Some (sample_tensor 5000000))
    (Some (sample_tensor 5000000)) 0 0 0
    [REDUCE; COPYD2H; PUSH; PULL; COPYH2D; BROADCAST]
    = Ret (Status_OK, sample_context "w" 0,
           [REDUCE; COPYD2H; PUSH; PULL; COPYH2D; BROADCAST], []) /\
  EnqueueAlltoAllTensor sample_RecordStart sample_getDataTypeLength
    sample_ComposeAlltoallKey sample_GetAlltoallTensorId sample_needed_size
    sample_PageAlignedMalloc sample_config sample_shutdown_global "w"
    (Some (sample_tensor 5000000)) [] (Some (sample_tensor 5000000)) [] None
    0 0 0 0 [0; 5; 30] [0; 5; 12] false
    = Ret (Status_OK, sample_shutdown_global, []) /\
  EnqueueAllgatherTensor sample_RecordStart sample_config
    sample_shutdown_global (sample_context "w" 0)
    (Some (sample_tensor 5000000)) (Some (sample_tensor 5000000)) 0 0 0 []
    = Ret (Status_OK, sample_context "w" 0, []).
Proof.
  apply (Enqueue_when_shutdown sample_RecordStart sample_uninitialized_key
           sample_getDataTypeLength sample_ComposeAlltoallKey sample_GetAlltoallTensorId
           sample_needed_size sample_PageAlignedMalloc 2 sample_config
           sample_shutdown_global (sample_context "w" 0) "w"
           (Some (sample_tensor 5000000)) (Some (sample_tensor 5000000)) None
           [] [] 0 0 0 0 [REDUCE; COPYD2H; PUSH; PULL; COPYH2D; BROADCAST]
           [0; 5; 30] [0; 5; 12] [] false).
  reflexivity.
Defined.


Example add_compress_stages_sample :
  add_compress_stages sample_config
    (BPSContext.set_compressor_list (sample_context "w" 0) [0; 1])
    [REDUCE; COPYD2H; PUSH; PULL; COPYH2D; BROADCAST]
  = Ret [REDUCE; COPYD2H; COMPRESS; PUSH; PULL; DECOMPRESS; COPYH2D; BROADCAST].
Proof. reflexivity. Qed.

(** The theorem on a first key in a fresh process with two servers. *)
Lemma EncodeDefaultKey_memoized_witness :
  exists G1 p1,
    sample_EncodeDefaultKey sample_config (initial_global 2) 197632 4096000
      = Ret (G1, p1) /\
    forall G2 c' fn' coef' mixed' g' len',
      table_calls G1 G2 ->
      exists G3 p3 k0,
        EncodeDefaultKey c' fn' coef' mixed' g' G2 197632 len' = Ret (G3, p3) /\
        head (PSKV.keys p1) = Some k0 /\
        head (PSKV.keys p3) = Some k0.
Proof.
  eexists _, _. split; [vm_compute; reflexivity|].
  apply (EncodeDefaultKey_memoized sample_c_str sample_hash_fn 1
           sample_Hash_Mixed_Mode sample_config (initial_global 2) _ 197632
           4096000).
  - apply ps_kv_wf_initial.
  - vm_compute. reflexivity.
Defined.

Example Hash_DJB2_zero : Hash_DJB2 sample_c_str 0 = 177621.
Proof. reflexivity. Qed.

Example Hash_SDBM_ten : Hash_SDBM sample_c_str 10 = 49 * 65599 + 48.
Proof. reflexivity. Qed.

Example Hash_Naive_sample : Hash_Naive 197632 = (3 + 1024) * 9973.
Proof. reflexivity. Qed.

(** ** [PrepareAlltoallTensor]: invalid splits *)

Lemma split_loop_invalid name stride split_list : forall i o,
  Exists (fun x => x < 0) split_list ->
  exists o' msg,
    split_loop name stride split_list i o = (o', Some (Status_InvalidArgument msg)) /\
    session_name o' = session_name o /\ initialized o' = initialized o.
Proof.
  induction split_list as [|x rest IH]; intros i o Hex.
  - inversion Hex.
  - simpl. destruct (Z.ltb_spec x 0) as [Hneg|Hpos].
    + eexists _, _. by split.
    + apply Exists_cons in Hex as [Hx|Hrest]; [lia|].
      edestruct (IH (i + 1)) as (o' & msg & Heq & Hs & Hi); [exact Hrest|].
      rewrite Heq. by eexists _, _.
Qed.

Lemma split_loop_valid name stride split_list : forall i o,
  Forall (fun x => 0 <= x) split_list ->
  - 2 ^ 31 <= dim0_in o ->
  dim0_in o + sum_Z split_list < 2 ^ 31 ->
  exists o',
    split_loop name stride split_list i o = (o', None) /\
    dim0_in o' = dim0_in o + sum_Z split_list /\
    session_name o' = session_name o /\ initialized o' = initialized o.
Proof.
  induction split_list as [|x rest IH]; intros i o Hall Hlo Hhi.
  - exists o. simpl. split; [done|]. split; [lia|done].
  - apply Forall_cons in Hall as [Hx Hrest]. simpl in *.
    assert (0 <= sum_Z rest) as Hsum.
    { clear -Hrest. induction Hrest; simpl; lia. }
    destruct (Z.ltb_spec x 0) as [|_]; [lia|].
    destruct (IH (i + 1)
                (mkPrepareOut (split_indices_list o ++ [i32 (i64 (x * stride))])
                   (recv_split_indices_list o) (i32 (dim0_in o + x))
                   (dim0_out o) (session_name o) (initialized o)) Hrest)
      as (o' & -> & Hd & Hs & Hi); simpl.
    + rewrite i32_small by lia. lia.
    + rewrite i32_small by lia. lia.
    + exists o'. simpl in *. rewrite i32_small in Hd by lia.
      split; [done|]. split; [lia|done].
Qed.

Lemma recv_split_loop_invalid name stride recv_split_list : forall i o,
  Exists (fun x => x < 0) recv_split_list ->
  exists o' msg,
    recv_split_loop name stride recv_split_list i o
      = (o', Some (Status_InvalidArgument msg)) /\
    session_name o' = session_name o /\ initialized o' = initialized o.
Proof.
  induction recv_split_list as [|x rest IH]; intros i o Hex.
  - inversion Hex.
  - simpl. destruct (Z.ltb_spec x 0) as [Hneg|Hpos].
    + eexists _, _. by split.
    + apply Exists_cons in Hex as [Hx|Hrest]; [lia|].
      edestruct (IH (i + 1)) as (o' & msg & Heq & Hs & Hi); [exact Hrest|].
      rewrite Heq. by eexists _, _.
Qed.

Lemma recv_split_loop_valid name stride recv_split_list : forall i o,
  Forall (fun x => 0 <= x) recv_split_list ->
  exists o', recv_split_loop name stride recv_split_list i o = (o', None).
Proof.
  induction recv_split_list as [|x rest IH]; intros i o Hall.
  - by exists o.
  - apply Forall_cons in Hall as [Hx Hrest]. simpl.
    destruct (Z.ltb_spec x 0) as [|_]; [lia|]. apply IH, Hrest.
Qed.

Lemma nonneg_or_negative (l : list Z) :
  Forall (fun x => 0 <= x) l \/ Exists (fun x => x < 0) l.
Proof.
  induction l as [|x l [IH|IH]].
  - left. constructor.
  - destruct (Z.lt_ge_cases x 0).
    + right. by apply Exists_cons_hd.
    + left. by constructor.
  - right. by apply Exists_cons_tl.
Qed.

(** C9. For a call whose sum starts from zero on a shape with a first
    dimension, [PrepareAlltoallTensor] returns [InvalidArgument] exactly
    when a split is negative, a receive split is negative, or the splits
    do not add up to the first dimension; and it then returns with the
    tables untouched and the session name and the initialised flag
    unwritten: before the naming and the declarations. *)
Theorem PrepareAlltoallTensor_invalid_argument
    (byteps_session_id : string -> Z) (g : Config) (G : BytePSGlobal)
    (dim0 : Z) (dims tensor_key split_list recv_split_list : list Z)
    (name : string) (o : PrepareOut) :
  dim0_in o = 0 ->
  (Forall (fun x => 0 <= x) split_list -> sum_Z split_list < 2 ^ 31) ->
  (bad_split split_list recv_split_list dim0 ->
   exists msg o',
     PrepareAlltoallTensor byteps_session_id g G (dim0 :: dims) tensor_key
       split_list recv_split_list name o
       = Ret (Status_InvalidArgument msg, G, o') /\
     session_name o' = session_name o /\ initialized o' = initialized o) /\
  (~ bad_split split_list recv_split_list dim0 ->
   forall st G' o',
     PrepareAlltoallTensor byteps_session_id g G (dim0 :: dims) tensor_key
       split_list recv_split_list name o = Ret (st, G', o') ->
     type_ st = OK).
Proof.
  intros Hzero Hfit. unfold PrepareAlltoallTensor.
  set (stride := stride_of (dim0 :: dims)).
  destruct (nonneg_or_negative split_list) as [Hpos|Hneg].
  - destruct (split_loop_valid name stride split_list 0 o Hpos)
      as (o1 & Hloop & Hd & Hs & Hi); [lia|specialize (Hfit Hpos); lia|].
    rewrite Hloop, Hd, Hzero, Z.add_0_l. simpl.
    destruct (Z.eqb_spec (sum_Z split_list) dim0) as [Hsum|Hsum]; simpl.
    + destruct (nonneg_or_negative recv_split_list) as [Hrpos|Hrneg].
      * destruct (recv_split_loop_valid name stride recv_split_list 0 o1 Hrpos)
          as (o2 & Hrloop).
        rewrite Hrloop. split.
        -- intros [Hb|[Hb|Hb]]; [| |done].
           ++ apply Forall_Exists_neg in Hb; [done|].
              eapply Forall_impl; [exact Hpos|]. simpl. lia.
           ++ apply Forall_Exists_neg in Hb; [done|].
              eapply Forall_impl; [exact Hrpos|]. simpl. lia.
        -- intros _ st G' o' Hrun.
           destruct (u64 _ =? 0); [done|].
           destruct (declare_sessions G name tensor_key 0) as [G1|];
             simpl in Hrun; [|done].
           destruct (_name_to_cxt G1 !! _); [|done].
           by inversion Hrun.
      * destruct (recv_split_loop_invalid name stride recv_split_list 0 o1 Hrneg)
          as (o2 & msg & Hrloop & Hs2 & Hi2).
        rewrite Hrloop. split.
        -- intros _. exists msg, o2. split; [done|]. split; congruence.
        -- intros Hnb. destruct Hnb. right. by left.
    + split.
      * intros _. eexists _, o1. split; [reflexivity|]. by split.
      * intros Hnb. destruct Hnb. right. by right.
  - destruct (split_loop_invalid name stride split_list 0 o Hneg)
      as (o1 & msg & Hloop & Hs & Hi).
    rewrite Hloop. split.
    + intros _. exists msg, o1. by split.
    + intros Hnb. destruct Hnb. by left.
Qed.

(** The theorem on a [30 x 4] tensor split as 5 + 25. *)
Lemma PrepareAlltoallTensor_invalid_argument_witness :
  (exists st G' o',
     PrepareAlltoallTensor (fun _ => 0) sample_config (initial_global 2)
       (30 :: [4]) [-1] [5; 25] [5; 12] "a2a" (mkPrepareOut [] [] 0 0 "" false)
       = Ret (st, G', o') /\ type_ st = OK) /\
  (exists msg o',
     PrepareAlltoallTensor (fun _ => 0) sample_config (initial_global 2)
       (30 :: [4]) [-1] [5; -25] [5; 12] "a2a" (mkPrepareOut [] [] 0 0 "" false)
       = Ret (Status_InvalidArgument msg, initial_global 2, o') /\
     session_name o' = "" /\ initialized o' = false).
Proof.
  split.
  - destruct (PrepareAlltoallTensor_invalid_argument (fun _ => 0) sample_config
                (initial_global 2) 30 [4] [-1] [5; 25] [5; 12] "a2a"
                (mkPrepareOut [] [] 0 0 "" false) eq_refl)
      as [_ Hok].
    { intros _. vm_compute. reflexivity. }
    eexists _, _, _. split; [vm_compute; reflexivity|].
    eapply Hok; [|vm_compute; reflexivity].
    intros [Hb|[Hb|Hb]].
    + apply Exists_exists in Hb as (x & Hx & Hneg).
      apply list_elem_of_In in Hx. simpl in Hx.
      destruct Hx as [<-|[<-|[]]]; lia.
    + apply Exists_exists in Hb as (x & Hx & Hneg).
      apply list_elem_of_In in Hx. simpl in Hx.
      destruct Hx as [<-|[<-|[]]]; lia.
    + by vm_compute in Hb.
  - destruct (PrepareAlltoallTensor_invalid_argument (fun _ => 0) sample_config
                (initial_global 2) 30 [4] [-1] [5; -25] [5; 12] "a2a"
                (mkPrepareOut [] [] 0 0 "" false) eq_refl)
      as [Hbad _].
    { intros Hall. apply Forall_cons in Hall as [_ Hall].
      apply Forall_cons in Hall as [Hneg _]. lia. }
    apply Hbad. left. apply Exists_cons_tl, Exists_cons_hd. lia.
Defined.

Example PrepareAlltoallTensor_valid :
  match PrepareAlltoallTensor (fun _ => 0) sample_config (initial_global 2)
          [30; 4] [-1] [5; 25] [5; 12] "a2a" (mkPrepareOut [] [] 0 0 "" false) with
  | Ret (st, G, o) =>
      st = Status_OK /\ session_name o = "session_0_a2a" /\
      split_indices_list o = [20; 100] /\ recv_split_indices_list o = [20; 48] /\
      dim0_in o = 30 /\ dim0_out o = 17 /\
      _declared_tensors G = ["session_0_a2a"]
  | Fail _ => False
  end.
Proof. vm_compute. repeat split. Qed.

Example PrepareAlltoallTensor_negative_recv :
  match PrepareAlltoallTensor (fun _ => 0) sample_config (initial_global 2)
          [30; 4] [-1] [5; 25] [5; -12] "a2a" (mkPrepareOut [] [] 0 0 "" false) with
  | Ret (st, G, o) =>
      st = Status_InvalidArgument "a2a: invalid recv_split[1]=-12" /\
      session_name o = "" /\ _declared_tensors G = []
  | Fail _ => False
  end.
Proof. vm_compute. repeat split. Qed.

Example PrepareAlltoallTensor_bad_sum :
  match PrepareAlltoallTensor (fun _ => 0) sample_config (initial_global 2)
          [30; 4] [-1] [5; 20] [5; 12] "a2a" (mkPrepareOut [] [] 0 0 "" false) with
  | Ret (st, G, o) =>
      st = Status_InvalidArgument
             "a2a: invalid split. tensor.shape[0]=30. split=5,20," /\
      session_name o = "" /\ _declared_tensors G = []
  | Fail _ => False
  end.
Proof. vm_compute. repeat split. Qed.

(** A declared key of 2^15 and above leaves the 32-bit shift of
    [InitTensor] negative, and the conversion to the 64-bit key fills the
    upper half. *)
Example push_pull_start_key_large :
  push_pull_start_key 32768 = 2 ^ 64 - 2 ^ 31 + 2 ^ 10.
Proof. reflexivity. Qed.

(** ** [InitTensor] and [InitTensorP2P]: what a returning call has done *)

Lemma div_mod_decompose k q r m :
  0 <= r < m -> k = q * m + r -> k / m = q /\ k mod m = r.
Proof.
  intros Hr ->. split.
  - symmetry. apply (Z.div_unique_pos _ _ q r); lia.
  - symmetry. apply (Z.mod_unique_pos _ _ q r); lia.
Qed.

Lemma Forall_ZPush (l : list Z) :
  Forall (fun ev => is_ZPush ev = true) (ZPush <$> l).
Proof. induction l; constructor; done. Qed.

Lemma shifted_seq (i : Z) (n : nat) :
  (fun j : nat => i + Z.of_nat j) <$> seq 0 (S n)
  = i :: ((fun j : nat => i + 1 + Z.of_nat j) <$> seq 0 n).
Proof.
  cbn [seq fmap list_fmap]. rewrite Z.add_0_r. f_equal.
  rewrite <- fmap_S_seq, <- list_fmap_compose.
  apply list_fmap_ext. intros _ j _. simpl. lia.
Qed.

Section InitFacts.
Context (dangling_c_str : Z -> string) (_built_in_hash_fn : string -> Z)
        (_built_in_hash_coefficient : Z) (Hash_Mixed_Mode : Z -> outcome Z)
        (getDataTypeLength : Z -> Z) (openSharedMemory : Z -> Z -> Z)
        (openNumaSharedMemory : Z -> Z -> Z -> Z)
        (openPcieSharedMemory : Z -> Z -> list Z)
        (openP2PSharedMemory : Z -> Z -> Z)
        (Serialize_size : list (string * string) -> Z).

Local Abbreviation push_loop :=
  (init_push_loop dangling_c_str _built_in_hash_fn _built_in_hash_coefficient
     Hash_Mixed_Mode getDataTypeLength).
Local Abbreviation kwargs_loop :=
  (kwargs_push_loop dangling_c_str _built_in_hash_fn
     _built_in_hash_coefficient Hash_Mixed_Mode).
Local Abbreviation cpubuff_of :=
  (init_cpubuff openSharedMemory openNumaSharedMemory openPcieSharedMemory).
Local Abbreviation Init_ :=
  (InitTensor dangling_c_str _built_in_hash_fn _built_in_hash_coefficient
     Hash_Mixed_Mode getDataTypeLength openSharedMemory openNumaSharedMemory
     openPcieSharedMemory Serialize_size).

(** The init-push loop visits the keys in order; what it does to the
    tables is a run of [EncodeDefaultKey] calls, its events are pushes, and
    with [push] and [register] it creates one compressor per key it
    visits. *)
Lemma init_push_loop_spec g push register dtype size bound :
  forall keys G cs acc i G1 cs' evs acc' i',
    push_loop g push register dtype size bound keys G cs acc i
      = Ret (G1, cs', evs, acc', i') ->
    0 <= i -> i + Z.of_nat (length keys) < 2 ^ 64 ->
    exists n : nat,
      (n <= length keys)%nat /\ i' = i + Z.of_nat n /\
      cs' = cs ++ (if push && register
                   then (fun j : nat => i + Z.of_nat j) <$> seq 0 n else []) /\
      encode_calls G G1 /\
      (push = false -> G1 = G /\ evs = []) /\
      Forall (fun ev => is_ZPush ev = true) evs.
Proof.
  induction keys as [|key keys IH];
    intros G cs acc i G1 cs' evs acc' i' Hrun Hi Hlen; cbn [init_push_loop] in Hrun.
  - destruct (acc <? size); [done|]. inversion Hrun; subst.
    exists 0%nat. split_and!; try done.
    + lia.
    + destruct (push && register); by rewrite app_nil_r.
    + apply encode_calls_nil.
  - destruct (acc <? size).
    2:{ inversion Hrun; subst. exists 0%nat. split_and!; try done.
        - simpl. lia.
        - lia.
        - destruct (push && register); by rewrite app_nil_r.
        - apply encode_calls_nil. }
    simpl length in Hlen.
    assert (u64 (i + 1) = i + 1) as Hi1 by (apply u64_small; lia).
    rewrite Hi1 in Hrun.
    destruct push.
    + destruct (EncodeDefaultKey _ _ _ _ g G key _) as [[G2 pskv]|] eqn:He;
        cbn [obind] in Hrun; [|done].
      destruct register.
      * destruct (Align _ _ _) as [a|]; cbn [obind] in Hrun; [|done].
        destruct (init_push_loop _ _ _ _ _ _ _ _ _ _ _ keys _ _ _ _)
          as [[[[[G3 cs3] evs3] acc3] i3]|] eqn:Hr; cbn [obind] in Hrun; [|done].
        inversion Hrun; subst.
        destruct (IH _ _ _ _ _ _ _ _ _ Hr) as (n & Hn & -> & -> & Hcalls & _ & Hevs);
          [lia|lia|].
        exists (S n). split_and!.
        -- simpl. lia.
        -- lia.
        -- cbn [andb]. rewrite shifted_seq. by rewrite <- app_assoc.
        -- eapply encode_calls_cons; eauto.
        -- done.
        -- apply Forall_app. split; [apply Forall_ZPush|done].
      * cbn [obind] in Hrun.
        destruct (init_push_loop _ _ _ _ _ _ _ _ _ _ _ keys _ _ _ _)
          as [[[[[G3 cs3] evs3] acc3] i3]|] eqn:Hr; cbn [obind] in Hrun; [|done].
        inversion Hrun; subst.
        destruct (IH _ _ _ _ _ _ _ _ _ Hr) as (n & Hn & -> & -> & Hcalls & _ & Hevs);
          [lia|lia|].
        exists (S n). split_and!.
        -- simpl. lia.
        -- lia.
        -- done.
        -- eapply encode_calls_cons; eauto.
        -- done.
        -- apply Forall_app. split; [apply Forall_ZPush|done].
    + cbn [obind] in Hrun.
      destruct (init_push_loop _ _ _ _ _ _ _ _ _ _ _ keys _ _ _ _)
        as [[[[[G3 cs3] evs3] acc3] i3]|] eqn:Hr; cbn [obind] in Hrun; [|done].
      inversion Hrun; subst.
      destruct (IH _ _ _ _ _ _ _ _ _ Hr) as (n & Hn & -> & -> & Hcalls & Hno & Hevs);
        [lia|lia|].
      exists (S n). split_and!.
      * simpl. lia.
      * lia.
      * done.
      * done.
      * intros _. destruct (Hno eq_refl) as [-> ->]. done.
      * done.
Qed.

Lemma kwargs_push_loop_spec g len_ : forall keys G G' evs,
  kwargs_loop g len_ keys G = Ret (G', evs) ->
  encode_calls G G' /\ Forall (fun ev => is_ZPush ev = true) evs.
Proof.
  induction keys as [|key keys IH]; intros G G' evs Hrun;
    cbn [kwargs_push_loop] in Hrun.
  - inversion Hrun; subst. split; [apply encode_calls_nil|done].
  - destruct (EncodeDefaultKey _ _ _ _ g G key len_) as [[G1 kv]|] eqn:He;
      cbn [obind] in Hrun; [|done].
    destruct (kwargs_push_loop _ _ _ _ g len_ keys G1) as [[G2 evs2]|] eqn:Hr;
      cbn [obind] in Hrun; [|done].
    inversion Hrun; subst. destruct (IH _ _ _ Hr) as [Hcalls Hevs]. split.
    + eapply encode_calls_cons; eauto.
    + apply Forall_app. split; [apply Forall_ZPush|done].
Qed.

(** The buffer attachment writes [cpubuff] only. *)
Lemma init_cpubuff_fields g context key_list aligned_size on_cpu context' :
  cpubuff_of g context key_list aligned_size on_cpu = Ret context' ->
  context' = context \/
  exists buff, context' = BPSContext.set_cpubuff context buff.
Proof.
  unfold init_cpubuff, obind. intros Hrun.
  repeat case_match; simplify_eq; eauto.
Qed.

(** The shape of every returning [InitTensor] on a context that is not
    initialised. *)
Lemma InitTensor_returns fuel g G context size dtype on_cpu context' G' evs :
  BPSContext.initialized context = false ->
  Init_ fuel g G context size dtype on_cpu = Ret (context', G', evs) ->
  let kwargs' := if size <? _min_compress_bytes g then []
                 else BPSContext.kwargs context in
  let push := _is_distributed g && (_is_root_device g
                                    && (on_cpu || negb (_is_gdr g))) in
  let register := _building_compressor g && negb (bool_decide (kwargs' = [])) in
  exists key_list,
    0 < size /\
    key_loop fuel size (_partition_bytes g) 0
      (push_pull_start_key (BPSContext.declared_key context))
      (BPSContext.key_list context) = Ret key_list /\
    0 < Z.of_nat (length key_list) /\
    Z.of_nat (length key_list)
      = u64 (size + _partition_bytes g - 1) / _partition_bytes g /\
    (if on_cpu then negb (_is_cpu_allreduce_disabled g)
     else _is_gdr g || negb (_is_gpu_allreduce_disabled g)) = true /\
    BPSContext.initialized context' = true /\
    BPSContext.key_list context' = key_list /\
    BPSContext.declared_key context' = BPSContext.declared_key context /\
    BPSContext.tensor_name context' = BPSContext.tensor_name context /\
    BPSContext.base_tensor_name context' = BPSContext.base_tensor_name context /\
    BPSContext.op_type context' = BPSContext.op_type context /\
    BPSContext.kwargs context' = kwargs' /\
    BPSContext.compressor_list context'
      = BPSContext.compressor_list context
        ++ (if push && register then init_compressors (length key_list)
            else []) /\
    encode_calls G G' /\
    (push = false -> G' = G /\ evs = []) /\
    Forall (fun ev => is_ZPush ev = true) evs.
Proof.
  intros Hinit Hrun kwargs' push register.
  unfold InitTensor in Hrun. rewrite Hinit in Hrun.
  destruct (Z.ltb_spec 0 size) as [Hpos|]; [|done].
  destruct (key_loop _ _ _ _ _ _) as [kl|] eqn:Hkl; cbn [obind] in Hrun; [|done].
  destruct (Z.ltb_spec 0 (Z.of_nat (length kl))) as [Hne|]; [|done].
  destruct (Z.eqb_spec (Z.of_nat (length kl))
              (u64 (size + _partition_bytes g - 1) / _partition_bytes g))
    as [Hcount|]; [|done].
  destruct (if on_cpu then _ else _) eqn:Hflag; [|done].
  destruct (Align _ _ _) as [aligned_size|]; cbn [obind] in Hrun; [|done].
  destruct (init_cpubuff _ _ _ _ _ _ _ _) as [context1|] eqn:Hbuff;
    cbn [obind] in Hrun; [|done].
  apply init_cpubuff_fields in Hbuff.
  set (context0 := if on_cpu
                   then BPSContext.set_gpu_ptr
                          (BPSContext.set_key_list context kl) 0
                   else BPSContext.set_key_list context kl) in *.
  assert (BPSContext.key_list context1 = kl /\
          BPSContext.declared_key context1 = BPSContext.declared_key context /\
          BPSContext.tensor_name context1 = BPSContext.tensor_name context /\
          BPSContext.base_tensor_name context1
            = BPSContext.base_tensor_name context /\
          BPSContext.op_type context1 = BPSContext.op_type context /\
          BPSContext.kwargs context1 = BPSContext.kwargs context /\
          BPSContext.compressor_list context1
            = BPSContext.compressor_list context)
    as (Hk1 & Hd1 & Hn1 & Hb1 & Ho1 & Hw1 & Hc1).
  { destruct Hbuff as [->|[buff ->]]; subst context0; by destruct on_cpu. }
  clear Hbuff.
  set (context2 := if size <? _min_compress_bytes g
                   then BPSContext.set_kwargs context1 [] else context1) in *.
  assert (BPSContext.key_list context2 = kl /\
          BPSContext.declared_key context2 = BPSContext.declared_key context /\
          BPSContext.tensor_name context2 = BPSContext.tensor_name context /\
          BPSContext.base_tensor_name context2
            = BPSContext.base_tensor_name context /\
          BPSContext.op_type context2 = BPSContext.op_type context /\
          BPSContext.kwargs context2 = kwargs' /\
          BPSContext.compressor_list context2
            = BPSContext.compressor_list context)
    as (Hk2 & Hd2 & Hn2 & Hb2 & Ho2 & Hw2 & Hc2).
  { subst context2 kwargs'. by destruct (size <? _min_compress_bytes g). }
  clearbody context2. clear Hk1 Hd1 Hn1 Hb1 Ho1 Hw1 Hc1.
  rewrite Hw2, Hc2 in Hrun. fold push register in Hrun.
  destruct (init_push_loop _ _ _ _ _ _ _ _ _ _ _ _ _ _ _ _)
    as [[[[[G1 cs] evs1] acc] i]|] eqn:Hloop; cbn [obind] in Hrun; [|done].
  destruct (Z.eqb_spec i (Z.of_nat (length kl))) as [Hi|]; [|done].
  destruct (Z.eqb_spec acc size) as [Hacc|]; [|done].
  cbn [BPSContext.kwargs BPSContext.set_compressor_list] in Hrun.
  rewrite Hw2 in Hrun.
  destruct (if negb (bool_decide (kwargs' = [])) && push then _ else _)
    as [[G2 evs2]|] eqn:Hkw; cbn [obind] in Hrun; [|done].
  inversion Hrun; subst context' G' evs. clear Hrun.
  pose proof (Z.mod_pos_bound (size + _partition_bytes g - 1) (2 ^ 64)
                ltac:(lia)) as Hmod.
  assert (0 < _partition_bytes g) as HB.
  { destruct (Z.lt_trichotomy (_partition_bytes g) 0) as [Hneg|[Hz|]]; [| |done].
    - assert (u64 (size + _partition_bytes g - 1) / _partition_bytes g <= 0);
        [|lia].
      unfold u64. rewrite <- Zdiv_opp_opp. apply Z.div_le_upper_bound; lia.
    - rewrite Hz, Z.div_0_r in Hcount. lia. }
  assert (Z.of_nat (length kl) < 2 ^ 64) as Hlen.
  { rewrite Hcount. unfold u64.
    apply Z.div_lt_upper_bound; [done|]. nia. }
  destruct (init_push_loop_spec _ _ _ _ _ _ _ _ _ _ _ _ _ _ _ _ Hloop)
    as (n & Hn & Hin & Hcs & Hcalls & Hno & Hevs); [lia|lia|].
  assert (n = length kl) as -> by lia.
  assert (encode_calls G1 G2 /\ Forall (fun ev => is_ZPush ev = true) evs2 /\
          (push = false -> G2 = G1 /\ evs2 = [])) as (Hcalls2 & Hevs2 & Hno2).
  { destruct (negb (bool_decide (kwargs' = [])) && push) eqn:Hcond.
    - destruct (kwargs_push_loop_spec _ _ _ _ _ _ Hkw) as [? ?].
      split_and!; try done. intros Hp. rewrite Hp in Hcond.
      by rewrite andb_false_r in Hcond.
    - inversion Hkw; subst. split_and!; try done. apply encode_calls_nil. }
  exists kl. split_and!; try done.
  - by eapply encode_calls_trans.
  - intros Hp. destruct (Hno Hp) as [-> ->]. destruct (Hno2 Hp) as [-> ->]. done.
  - apply Forall_app. by split.
Qed.



End InitFacts.


Example InitTensor_sample_keys :
  match sample_InitTensor 2 sample_config (initial_global 2)
          (sample_context "w" 3) 5000000 0 false with
  | Ret (c, G, evs) =>
      BPSContext.key_list c = [197632; 197633] /\
      evs = [ZPush (2 ^ 63 + 197632); ZPush 197633] /\
      _server_accumulated_len G = [904000; 4096000]
  | Fail _ => False
  end.
Proof. vm_compute. repeat split. Qed.

Example InitTensorP2P_sample_keys :
  match sample_InitTensorP2P 2 sample_config (sample_context "w" 3)
          5000000 1 0 with
  | Ret (c, _) =>
      BPSContext.key_list c = [4295165952; 4295165953] /\
      BPSContext.cpubuff_list c = [0; 0]
  | Fail _ => False
  end.
Proof. vm_compute. split; reflexivity. Qed.

(** Where the code aborts: a receiver that is no server, and a hash knob
    that [EncodeDefaultKey] does not know. *)
Example InitTensorP2P_no_such_server :
  sample_InitTensorP2P 2 sample_config (sample_context "w" 3) 5000000 0 2
  = Fail CheckFailed.
Proof. reflexivity. Qed.


(** ** [EnqueueTensor] as a whole *)

(** A returning [EnqueueTensor] that was not cut short by the shutdown flag
    leaves the caller's stage list as [add_compress_stages] made it. *)
Lemma EnqueueTensor_stage_list (Telemetry_RecordStart : string -> Z)
    (uninitialized_key : Z -> Z)
    fuel g G context input output device priority version queue_list
    st context' queue_list' evs :
  _should_shutdown G = false ->
  EnqueueTensor Telemetry_RecordStart uninitialized_key fuel g G context
    input output device priority version queue_list
    = Ret (st, context', queue_list', evs) ->
  add_compress_stages g context queue_list = Ret queue_list'.
Proof.
  intros Hdown Hrun. unfold EnqueueTensor in Hrun. rewrite Hdown in Hrun.
  destruct (match input with Some _ => _ | None => _ end); [|done].
  destruct (add_compress_stages g context queue_list) as [ql|]; [|done].
  simpl in Hrun. unfold obind in Hrun.
  repeat case_match; simplify_eq; done.
Qed.

(** 5,000,000 bytes under the default bound on a distributed GPU root: two
    tasks on the first stage's queue with consecutive keys, then the
    callback is recorded under the first key. *)
Example EnqueueTensor_two_partitions :
  match sample_InitTensor 2 sample_config (initial_global 2)
          (sample_context "w" 3) 5000000 0 false with
  | Ret (context, G, _) =>
      match EnqueueTensor sample_RecordStart sample_uninitialized_key 2
              sample_config G context (Some (sample_tensor 5000000))
              (Some (sample_tensor 5000000)) 0 0 0
              [REDUCE; COPYD2H; PUSH; PULL; COPYH2D; BROADCAST] with
      | Ret (st, _, ql, evs) =>
          st = Status_OK /\
          ql = [REDUCE; COPYD2H; PUSH; PULL; COPYH2D; BROADCAST] /\
          omap (fun ev => match ev with
                          | AddTask q (PushPullTask e) =>
                              Some (q, key e, offset e, len e, total_partnum e)
                          | _ => None
                          end) evs
          = [(REDUCE, 197632, 0, 4096000, 2); (REDUCE, 197633, 4096000, 904000, 2)] /\
          last evs = Some (RecordCallback 197632)
      | Fail _ => False
      end
  | Fail _ => False
  end.
Proof. vm_compute. repeat split. Qed.

(** ** All-to-all: an empty submission on an initialised context returns *)

Lemma count_size_lists unit_size my_rank request_begin resp_begin unknown
    (ranks : list Z) (a : AlltoallCount) :
  request_size_list
    (fold_left (alltoall_count_step unit_size my_rank request_begin resp_begin
                  unknown) ranks a)
  = request_size_list a ++ map (slot_size unit_size request_begin) ranks /\
  resp_size_list
    (fold_left (alltoall_count_step unit_size my_rank request_begin resp_begin
                  unknown) ranks a)
  = resp_size_list a ++ map (slot_size unit_size resp_begin) ranks.
Proof.
  revert a. induction ranks as [|i ranks IH]; intros a; simpl.
  - by rewrite !app_nil_r.
  - destruct (IH (alltoall_count_step unit_size my_rank request_begin
                    resp_begin unknown a i)) as [-> ->].
    simpl. by rewrite <- !app_assoc.
Qed.

Lemma alltoall_check_sizes_zero (bounds resp_sizes : list Z) (m : nat) :
  forall k : nat,
    (forall j, (j < k + m)%nat -> resp_sizes !! j = Some 0) ->
    (forall j, (j < k + m)%nat ->
               exists b, bounds !! j = Some b /\ 0 <= i32 b) ->
    alltoall_check_sizes bounds (replicate m 0) resp_sizes (Z.of_nat k) = Ret tt.
Proof.
  induction m as [|m IH]; intros k Hrs Hb; simpl; [done|].
  unfold vec_idx. destruct (Z.ltb_spec (Z.of_nat k) 0); [lia|].
  rewrite Nat2Z.id. rewrite (Hrs k) by lia. simpl.
  destruct (Hb k) as (b & -> & Hnn); [lia|]. simpl.
  destruct (Z.leb_spec 0 (i32 b)); [|lia].
  replace (Z.of_nat k + 1) with (Z.of_nat (S k)) by lia.
  apply IH; intros j Hj; [apply Hrs|apply Hb]; lia.
Qed.

Section AlltoallEmpty.
Context (Telemetry_RecordStart : string -> Z) (getDataTypeLength : Z -> Z)
        (ComposeAlltoallKey : Z -> Z -> Z) (GetAlltoallTensorId : Z -> Z)
        (alltoall_needed_size : Z -> Z) (PageAlignedMalloc : Z -> Z).

Lemma InitTensorAlltoall_initialized g ctx request_sizes resp_sizes use_pull :
  BPSContext.initialized ctx = true ->
  alltoall_check_sizes (BPSContext.bounds_for_ranks ctx) request_sizes
    resp_sizes 0 = Ret tt ->
  InitTensorAlltoall ComposeAlltoallKey alltoall_needed_size PageAlignedMalloc
    g ctx request_sizes resp_sizes use_pull = Ret (ctx, []).
Proof.
  intros Hinit Hcheck. unfold InitTensorAlltoall.
  rewrite Hinit. cbn [obind]. rewrite Hcheck. cbn [obind].
  by rewrite Hinit.
Qed.

(** Outside shutdown, in joint mode, on an initialised context with
    [2 * n] keys and buffers and non-negative bounds, a submission with the
    sizes known and every slot empty returns [Status::OK] after invoking
    the callback once and doing nothing else. *)
Lemma EnqueueAlltoAllTensor_empty_returns g G name input group_inputs output
    group_outputs_ size_output input_device output_device_ priority version
    send_begin recv_begin (n : nat) dtype ctx :
  _should_shutdown G = false ->
  _is_joint g = true ->
  alltoall_dtype input group_inputs = Ret dtype ->
  _name_to_cxt G !! name = Some ctx ->
  BPSContext.initialized ctx = true ->
  length (BPSContext.key_list ctx) = (2 * n)%nat ->
  length (BPSContext.cpubuff_list ctx) = (2 * n)%nat ->
  length (BPSContext.bounds_for_ranks ctx) = n ->
  Forall (fun b => 0 <= i32 b) (BPSContext.bounds_for_ranks ctx) ->
  length send_begin = S n -> length recv_begin = S n ->
  Z.of_nat n < 2 ^ 31 ->
  (forall i, 0 <= i < Z.of_nat n ->
             slot send_begin i = 0 /\ slot recv_begin i = 0) ->
  EnqueueAlltoAllTensor Telemetry_RecordStart getDataTypeLength
    ComposeAlltoallKey GetAlltoallTensorId alltoall_needed_size
    PageAlignedMalloc g G name input group_inputs output group_outputs_
    size_output input_device output_device_ priority version send_begin
    recv_begin false
  = Ret (Status_OK,
         set_name_to_cxt G
           (<[name := BPSContext.set_op_count ctx
                        (Telemetry_RecordStart (BPSContext.base_tensor_name ctx))]>
              (_name_to_cxt G)),
         [Callback Status_OK]).
Proof.
  intros Hdown Hjoint Hdt Hctx Hinit Hkeys Hbuffs Hbounds Hnonneg Hls Hlr Hn
         Hzero.
  unfold EnqueueAlltoAllTensor. rewrite Hdown, Hjoint, Hdt. cbn [obind].
  rewrite Hctx.
  destruct (num_ranks_of_length send_begin n Hls Hn) as [Hnr Hnn].
  rewrite Hnn, Hnr.
  set (use_pull := _alltoall_use_pull g && negb false).
  set (request_begin := if use_pull then recv_begin else send_begin).
  set (resp_begin := if use_pull then send_begin else recv_begin).
  assert (length request_begin = S n /\ length resp_begin = S n) as [Hlq Hlp]
    by (subst request_begin resp_begin; by destruct use_pull).
  assert (forall i, 0 <= i < Z.of_nat n ->
            slot_size (getDataTypeLength dtype) request_begin i = 0 /\
            slot_size (getDataTypeLength dtype) resp_begin i = 0) as Hsz.
  { intros i Hi. destruct (Hzero i Hi) as [Hs Hr].
    split; apply slot_size_empty; try lia;
      subst request_begin resp_begin; by destruct use_pull. }
  set (c := alltoall_count (getDataTypeLength dtype) (_rank g) request_begin
              resp_begin false n).
  assert (num_ps_requests c = 0) as Hreq0.
  { unfold c, alltoall_count. rewrite count_requests_empty; [done|].
    apply Forall_forall. intros i (k & -> & Hk%elem_of_seq)%list_elem_of_fmap _.
    apply Hsz. lia. }
  assert (resp_total_partnum c = 0) as Hresp0.
  { unfold c, alltoall_count. rewrite count_responses_empty; [done|].
    apply Forall_forall. intros i (k & -> & Hk%elem_of_seq)%list_elem_of_fmap.
    apply Hsz. lia. }
  assert (request_size_list c = replicate n 0 /\
          resp_size_list c = replicate n 0) as [Hrq Hrs].
  { unfold c, alltoall_count.
    destruct (count_size_lists (getDataTypeLength dtype) (_rank g) request_begin
                resp_begin false (Z.of_nat <$> seq 0 n)
                (mkCount 0 0 [] [] [0] [0])) as [-> ->].
    simpl.
    assert (forall begin,
              (forall i, 0 <= i < Z.of_nat n ->
                         slot_size (getDataTypeLength dtype) begin i = 0) ->
              map (slot_size (getDataTypeLength dtype) begin)
                  (Z.of_nat <$> seq 0 n) = replicate n 0) as Hmap.
    { intros begin Hb. apply list_eq. intros j.
      destruct (decide (j < n)%nat) as [Hj|Hj].
      - rewrite lookup_replicate_2 by done.
        change (map ?f ?l) with (f <$> l).
        rewrite !list_lookup_fmap, lookup_seq_lt by done. simpl.
        f_equal. apply Hb. lia.
      - rewrite !lookup_ge_None_2; [done| |].
        + rewrite length_replicate. lia.
        + rewrite length_map, length_fmap, length_seq. lia. }
    split; apply Hmap; intros i Hi; by apply Hsz. }
  set (ctx1 := BPSContext.set_op_count ctx _).
  rewrite Hrq, Hrs.
  rewrite (InitTensorAlltoall_initialized g ctx1 (replicate n 0)
             (replicate n 0) use_pull Hinit).
  - cbn [obind].
    replace (length (BPSContext.cpubuff_list ctx1)) with (2 * n)%nat by done.
    replace (length (BPSContext.key_list ctx1)) with (2 * n)%nat by done.
    replace (u64 (Z.of_nat n * 2)) with (Z.of_nat (2 * n)) by
      (rewrite u64_small; lia).
    rewrite !Z.eqb_refl.
    unfold alltoall_request_task. cbn [pcie_cpubuff key_list].
    rewrite !length_take, !length_drop, Nat2Z.id.
    replace (length (BPSContext.cpubuff_list ctx1)) with (2 * n)%nat by done.
    replace (length (BPSContext.key_list ctx1)) with (2 * n)%nat by done.
    replace (Z.of_nat (n `min` (2 * n))) with (Z.of_nat n) by lia.
    replace (Z.of_nat (2 * n - n)) with (Z.of_nat n) by lia.
    rewrite !Z.eqb_refl.
    unfold total_partnum_of, request_total_partnum_of.
    rewrite Hreq0, Hresp0. reflexivity.
  - apply (alltoall_check_sizes_zero (BPSContext.bounds_for_ranks ctx)
             (replicate n 0) n 0%nat).
    + intros j Hj. apply lookup_replicate_2. lia.
    + intros j Hj.
      destruct (lookup_lt_is_Some_2 (BPSContext.bounds_for_ranks ctx) j)
        as [b Hb]; [lia|].
      exists b. split; [done|].
      rewrite Forall_forall in Hnonneg. apply Hnonneg.
      by apply list_elem_of_lookup_2 in Hb.
Qed.
End AlltoallEmpty.

(* ===================================================================== *)
(** * Further properties of the code *)
(** ** Declared keys: generation, uniqueness, replay *)

(** What the key search returns: the least key at or above the counter
    that is not marked as used. *)
Lemma next_free_key_spec (used : gset Z) (fuel : nat) :
  forall next k next' : Z,
    next_free_key fuel used next = Ret (k, next') ->
    next' = k + 1 /\ (next <= k) /\ (k ∉ used) /\
    (forall j, next <= j < k -> j ∈ used) /\
    (next <= INT32_MAX -> k < INT32_MAX).
Proof.
  induction fuel as [|fuel IH]; intros next k next'; simpl.
  - destruct (Z.eqb_spec next INT32_MAX); [done|].
    destruct (bool_decide_reflect (next ∈ used)) as [Hin|Hout]; [done|].
    intros [= <- <-]. split_and!; [done|lia|done|intros; lia|lia].
  - destruct (Z.eqb_spec next INT32_MAX); [done|].
    destruct (bool_decide_reflect (next ∈ used)) as [Hin|Hout].
    + intros (-> & Hle & Hk & Hall & Hmax)%IH.
      split_and!; [done|lia|done| |lia].
      intros j Hj. destruct (Z.eq_dec j next) as [->|]; [done|].
      apply Hall. lia.
    + intros [= <- <-]. split_and!; [done|lia|done|intros; lia|lia].
Qed.

(** The used keys at or above a counter. *)
Local Abbreviation above used next := (filter (fun k : Z => next <= k) (used : gset Z)).

Lemma above_step (used : gset Z) (next : Z) :
  next ∈ used -> (size (above used (next + 1)) < size (above used next))%nat.
Proof.
  intros Hin. apply subset_size. split.
  - intros k [Hk ?]%elem_of_filter. apply elem_of_filter. split; [lia|done].
  - intros Hsup.
    assert (next ∈ above used (next + 1)) as [Hk _]%elem_of_filter.
    { apply Hsup. apply elem_of_filter. split; [lia|done]. }
    lia.
Qed.

Lemma above_mono (used : gset Z) (next next' : Z) :
  next <= next' -> (size (above used next') <= size (above used next))%nat.
Proof.
  intros Hle. apply subseteq_size.
  intros k [Hk ?]%elem_of_filter. apply elem_of_filter. split; [lia|done].
Qed.

Lemma above_insert (used : gset Z) (k next : Z) :
  k < next -> above ({[k]} ∪ used) next = above used next.
Proof.
  intros Hlt. apply set_eq. intros j. rewrite !elem_of_filter.
  rewrite elem_of_union, elem_of_singleton. split; [|tauto].
  intros [Hj [->|Hin]]; [lia|done].
Qed.

(** The key search returns whenever the counter and the used keys above it
    stay below the largest [int32_t]; the counter and the used keys above
    it then grow by at most one together. *)
Lemma next_free_key_returns (used : gset Z) (fuel : nat) : forall next : Z,
  (size (above used next) <= fuel)%nat ->
  next + Z.of_nat (size (above used next)) < INT32_MAX ->
  exists k,
    next_free_key fuel used next = Ret (k, k + 1) /\
    k + 1 + Z.of_nat (size (above used (k + 1)))
    <= next + Z.of_nat (size (above used next)) + 1.
Proof.
  induction fuel as [|fuel IH]; intros next Hfuel Hroom; simpl.
  - destruct (Z.eqb_spec next INT32_MAX) as [->|_]; [lia|].
    destruct (bool_decide_reflect (next ∈ used)) as [Hin|Hout].
    + pose proof (above_step used next Hin). lia.
    + exists next. split; [done|].
      pose proof (above_mono used next (next + 1)). lia.
  - destruct (Z.eqb_spec next INT32_MAX) as [->|_]; [lia|].
    destruct (bool_decide_reflect (next ∈ used)) as [Hin|Hout].
    + pose proof (above_step used next Hin) as Hstep.
      destruct (IH (next + 1)) as (k & -> & Hk); [lia|lia|].
      exists k. split; [done|]. lia.
    + exists next. split; [done|].
      pose proof (above_mono used next (next + 1)). lia.
Qed.

(** X1. A first declaration without a provided key returns whenever the
    key counter of the operation type and the number of its used keys stay
    below the largest [int32_t]; the declared key is the least key at or
    above the counter that is not yet used for the operation type, the
    counter moves just past it and the key is marked as used. *)
Theorem DeclareTensor_generated_key (G : BytePSGlobal) (name : string)
    (op_type : OperationType) (session : Z) :
  _name_to_cxt G !! session_tensor_name name session = None ->
  0 <= default 0 (next_keys_ G !! op_type) ->
  default 0 (next_keys_ G !! op_type)
    + Z.of_nat (size (default (∅ : gset Z) (used_keys_ G !! op_type))) < INT32_MAX ->
  exists G' k,
    DeclareTensor G name op_type (-1) session = Ret (G', k) /\
    (default 0 (next_keys_ G !! op_type) <= k) /\
    (k ∉ default (∅ : gset Z) (used_keys_ G !! op_type)) /\
    (forall j, default 0 (next_keys_ G !! op_type) <= j < k ->
               j ∈ default (∅ : gset Z) (used_keys_ G !! op_type)) /\
    next_keys_ G' !! op_type = Some (k + 1) /\
    used_keys_ G' !! op_type
      = Some ({[k]} ∪ default (∅ : gset Z) (used_keys_ G !! op_type)) /\
    declared_key_of G' (session_tensor_name name session) = Some k.
Proof.
  intros Hnew Hc Hroom. unfold DeclareTensor. rewrite Hnew. simpl.
  set (used := default (∅ : gset Z) (used_keys_ G !! op_type)) in *.
  set (c := default 0 (next_keys_ G !! op_type)) in *.
  assert (size (above used c) <= size used)%nat as Hsz.
  { apply subseteq_size. by intros k [_ ?]%elem_of_filter. }
  destruct (next_free_key_returns used (size used) c) as (k & Hk & Hpot);
    [lia|lia|].
  rewrite Hk. simpl.
  destruct (next_free_key_spec _ _ _ _ _ Hk) as (_ & Hle & Hout & Hall & _).
  eexists _, _. split; [reflexivity|]. simpl.
  assert (i32 (u64 k) = k) as ->.
  { unfold INT32_MAX in *. rewrite u64_small by lia. apply i32_small. lia. }
  split_and!; try done.
  - by rewrite lookup_insert_eq.
  - by rewrite lookup_insert_eq.
  - unfold declared_key_of. simpl. by rewrite lookup_insert_eq.
Qed.

(** An [int32_t] converted to the 64-bit key type and back is unchanged. *)
Lemma i32_u64 z : - 2 ^ 31 <= z < 2 ^ 31 -> i32 (u64 z) = z.
Proof.
  intros Hz. destruct (Z.lt_ge_cases z 0) as [Hneg|Hpos].
  - assert (u64 z = z + 2 ^ 64) as ->.
    { unfold u64. symmetry. apply (Z.mod_unique_pos _ _ (-1)); lia. }
    unfold i32.
    replace (z + 2 ^ 64 + 2 ^ 31) with (z + 2 ^ 31 + 2 ^ 32 * 2 ^ 32) by lia.
    rewrite Z.mod_add by lia. rewrite Z.mod_small; lia.
  - rewrite u64_small by lia. apply i32_small. lia.
Qed.

Lemma keys_consistent_initial n : keys_consistent (initial_global n).
Proof.
  split_and!; simpl.
  - intros op next Hlk. by rewrite lookup_empty in Hlk.
  - intros name cxt Hlk. by rewrite lookup_empty in Hlk.
  - intros name1 name2 cxt1 cxt2 Hlk. by rewrite lookup_empty in Hlk.
Qed.

Lemma keys_consistent_Shutdown G : keys_consistent G -> keys_consistent (Shutdown G).
Proof.
  intros _. split_and!; simpl.
  - intros op next Hlk. by rewrite lookup_empty in Hlk.
  - intros name cxt Hlk. by rewrite lookup_empty in Hlk.
  - intros name1 name2 cxt1 cxt2 Hlk. by rewrite lookup_empty in Hlk.
Qed.

Lemma DeclareP2PTensor_keys_consistent G name sender receiver G' k :
  keys_consistent G ->
  DeclareP2PTensor G name sender receiver = Ret (G', k) ->
  keys_consistent G'.
Proof.
  intros (Hnext & Hused & Hdist). unfold DeclareP2PTensor.
  destruct (_name_to_cxt G !! name) as [cxt|] eqn:Hlk.
  { intros [= <- <-]. done. }
  destruct (negb (sender =? receiver)); [|done].
  intros [= <- <-]. split_and!; simpl.
  - done.
  - intros name' cxt' Hlk' Hop.
    destruct (decide (name' = name)) as [->|Hne].
    + rewrite lookup_insert_eq in Hlk'. by inversion Hlk'; subst.
    + rewrite lookup_insert_ne in Hlk' by done. by apply (Hused name').
  - intros name1 name2 cxt1 cxt2 Hlk1 Hlk2 Hne Hop Hp2p.
    destruct (decide (name1 = name)) as [->|Hne1].
    { rewrite lookup_insert_eq in Hlk1. by inversion Hlk1; subst. }
    destruct (decide (name2 = name)) as [->|Hne2].
    { rewrite lookup_insert_eq in Hlk2. inversion Hlk2; subst.
      simpl in Hop. by rewrite Hop in Hp2p. }
    rewrite lookup_insert_ne in Hlk1, Hlk2 by done.
    by apply (Hdist name1 name2).
Qed.

(** X2. [DeclareTensor] keeps the declaration tables consistent: the
    counters stay within [0, INT32_MAX], the declared key of every
    registered context that is not a p2p one is marked as used for its
    operation type, and two such contexts of one operation type registered
    under different names never share a declared key.  The empty tables are
    consistent, and [Shutdown] and [DeclareP2PTensor] keep them so
    ([keys_consistent_initial], [keys_consistent_Shutdown],
    [DeclareP2PTensor_keys_consistent]). *)
Theorem DeclareTensor_keys_consistent (G G' : BytePSGlobal) (name : string)
    (op_type : OperationType) (provided_key session k : Z) :
  keys_consistent G ->
  - 2 ^ 31 <= provided_key < 2 ^ 31 ->
  DeclareTensor G name op_type provided_key session = Ret (G', k) ->
  keys_consistent G'.
Proof.
  intros (Hnext & Hused & Hdist) Hpk. unfold DeclareTensor.
  set (tn := session_tensor_name name session).
  destruct (_name_to_cxt G !! tn) as [cxt|] eqn:Hlk.
  { intros [= <- <-]. done. }
  set (used := default (∅ : gset Z) (used_keys_ G !! op_type)).
  set (c := default 0 (next_keys_ G !! op_type)).
  assert (0 <= c <= INT32_MAX) as Hc.
  { unfold c. destruct (next_keys_ G !! op_type) as [c0|] eqn:Hn; simpl.
    - by apply (Hnext op_type).
    - unfold INT32_MAX. lia. }
  (* the key stored, the counters and the fact that the key was free *)
  assert (forall pk nk,
            (if provided_key =? -1
             then do (k0, next) <- next_free_key (size used) used c;
                  Ret (k0, <[op_type := next]> (next_keys_ G))
             else check (negb (bool_decide (provided_key ∈ used)));
                  Ret (provided_key, next_keys_ G)) = Ret (pk, nk) ->
            i32 (u64 pk) = pk /\ (pk ∉ used) /\
            (forall op next, nk !! op = Some next -> 0 <= next <= INT32_MAX))
    as Hkey.
  { intros pk nk. destruct (provided_key =? -1).
    - destruct (next_free_key _ _ _) as [[k0 n0]|] eqn:Hk; simpl; [|done].
      intros [= <- <-].
      destruct (next_free_key_spec _ _ _ _ _ Hk) as (-> & Hle & Hout & _ & Hmax).
      specialize (Hmax ltac:(lia)). unfold INT32_MAX in *.
      split_and!; [|done|].
      + rewrite u64_small by lia. apply i32_small. lia.
      + intros op next. destruct (decide (op = op_type)) as [->|Hne].
        * rewrite lookup_insert_eq. intros [= <-]. lia.
        * rewrite lookup_insert_ne by done. apply Hnext.
    - destruct (bool_decide_reflect (provided_key ∈ used)) as [|Hout];
        simpl; [done|].
      intros [= <- <-]. split_and!; [|done|done].
      by apply i32_u64. }
  destruct (if provided_key =? -1 then _ else _) as [[pk nk]|] eqn:Hpick;
    simpl; [|done].
  destruct (Hkey pk nk eq_refl) as (Hi32 & Hfree & Hnk).
  intros [= <- <-]. rewrite Hi32.
  assert (forall name' cxt',
            _name_to_cxt G !! name' = Some cxt' ->
            BPSContext.op_type cxt' = op_type ->
            BPSContext.op_type cxt' <> P2P_OP ->
            BPSContext.declared_key cxt' <> pk) as Hother.
  { intros name' cxt' Hlk' Hop Hp2p Heq.
    apply Hfree. rewrite <- Heq. unfold used. rewrite <- Hop.
    by apply (Hused name'). }
  split_and!; simpl.
  - done.
  - intros name' cxt' Hlk' Hp2p.
    destruct (decide (name' = tn)) as [->|Hne].
    + rewrite lookup_insert_eq in Hlk'. inversion Hlk'; subst; simpl.
      rewrite lookup_insert_eq. simpl.
      apply elem_of_union. left. by apply elem_of_singleton.
    + rewrite lookup_insert_ne in Hlk' by done.
      pose proof (Hused name' cxt' Hlk' Hp2p) as Hin.
      destruct (decide (BPSContext.op_type cxt' = op_type)) as [Hop|Hop].
      * rewrite Hop in *. rewrite lookup_insert_eq. simpl.
        apply elem_of_union. by right.
      * by rewrite lookup_insert_ne.
  - intros name1 name2 cxt1 cxt2 Hlk1 Hlk2 Hne Hop Hp2p.
    destruct (decide (name1 = tn)) as [->|Hne1];
      destruct (decide (name2 = tn)) as [->|Hne2]; [done| | |].
    + rewrite lookup_insert_eq in Hlk1. rewrite lookup_insert_ne in Hlk2 by done.
      inversion Hlk1; subst; simpl in *.
      intros Heq. apply (Hother name2 cxt2 Hlk2); [done|by rewrite <- Hop|done].
    + rewrite lookup_insert_eq in Hlk2. rewrite lookup_insert_ne in Hlk1 by done.
      inversion Hlk2; subst; simpl in *.
      apply (Hother name1 cxt1 Hlk1); done.
    + rewrite lookup_insert_ne in Hlk1, Hlk2 by done.
      by apply (Hdist name1 name2).
Qed.

Lemma DeclareTensor_keys_consistent_witness :
  exists G' k,
    DeclareTensor (initial_global 1) "grad" PUSH_PULL_OP 7 (-1) = Ret (G', k) /\
    keys_consistent G'.
Proof.
  eexists _, _. split; [vm_compute; reflexivity|].
  eapply (DeclareTensor_keys_consistent (initial_global 1) _ "grad"
            PUSH_PULL_OP 7 (-1)).
  - apply keys_consistent_initial.
  - lia.
  - vm_compute. reflexivity.
Defined.

(** The theorem after ["a"] took the provided key 0: ["b"] gets key 1. *)
Lemma DeclareTensor_generated_key_witness :
  exists G' k,
    DeclareTensor sample_declared_global "b" PUSH_PULL_OP (-1) (-1) = Ret (G', k) /\
    (default 0 (next_keys_ sample_declared_global !! PUSH_PULL_OP) <= k) /\
    (k ∉ default (∅ : gset Z) (used_keys_ sample_declared_global !! PUSH_PULL_OP)) /\
    (forall j, default 0 (next_keys_ sample_declared_global !! PUSH_PULL_OP) <= j < k ->
               j ∈ default (∅ : gset Z)
                     (used_keys_ sample_declared_global !! PUSH_PULL_OP)) /\
    next_keys_ G' !! PUSH_PULL_OP = Some (k + 1) /\
    used_keys_ G' !! PUSH_PULL_OP
      = Some ({[k]} ∪ default (∅ : gset Z)
                        (used_keys_ sample_declared_global !! PUSH_PULL_OP)) /\
    declared_key_of G' (session_tensor_name "b" (-1)) = Some k.
Proof.
  apply (DeclareTensor_generated_key sample_declared_global "b" PUSH_PULL_OP (-1)).
  - reflexivity.
  - vm_compute. discriminate.
  - vm_compute. reflexivity.
Defined.

(** X3. A tensor declared with a provided key cannot be declared again
    after [Shutdown]: the contexts are gone but the key is still marked as
    used, so the same declaration aborts on its check. *)
Theorem DeclareTensor_provided_key_after_Shutdown (G G1 : BytePSGlobal)
    (name : string) (op_type : OperationType) (provided_key session k : Z) :
  _name_to_cxt G !! session_tensor_name name session = None ->
  provided_key <> -1 ->
  DeclareTensor G name op_type provided_key session = Ret (G1, k) ->
  DeclareTensor (Shutdown G1) name op_type provided_key session
    = Fail CheckFailed.
Proof.
  intros Hnew Hpk. unfold DeclareTensor. rewrite Hnew.
  destruct (Z.eqb_spec provided_key (-1)) as [|_]; [done|].
  destruct (negb (bool_decide (provided_key ∈ _))); simpl; [|done].
  intros [= <- <-]. simpl. rewrite lookup_empty, lookup_insert_eq. simpl.
  rewrite bool_decide_eq_true_2; [done|].
  apply elem_of_union. left. by apply elem_of_singleton.
Qed.

Lemma DeclareTensor_provided_key_after_Shutdown_witness :
  DeclareTensor (Shutdown sample_declared_global) "a" PUSH_PULL_OP 0 (-1)
    = Fail CheckFailed.
Proof.
  apply (DeclareTensor_provided_key_after_Shutdown (initial_global 1)
           sample_declared_global "a" PUSH_PULL_OP 0 (-1) 0).
  - reflexivity.
  - lia.
  - vm_compute. reflexivity.
Defined.

(** One replayed declaration: it returns while there is key room, leaves
    the remembered names alone, uses at most one unit of room and touches
    the registration of its own name only. *)
Lemma DeclareTensor_replay_step (G : BytePSGlobal) (name : string) :
  name ∈ _declared_tensors G ->
  push_pull_key_room G < INT32_MAX ->
  exists G1 k,
    DeclareTensor G name PUSH_PULL_OP (-1) (-1) = Ret (G1, k) /\
    _declared_tensors G1 = _declared_tensors G /\
    push_pull_key_room G1 <= push_pull_key_room G + 1 /\
    (exists cxt,
       _name_to_cxt G1 !! c_str name = Some cxt /\
       (_name_to_cxt G !! c_str name = Some cxt \/
        _name_to_cxt G !! c_str name = None /\
        BPSContext.op_type cxt = PUSH_PULL_OP /\
        BPSContext.initialized cxt = false)) /\
    (forall n, n <> c_str name -> _name_to_cxt G1 !! n = _name_to_cxt G !! n).
Proof.
  intros Hin Hroom. unfold DeclareTensor.
  change (session_tensor_name name (-1)) with (c_str name).
  destruct (_name_to_cxt G !! c_str name) as [cxt|] eqn:Hlk.
  { eexists _, _. split; [reflexivity|].
    split_and!; [done|lia| |done]. exists cxt. split; [done|by left]. }
  change (-1 =? -1) with true. cbv iota.
  unfold push_pull_key_room in *.
  set (used := default (∅ : gset Z) (used_keys_ G !! PUSH_PULL_OP)) in *.
  set (c := default 0 (next_keys_ G !! PUSH_PULL_OP)) in *.
  assert (size (above used c) <= size used)%nat as Hsz.
  { apply subseteq_size. by intros k [_ ?]%elem_of_filter. }
  destruct (next_free_key_returns used (size used) c) as (k & Hk & Hpot);
    [lia|lia|].
  rewrite Hk. cbn [obind].
  eexists _, _. split; [reflexivity|]. cbn.
  rewrite bool_decide_eq_true_2 by done.
  split_and!.
  - done.
  - rewrite !lookup_insert_eq. cbn. rewrite above_insert by lia. lia.
  - eexists. rewrite lookup_insert_eq. split; [done|]. right. done.
  - intros n Hn. by rewrite lookup_insert_ne.
Qed.

Lemma ReDeclareTensor_loop_spec : forall (names : list string) (G : BytePSGlobal),
  (forall name, name ∈ names -> name ∈ _declared_tensors G) ->
  push_pull_key_room G + Z.of_nat (length names) <= INT32_MAX ->
  exists G',
    ReDeclareTensor_loop G names = Ret G' /\
    _declared_tensors G' = _declared_tensors G /\
    (forall n cxt, _name_to_cxt G !! n = Some cxt ->
                   _name_to_cxt G' !! n = Some cxt) /\
    (forall name, name ∈ names ->
                  exists cxt, _name_to_cxt G' !! c_str name = Some cxt) /\
    (forall n cxt,
       _name_to_cxt G' !! n = Some cxt ->
       _name_to_cxt G !! n = Some cxt \/
       (exists name, name ∈ names /\ n = c_str name) /\
       BPSContext.op_type cxt = PUSH_PULL_OP /\
       BPSContext.initialized cxt = false).
Proof.
  induction names as [|name names IH]; intros G Hsub Hroom.
  - exists G. split_and!; try done.
    + intros name Hin. by apply elem_of_nil in Hin.
    + intros n cxt Hlk. by left.
  - simpl in Hroom.
    destruct (DeclareTensor_replay_step G name)
      as (G1 & k & HD & Hdecl & Hroom1 & (cxt0 & Hlk0 & Hfrom) & Hframe).
    { apply Hsub. by left. }
    { lia. }
    destruct (IH G1) as (G' & HL & Hdecl' & Hkeep & Hreg & Hnew).
    { intros n Hn. rewrite Hdecl. apply Hsub. by right. }
    { lia. }
    exists G'. simpl. rewrite HD. cbn [obind].
    split_and!.
    + done.
    + by rewrite Hdecl', Hdecl.
    + intros n cxt Hlk. apply Hkeep.
      destruct (decide (n = c_str name)) as [->|Hne].
      * destruct Hfrom as [Hsame|[Hnone _]]; congruence.
      * by rewrite Hframe.
    + intros name' [->|Hin]%elem_of_cons.
      * exists cxt0. by apply Hkeep.
      * by apply Hreg.
    + intros n cxt Hlk.
      destruct (Hnew n cxt Hlk) as [Hold|((name' & Hin & ->) & Hop & Hini)].
      * destruct (decide (n = c_str name)) as [->|Hne].
        -- rewrite Hlk0 in Hold. inversion Hold; subst.
           destruct Hfrom as [Hsame|(Hnone & Hop & Hini)]; [by left|].
           right. split_and!; [|done|done]. exists name. split; [by left|done].
        -- left. by rewrite <- Hframe.
      * right. split_and!; [|done|done]. exists name'. split; [by right|done].
Qed.

(** X4. After [Shutdown], [ReDeclareTensor] returns whenever the used
    push-pull keys and the remembered names together stay below the largest
    [int32_t]; it leaves the remembered names as they are and registers, for
    each of them, a fresh (uninitialised) push-pull context under the name up
    to its first NUL, and registers nothing else. *)
Theorem ReDeclareTensor_registers_names (G : BytePSGlobal) :
  Z.of_nat (size (default (∅ : gset Z) (used_keys_ G !! PUSH_PULL_OP)))
    + Z.of_nat (length (_declared_tensors G)) <= INT32_MAX ->
  exists G',
    ReDeclareTensor (Shutdown G) = Ret G' /\
    _declared_tensors G' = _declared_tensors G /\
    (forall name, name ∈ _declared_tensors G ->
       exists cxt,
         _name_to_cxt G' !! c_str name = Some cxt /\
         BPSContext.op_type cxt = PUSH_PULL_OP /\
         BPSContext.initialized cxt = false) /\
    (forall n cxt, _name_to_cxt G' !! n = Some cxt ->
       exists name, name ∈ _declared_tensors G /\ n = c_str name).
Proof.
  intros Hroom. unfold ReDeclareTensor.
  destruct (ReDeclareTensor_loop_spec (_declared_tensors (Shutdown G)) (Shutdown G))
    as (G' & HL & Hdecl & _ & Hreg & Hnew).
  { done. }
  { unfold push_pull_key_room. simpl. rewrite lookup_empty. simpl.
    set (used := default (∅ : gset Z) (used_keys_ G !! PUSH_PULL_OP)) in *.
    assert (size (above used 0) <= size used)%nat.
    { apply subseteq_size. by intros k [_ ?]%elem_of_filter. }
    lia. }
  exists G'. split_and!; [done|done| |].
  - intros name Hin. destruct (Hreg name Hin) as (cxt & Hlk).
    exists cxt. split; [done|].
    destruct (Hnew _ _ Hlk) as [Hold|(_ & Hop & Hini)]; [|done].
    simpl in Hold. by rewrite lookup_empty in Hold.
  - intros n cxt Hlk.
    destruct (Hnew _ _ Hlk) as [Hold|(Hname & _)]; [|done].
    simpl in Hold. by rewrite lookup_empty in Hold.
Qed.

Lemma ReDeclareTensor_registers_names_witness :
  exists G',
    ReDeclareTensor (Shutdown sample_declared_global) = Ret G' /\
    _declared_tensors G' = _declared_tensors sample_declared_global /\
    (forall name, name ∈ _declared_tensors sample_declared_global ->
       exists cxt,
         _name_to_cxt G' !! c_str name = Some cxt /\
         BPSContext.op_type cxt = PUSH_PULL_OP /\
         BPSContext.initialized cxt = false) /\
    (forall n cxt, _name_to_cxt G' !! n = Some cxt ->
       exists name, name ∈ _declared_tensors sample_declared_global /\ n = c_str name).
Proof.
  apply (ReDeclareTensor_registers_names sample_declared_global).
  vm_compute. discriminate.
Defined.

(** ** P2P declarations *)

(** X5. The keys of a send/recv pair count up: a first declaration for a
    pair returns only for distinct sender and receiver and takes the value
    of the pair's counter; the next new name of the pair gets the next key;
    declaring the first name again, with whatever ranks, returns its key and
    changes nothing; the counters of other pairs are untouched. *)
Theorem DeclareP2PTensor_consecutive_keys (G G1 : BytePSGlobal)
    (name1 name2 : string) (sender receiver k1 : Z) :
  _name_to_cxt G !! name1 = None ->
  _name_to_cxt G !! name2 = None ->
  name1 <> name2 ->
  0 <= default 0 (p2p_next_keys_ G !! send_recv_pair sender receiver) < 2 ^ 31 - 1 ->
  DeclareP2PTensor G name1 sender receiver = Ret (G1, k1) ->
  sender <> receiver /\
  k1 = default 0 (p2p_next_keys_ G !! send_recv_pair sender receiver) /\
  (exists G2, DeclareP2PTensor G1 name2 sender receiver = Ret (G2, k1 + 1)) /\
  (forall sender' receiver',
     DeclareP2PTensor G1 name1 sender' receiver' = Ret (G1, k1)) /\
  (forall pair, pair <> send_recv_pair sender receiver ->
     p2p_next_keys_ G1 !! pair = p2p_next_keys_ G !! pair).
Proof.
  intros Hnew1 Hnew2 Hne Hnext. unfold DeclareP2PTensor. rewrite Hnew1.
  destruct (Z.eqb_spec sender receiver) as [|Hsr]; [done|]. cbn.
  set (next := default 0 (p2p_next_keys_ G !! send_recv_pair sender receiver)) in *.
  intros [= <- <-]. cbn.
  rewrite (i32_small next) by lia.
  split_and!; [done|done| | |].
  - rewrite lookup_insert_ne by done. rewrite Hnew2.
    destruct (Z.eqb_spec sender receiver) as [|_]; [done|]. cbn.
    rewrite lookup_insert_eq. cbn.
    rewrite (u32_small (next + 1)) by lia.
    rewrite (i32_small (next + 1)) by lia.
    eexists. reflexivity.
  - intros sender' receiver'. by rewrite lookup_insert_eq.
  - intros pair Hpair. by rewrite lookup_insert_ne.
Qed.

Lemma DeclareP2PTensor_consecutive_keys_witness :
  (0 : Z) <> 1 /\
  0 = default 0 (p2p_next_keys_ (initial_global 2) !! send_recv_pair 0 1) /\
  (exists G2, DeclareP2PTensor sample_p2p_global "p1" 0 1 = Ret (G2, 0 + 1)) /\
  (forall sender' receiver',
     DeclareP2PTensor sample_p2p_global "p0" sender' receiver'
       = Ret (sample_p2p_global, 0)) /\
  (forall pair, pair <> send_recv_pair 0 1 ->
     p2p_next_keys_ sample_p2p_global !! pair
       = p2p_next_keys_ (initial_global 2) !! pair).
Proof.
  apply (DeclareP2PTensor_consecutive_keys (initial_global 2) sample_p2p_global
           "p0" "p1" 0 1 0).
  - reflexivity.
  - reflexivity.
  - discriminate.
  - vm_compute. split; [discriminate|reflexivity].
  - vm_compute. reflexivity.
Defined.

(** Below 2^15 senders and 2^16 receivers the pair index is the number
    [sender * 2^16 + receiver]. *)
Lemma send_recv_pair_small sender receiver :
  0 <= sender < 2 ^ 15 -> 0 <= receiver < 2 ^ 16 ->
  send_recv_pair sender receiver = sender * 2 ^ 16 + receiver.
Proof.
  intros Hs Hr. unfold send_recv_pair.
  rewrite (i32_small (sender * 2 ^ 16)) by lia. apply i32_small. lia.
Qed.

(** X6. Pairs of ranks below 2^15 (sender) and 2^16 (receiver) do not share
    a key counter: a declaration for one pair leaves the key that a
    declaration for another pair returns unchanged. *)
Theorem DeclareP2PTensor_pairs_independent (G G1 : BytePSGlobal)
    (name name' : string) (sender receiver sender' receiver' k : Z) :
  0 <= sender < 2 ^ 15 -> 0 <= receiver < 2 ^ 16 ->
  0 <= sender' < 2 ^ 15 -> 0 <= receiver' < 2 ^ 16 ->
  (sender, receiver) <> (sender', receiver') ->
  name' <> name ->
  DeclareP2PTensor G name sender receiver = Ret (G1, k) ->
  send_recv_pair sender receiver <> send_recv_pair sender' receiver' /\
  returned_key (DeclareP2PTensor G1 name' sender' receiver')
    = returned_key (DeclareP2PTensor G name' sender' receiver').
Proof.
  intros Hs Hr Hs' Hr' Hpair Hname HD.
  assert (send_recv_pair sender receiver <> send_recv_pair sender' receiver')
    as Hne.
  { rewrite !send_recv_pair_small by done. intros Heq.
    apply Hpair. f_equal; lia. }
  split; [done|]. revert HD. unfold DeclareP2PTensor at 1.
  destruct (_name_to_cxt G !! name) as [cxt|] eqn:Hlk.
  { by intros [= <- <-]. }
  destruct (negb (sender =? receiver)); [|done].
  intros [= <- <-]. unfold DeclareP2PTensor. cbn.
  rewrite lookup_insert_ne by done.
  destruct (_name_to_cxt G !! name') as [cxt'|]; [done|].
  destruct (negb (sender' =? receiver')); [|done]. cbn.
  by rewrite lookup_insert_ne.
Qed.

Lemma DeclareP2PTensor_pairs_independent_witness :
  send_recv_pair 0 1 <> send_recv_pair 1 0 /\
  returned_key (DeclareP2PTensor sample_p2p_global "q0" 1 0)
    = returned_key (DeclareP2PTensor (initial_global 2) "q0" 1 0).
Proof.
  apply (DeclareP2PTensor_pairs_independent (initial_global 2) sample_p2p_global
           "p0" "q0" 0 1 1 0 0); try lia; try discriminate.
  vm_compute. reflexivity.
Defined.

(** Past 2^16 receivers two pairs do share a counter. *)
Example send_recv_pair_collision : send_recv_pair 0 65536 = send_recv_pair 1 0.
Proof. reflexivity. Qed.

(** ** Lookups *)

(** X7. A declared tensor is found under its session name, with the key the
    declaration returned; a first declaration leaves an uninitialised context
    of the declared operation type with no keys; other names are found, or
    not found, as before; and after [Shutdown] no name is found. *)
Theorem GetContextFromName_after_DeclareTensor (G G' : BytePSGlobal)
    (name : string) (op_type : OperationType) (provided_key session k : Z) :
  DeclareTensor G name op_type provided_key session = Ret (G', k) ->
  (exists cxt,
     GetContextFromName G' (session_tensor_name name session) = Ret cxt /\
     BPSContext.declared_key cxt = k /\
     (_name_to_cxt G !! session_tensor_name name session = None ->
      BPSContext.op_type cxt = op_type /\
      BPSContext.initialized cxt = false /\
      BPSContext.tensor_name cxt = session_tensor_name name session /\
      BPSContext.base_tensor_name cxt = c_str name /\
      BPSContext.key_list cxt = [])) /\
  (forall n, n <> session_tensor_name name session ->
     GetContextFromName G' n = GetContextFromName G n) /\
  (forall n, GetContextFromName (Shutdown G') n = Fail CheckFailed).
Proof.
  unfold DeclareTensor, GetContextFromName.
  destruct (_name_to_cxt G !! session_tensor_name name session) as [cxt|] eqn:Hlk.
  - intros [= <- <-]. rewrite Hlk. split_and!; [|done|].
    + exists cxt. split_and!; done.
    + intros n. simpl. by rewrite lookup_empty.
  - destruct (if provided_key =? -1 then _ else _) as [[pk nk]|];
      cbn [obind]; [|done].
    intros [= <- <-]. cbn. split_and!.
    + rewrite lookup_insert_eq. eexists. split_and!; done.
    + intros n Hn. by rewrite lookup_insert_ne.
    + intros n. by rewrite lookup_empty.
Qed.

Lemma GetContextFromName_after_DeclareTensor_witness :
  (exists cxt,
     GetContextFromName sample_declared_global (session_tensor_name "a" (-1))
       = Ret cxt /\
     BPSContext.declared_key cxt = 0 /\
     (_name_to_cxt (initial_global 1) !! session_tensor_name "a" (-1) = None ->
      BPSContext.op_type cxt = PUSH_PULL_OP /\
      BPSContext.initialized cxt = false /\
      BPSContext.tensor_name cxt = session_tensor_name "a" (-1) /\
      BPSContext.base_tensor_name cxt = c_str "a" /\
      BPSContext.key_list cxt = [])) /\
  (forall n, n <> session_tensor_name "a" (-1) ->
     GetContextFromName sample_declared_global n
       = GetContextFromName (initial_global 1) n) /\
  (forall n, GetContextFromName (Shutdown sample_declared_global) n
             = Fail CheckFailed).
Proof.
  apply (GetContextFromName_after_DeclareTensor (initial_global 1)
           sample_declared_global "a" PUSH_PULL_OP 0 (-1) 0).
  vm_compute. reflexivity.
Defined.

(** ** Key encoding: load accounting, memo entries, server choice *)

Lemma i32_range z : - 2 ^ 31 <= i32 z < 2 ^ 31.
Proof.
  unfold i32. pose proof (Z.mod_pos_bound (z + 2 ^ 31) (2 ^ 32) ltac:(lia)). lia.
Qed.

Lemma sum_insert (l : list Z) : forall (i : nat) (a b : Z),
  l !! i = Some a ->
  foldr Z.add 0 (<[i := b]> l) = foldr Z.add 0 l - a + b.
Proof.
  induction l as [|x l IH]; intros [|i] a b Hlk; simpl in *; try done.
  - inversion Hlk; subst. lia.
  - rewrite (IH i a b Hlk). lia.
Qed.

Lemma vec_idx_Ret {A} (v : list A) (i : Z) (a : A) :
  vec_idx v i = Ret a -> 0 <= i /\ v !! Z.to_nat i = Some a.
Proof.
  unfold vec_idx. destruct (Z.ltb_spec i 0); [done|].
  destruct (v !! Z.to_nat i); [|done]. by intros [= ->].
Qed.

Section KeyEncoderLoad.
Context (dangling_c_str : Z -> string) (_built_in_hash_fn : string -> Z)
        (_built_in_hash_coefficient : Z) (Hash_Mixed_Mode : Z -> outcome Z).

Local Abbreviation Encode :=
  (EncodeDefaultKey dangling_c_str _built_in_hash_fn
     _built_in_hash_coefficient Hash_Mixed_Mode).

(** X8. The length of a routing key is counted once, at its first
    encoding: a call for a key that is already memoized leaves the load
    counters alone, a first encoding adds [len] to the total (in 64 bits),
    and in both cases the per-server counters still add up to the total. *)
Theorem EncodeDefaultKey_load_accounting g G G' K len pskv :
  load_consistent G ->
  Encode g G K len = Ret (G', pskv) ->
  load_consistent G' /\
  _total_accumulated_len G'
    = (if is_memoized G K then _total_accumulated_len G
       else u64 (_total_accumulated_len G + len)) /\
  (is_memoized G K = true ->
   _server_accumulated_len G' = _server_accumulated_len G).
Proof.
  unfold load_consistent, is_memoized, EncodeDefaultKey. intros Hload.
  destruct (PSKV.keys (default PSKV.empty (ps_kv_ G !! K))) as [|k0 ks].
  - destruct (0 <? i32 (Z.of_nat (length (_server_key_ranges g)))); [|done].
    destruct (pick_server _ _ _ _ _ _) as [server|]; cbn [obind]; [|done].
    destruct (vec_idx (_server_accumulated_len G) server) as [acc|] eqn:Hacc;
      cbn [obind]; [|done].
    destruct (vec_idx (_server_key_ranges g) server) as [kr|]; cbn [obind]; [|done].
    destruct (_ <? snd kr); [|done].
    intros [= <- <-]. cbn. split_and!; [|done|done].
    apply vec_idx_Ret in Hacc as [_ Hacc].
    rewrite (sum_insert _ _ acc _ Hacc). rewrite <- Hload. unfold u64.
    rewrite Zplus_mod_idemp_l, Zplus_mod_idemp_r. f_equal. lia.
  - destruct ((0 <? len) && _).
    + destruct (PSKV.lens _); [done|]. intros [= <- <-]. done.
    + intros [= <- <-]. done.
Qed.

Lemma load_consistent_initial n : load_consistent (initial_global n).
Proof.
  unfold load_consistent. simpl. induction n as [|n IH]; simpl; [done|].
  by rewrite Z.add_0_l.
Qed.

(** X9. Every memo entry holds exactly one encoded key and one length,
    equal to its size; [EncodeDefaultKey] keeps it so, stores the entry it
    returns under the routing key, and after a call with a length that fits
    an [int] the entry records that length, while a call with length 0
    leaves the recorded length of a memoized key alone. *)
Theorem EncodeDefaultKey_single_entry g G G' K len pskv :
  ps_kv_single G ->
  Encode g G K len = Ret (G', pskv) ->
  ps_kv_single G' /\
  ps_kv_ G' !! K = Some pskv /\
  (0 < len < 2 ^ 31 -> PSKV.lens pskv = [len] /\ PSKV.size pskv = len) /\
  (len = 0 -> is_memoized G K = true -> ps_kv_ G !! K = Some pskv).
Proof.
  unfold is_memoized, EncodeDefaultKey. intros Hsingle.
  destruct (ps_kv_ G !! K) as [p0|] eqn:Hlk; cbn [from_option id]; cbv zeta.
  - destruct (Hsingle K p0 Hlk) as (k & l & Hk & Hl & Hs & Hrange).
    rewrite Hk, Hl, Hs.
    destruct (Z.ltb_spec 0 len) as [Hpos|Hnpos]; cbn [andb].
    + destruct (Z.eqb_spec (u64 l) len) as [Heq|Hne]; cbn [negb].
      * intros [= <- <-]. split_and!; [done|done| |lia].
        intros Hlen.
        assert (l = len) as <-; [|done].
        destruct (Z.lt_ge_cases l 0) as [Hneg|Hge].
        -- assert (u64 l = l + 2 ^ 64) as Hw; [|lia].
           unfold u64. symmetry. apply (Z.mod_unique_pos _ _ (-1)); lia.
        -- rewrite u64_small in Heq by lia. done.
      * intros [= <- <-]. unfold ps_kv_single, set_ps_kv. cbn. split_and!.
        -- intros key p. destruct (decide (key = K)) as [->|Hkey].
           ++ rewrite lookup_insert_eq. intros [= <-]. cbn.
              exists k, (i32 len). split_and!; try done; apply i32_range.
           ++ rewrite lookup_insert_ne by done. apply Hsingle.
        -- by rewrite lookup_insert_eq.
        -- intros Hlen. by rewrite i32_small by lia.
        -- lia.
    + intros [= <- <-]. split_and!; [done|done|lia|done].
  - simpl.
    destruct (0 <? i32 (Z.of_nat (length (_server_key_ranges g)))); [|done].
    destruct (pick_server _ _ _ _ _ _) as [server|]; cbn [obind]; [|done].
    destruct (vec_idx (_server_accumulated_len G) server) as [acc|];
      cbn [obind]; [|done].
    destruct (vec_idx (_server_key_ranges g) server) as [kr|]; cbn [obind]; [|done].
    destruct (_ <? snd kr); [|done].
    intros [= <- <-]. unfold ps_kv_single, set_ps_kv, set_accumulated_len.
    cbn. split_and!.
    + intros key p. destruct (decide (key = K)) as [->|Hkey].
      * rewrite lookup_insert_eq. intros [= <-]. cbn.
        eexists _, _. split_and!; try done; apply i32_range.
      * rewrite lookup_insert_ne by done. apply Hsingle.
    + by rewrite lookup_insert_eq.
    + intros Hlen. by rewrite i32_small by lia.
    + done.
Qed.

Lemma ps_kv_single_initial n : ps_kv_single (initial_global n).
Proof. intros key pskv Hlk. simpl in Hlk. by rewrite lookup_empty in Hlk. Qed.

Lemma fold_left_nonneg (f : Z -> Z -> Z) (l : list Z) : forall h,
  (forall h c, 0 <= f h c) -> 0 <= h -> 0 <= fold_left f l h.
Proof.
  induction l as [|c l IH]; intros h Hf Hh; simpl; [done|].
  apply IH; [done|apply Hf].
Qed.

Lemma Hash_DJB2_nonneg key : 0 <= Hash_DJB2 dangling_c_str key.
Proof.
  unfold Hash_DJB2. apply fold_left_nonneg; [|lia].
  intros h c. apply u64_range.
Qed.

Lemma Hash_SDBM_nonneg key : 0 <= Hash_SDBM dangling_c_str key.
Proof.
  unfold Hash_SDBM. apply fold_left_nonneg; [|lia].
  intros h c. apply u64_range.
Qed.

(** With a modulo setting of the hash knob the server of a new key is the
    hash modulo the number of servers, an index below that number. *)
Lemma pick_server_modulo g key num_servers H :
  modulo_hash dangling_c_str _built_in_hash_fn _built_in_hash_coefficient
    (_hash_knob g) = Some H ->
  0 < num_servers < 2 ^ 31 ->
  pick_server dangling_c_str _built_in_hash_fn _built_in_hash_coefficient
    Hash_Mixed_Mode g key num_servers = Ret (H key mod num_servers) /\
  0 <= H key mod num_servers < num_servers.
Proof.
  intros Hknob Hn. unfold modulo_hash, pick_server in *.
  assert (0 <= H key) as Hnonneg.
  { repeat case_match; simplify_eq.
    - apply u64_range.
    - apply u64_range.
    - apply Hash_DJB2_nonneg.
    - apply Hash_SDBM_nonneg. }
  pose proof (Z.mod_pos_bound (H key) num_servers ltac:(lia)) as Hb.
  split; [|done].
  repeat case_match; simplify_eq; by rewrite i32_small by lia.
Qed.

(** X10. The first encoding of a routing key under a modulo setting of the
    hash knob (naive, built_in, djb2, sdbm), with one load counter per
    server: the server is the hash modulo the number of servers, the hash
    being taken of the key (naive) or of the characters that the hash
    function finds behind its pointer into the destroyed temporary
    (built_in, djb2, sdbm; the digits of the key only while that storage
    is intact); the call
    returns exactly when the server's range start plus the routing key stays
    below the range end, and then the one encoded key is that sum, the
    length is recorded and the server's load grows by [len]; otherwise the
    call aborts on its check. *)
Theorem EncodeDefaultKey_first_encoding g G K len H b e acc :
  modulo_hash dangling_c_str _built_in_hash_fn _built_in_hash_coefficient
    (_hash_knob g) = Some H ->
  0 < Z.of_nat (length (_server_key_ranges g)) < 2 ^ 31 ->
  is_memoized G K = false ->
  _server_key_ranges g
    !! Z.to_nat (H K mod Z.of_nat (length (_server_key_ranges g))) = Some (b, e) ->
  _server_accumulated_len G
    !! Z.to_nat (H K mod Z.of_nat (length (_server_key_ranges g))) = Some acc ->
  (u64 (b + K) < e ->
   exists G',
     Encode g G K len
       = Ret (G', PSKV.mk (PSKV.keys (default PSKV.empty (ps_kv_ G !! K))
                             ++ [u64 (b + K)])
                          (PSKV.lens (default PSKV.empty (ps_kv_ G !! K))
                             ++ [i32 len])
                          (i32 len)) /\
     PSKV.keys (default PSKV.empty (ps_kv_ G !! K)) = [] /\
     _server_accumulated_len G'
       !! Z.to_nat (H K mod Z.of_nat (length (_server_key_ranges g)))
       = Some (u64 (acc + len))) /\
  (e <= u64 (b + K) -> Encode g G K len = Fail CheckFailed).
Proof.
  intros Hknob Hn Hmemo Hkr Hacc.
  set (n := Z.of_nat (length (_server_key_ranges g))) in *.
  destruct (pick_server_modulo g K n H Hknob Hn) as (Hpick & Hs).
  unfold is_memoized in Hmemo. unfold EncodeDefaultKey.
  destruct (PSKV.keys (default PSKV.empty (ps_kv_ G !! K))) as [|? ?] eqn:Hkeys;
    [|done].
  fold n. rewrite (i32_small n) by lia.
  destruct (Z.ltb_spec 0 n) as [_|]; [|lia].
  rewrite Hpick. cbn [obind].
  unfold vec_idx. destruct (Z.ltb_spec (H K mod n) 0) as [|_]; [lia|].
  rewrite Hacc, Hkr. cbn [obind fst snd].
  split.
  - intros Hlt. destruct (Z.ltb_spec (u64 (b + K)) e) as [_|]; [|lia].
    eexists. split; [reflexivity|]. split; [done|]. cbn.
    apply list_lookup_insert_eq. by apply lookup_lt_Some in Hacc.
  - intros Hge. destruct (Z.ltb_spec (u64 (b + K)) e) as [|_]; [lia|done].
Qed.
End KeyEncoderLoad.

Lemma EncodeDefaultKey_load_accounting_witness :
  exists G' pskv,
    sample_EncodeDefaultKey sample_config
      (initial_global 2) 197632 4096000 = Ret (G', pskv) /\
    load_consistent G' /\
    _total_accumulated_len G'
      = (if is_memoized (initial_global 2) 197632
         then _total_accumulated_len (initial_global 2)
         else u64 (_total_accumulated_len (initial_global 2) + 4096000)) /\
    (is_memoized (initial_global 2) 197632 = true ->
     _server_accumulated_len G' = _server_accumulated_len (initial_global 2)).
Proof.
  eexists _, _. split; [vm_compute; reflexivity|].
  eapply (EncodeDefaultKey_load_accounting sample_c_str sample_hash_fn 1
            sample_Hash_Mixed_Mode sample_config (initial_global 2) _
            197632 4096000).
  - apply load_consistent_initial.
  - vm_compute. reflexivity.
Defined.

Lemma EncodeDefaultKey_single_entry_witness :
  exists G' pskv,
    sample_EncodeDefaultKey sample_config
      (initial_global 2) 197632 4096000 = Ret (G', pskv) /\
    ps_kv_single G' /\
    ps_kv_ G' !! 197632 = Some pskv /\
    (0 < 4096000 < 2 ^ 31 ->
     PSKV.lens pskv = [4096000] /\ PSKV.size pskv = 4096000) /\
    (4096000 = 0 -> is_memoized (initial_global 2) 197632 = true ->
     ps_kv_ (initial_global 2) !! 197632 = Some pskv).
Proof.
  eexists _, _. split; [vm_compute; reflexivity|].
  eapply (EncodeDefaultKey_single_entry sample_c_str sample_hash_fn 1
            sample_Hash_Mixed_Mode sample_config (initial_global 2) _
            197632 4096000).
  - apply ps_kv_single_initial.
  - vm_compute. reflexivity.
Defined.

Lemma EncodeDefaultKey_first_encoding_witness :
  (u64 (2 ^ 63 + 197632) < 2 ^ 64 - 1 ->
   exists G',
     sample_EncodeDefaultKey sample_config
       (initial_global 2) 197632 4096000
       = Ret (G', PSKV.mk
                    (PSKV.keys (default PSKV.empty
                                  (ps_kv_ (initial_global 2) !! 197632))
                       ++ [u64 (2 ^ 63 + 197632)])
                    (PSKV.lens (default PSKV.empty
                                  (ps_kv_ (initial_global 2) !! 197632))
                       ++ [i32 4096000])
                    (i32 4096000)) /\
     PSKV.keys (default PSKV.empty (ps_kv_ (initial_global 2) !! 197632)) = [] /\
     _server_accumulated_len G'
       !! Z.to_nat (Hash_DJB2 sample_c_str 197632
                    mod Z.of_nat (length (_server_key_ranges sample_config)))
       = Some (u64 (0 + 4096000))) /\
  (2 ^ 64 - 1 <= u64 (2 ^ 63 + 197632) ->
   sample_EncodeDefaultKey sample_config
     (initial_global 2) 197632 4096000 = Fail CheckFailed).
Proof.
  apply (EncodeDefaultKey_first_encoding sample_c_str sample_hash_fn 1
           sample_Hash_Mixed_Mode sample_config (initial_global 2)
           197632 4096000 (Hash_DJB2 sample_c_str) (2 ^ 63) (2 ^ 64 - 1) 0).
  - reflexivity.
  - vm_compute. split; reflexivity.
  - reflexivity.
  - vm_compute. reflexivity.
  - vm_compute. reflexivity.
Defined.

(** ** [PartitionTensor]: every field of every partition *)

Lemma partition_name_nonempty (name suffix : string) :
  String.eqb (name +:+ "_" +:+ suffix) "" = false.
Proof. by destruct name. Qed.

(** What one round of the loop builds, whatever the operation type. *)
Lemma partition_entry_fields (uninitialized_key : Z -> Z) g ctx entry size
    bound accumulated i e :
  0 < bound < 2 ^ 32 -> size < 2 ^ 64 -> 0 <= accumulated < size ->
  partition_entry uninitialized_key g ctx entry size bound accumulated i = Ret e ->
  tensor_name e = tensor_name entry +:+ "_" +:+ pretty i /\
  key e = uninitialized_key i /\
  len e = Z.min bound (size - accumulated) /\
  offset e = u32 accumulated /\
  context e = context entry /\ tensor e = tensor entry /\
  output e = output entry /\ priority e = priority entry /\
  version e = version entry /\ device e = device entry /\
  gpu_ptr e = gpu_ptr entry /\ queue_list e = queue_list entry /\
  total_partnum e = total_partnum entry /\
  compressor e = match BPSContext.compressor_list ctx with
                 | [] => None
                 | _ => BPSContext.compressor_list ctx !! Z.to_nat i
                 end.
Proof.
  intros Hbound Hsize Hacc. unfold partition_entry.
  destruct (if decide _ then _ else _) as [buff|]; cbn [obind]; [|done].
  destruct (BPSContext.compressor_list ctx) as [|c0 cl] eqn:Hcl; cbn [obind].
  - intros [= <-]. cbn. split_and!; try done.
    rewrite u64_small by lia.
    destruct (Z.gtb_spec (size - accumulated) bound); rewrite u32_small; lia.
  - unfold vec_idx. destruct (i <? 0); [done|].
    destruct ((c0 :: cl) !! Z.to_nat i) as [c|] eqn:Hlk; cbn [obind]; [|done].
    intros [= <-]. cbn. split_and!; try done.
    rewrite u64_small by lia.
    destruct (Z.gtb_spec (size - accumulated) bound); rewrite u32_small; lia.
Qed.

Section PartitionBody.
Context (uninitialized_key : Z -> Z).
Context (g : Config) (ctx : BPSContext.t) (entry : TensorTableEntry).
Context (size bound : Z).
Hypothesis Hbound : 0 < bound < 2 ^ 32.
Hypothesis Hsize : size < 2 ^ 64.

(** The loop in terms of its body: while the body returns, partition [j] is
    the body's result at offset [accumulated + j * bound] and index
    [i + j]. *)
Lemma PartitionTensor_loop_body fuel : forall accumulated i partitions,
  0 <= accumulated <= size -> 0 <= i ->
  i + ceil_div (size - accumulated) bound < 2 ^ 31 ->
  (Z.to_nat (ceil_div (size - accumulated) bound) <= fuel)%nat ->
  (forall j, 0 <= j < ceil_div (size - accumulated) bound ->
     exists e, partition_entry uninitialized_key g ctx entry size bound
                 (accumulated + j * bound) (i + j) = Ret e) ->
  exists new,
    PartitionTensor_loop uninitialized_key fuel g ctx entry size bound
      accumulated i partitions
      = Ret (partitions ++ new) /\
    Z.of_nat (length new) = ceil_div (size - accumulated) bound /\
    (forall (j : nat) e, new !! j = Some e ->
       partition_entry uninitialized_key g ctx entry size bound
         (accumulated + Z.of_nat j * bound) (i + Z.of_nat j) = Ret e).
Proof.
  induction fuel as [|fuel IH]; intros accumulated i partitions Hacc Hi Hint Hfuel Hbody.
  - assert (accumulated = size) as ->.
    { destruct (Z.eq_dec accumulated size); [done|].
      pose proof (ceil_div_pos (size - accumulated) bound). lia. }
    exists []. simpl. rewrite Z.ltb_irrefl, app_nil_r, Z.sub_diag.
    rewrite ceil_div_zero by lia. split_and!; done.
  - simpl. destruct (Z.ltb_spec accumulated size) as [Hlt|Hge].
    + pose proof (ceil_div_pos (size - accumulated) bound ltac:(lia) ltac:(lia)) as Hpos.
      destruct (Hbody 0 ltac:(lia)) as (e & He).
      rewrite Z.mul_0_l, !Z.add_0_r in He. rewrite He. cbn [obind].
      assert (0 <= accumulated < size) as Hin by lia.
      destruct (partition_entry_fields _ _ _ _ _ _ _ _ _ Hbound Hsize Hin He)
        as (_ & _ & Hlen & _).
      assert (u64 (accumulated + len e) = accumulated + len e) as ->
        by (apply u64_small; lia).
      rewrite (i32_small (i + 1)) by lia.
      assert (ceil_div (size - (accumulated + len e)) bound
              = ceil_div (size - accumulated) bound - 1) as Hceil.
      { rewrite (ceil_div_step (size - accumulated)) by lia.
        destruct (Z.le_gt_cases (size - accumulated) bound).
        - replace (size - (accumulated + len e)) with 0 by lia.
          replace (size - accumulated - bound) with (size - accumulated - bound) by lia.
          rewrite ceil_div_zero by lia.
          assert (ceil_div (size - accumulated - bound) bound = 0); [|lia].
          unfold ceil_div. apply Z.div_small. lia.
        - replace (size - (accumulated + len e))
            with (size - accumulated - bound) by lia. lia. }
      destruct (IH (accumulated + len e) (i + 1) (partitions ++ [e]))
        as (new & -> & Hcount & Hnth).
      { lia. }
      { lia. }
      { lia. }
      { lia. }
      { intros j Hj. rewrite Hceil in Hj.
        destruct (Hbody (j + 1) ltac:(lia)) as (e' & He').
        exists e'. rewrite <- He'. f_equal; [|lia].
        assert (len e = bound); [|lia].
        destruct (Z.le_gt_cases (size - accumulated) bound) as [Hle|]; [|lia].
        rewrite (ceil_div_small (size - accumulated)) in Hj by lia. lia. }
      exists (e :: new). rewrite <- app_assoc. split; [done|].
      split; [simpl length; lia|].
      intros [|j] e' Hj; simpl in Hj.
      * inversion Hj; subst. by rewrite Z.mul_0_l, !Z.add_0_r.
      * specialize (Hnth j e' Hj). rewrite <- Hnth. f_equal; [|lia].
        assert (len e = bound); [|lia].
        destruct (Z.le_gt_cases (size - accumulated) bound) as [Hle|]; [|lia].
        apply lookup_lt_Some in Hj.
        rewrite Hceil, (ceil_div_small (size - accumulated)) in Hcount by lia. lia.
    + assert (accumulated = size) as -> by lia.
      exists []. rewrite app_nil_r, Z.sub_diag, ceil_div_zero by lia.
      split_and!; done.
Qed.

(** When the body first fails at round [j0], so does the loop. *)
Lemma PartitionTensor_loop_fails fuel : forall accumulated i partitions j0 f,
  0 <= accumulated <= size -> 0 <= i ->
  i + ceil_div (size - accumulated) bound < 2 ^ 31 ->
  (Z.to_nat (ceil_div (size - accumulated) bound) <= fuel)%nat ->
  0 <= j0 < ceil_div (size - accumulated) bound ->
  (forall j, 0 <= j < j0 ->
     exists e, partition_entry uninitialized_key g ctx entry size bound
                 (accumulated + j * bound) (i + j) = Ret e) ->
  partition_entry uninitialized_key g ctx entry size bound
    (accumulated + j0 * bound) (i + j0)
    = Fail f ->
  PartitionTensor_loop uninitialized_key fuel g ctx entry size bound
    accumulated i partitions
    = Fail f.
Proof.
  induction fuel as [|fuel IH];
    intros accumulated i partitions j0 f Hacc Hi Hint Hfuel Hj0 Hbody Hfail.
  - lia.
  - simpl. destruct (Z.ltb_spec accumulated size) as [Hlt|Hge].
    2:{ assert (accumulated = size) as -> by lia.
        rewrite Z.sub_diag, ceil_div_zero in Hj0 by lia. lia. }
    destruct (Z.eq_dec j0 0) as [->|Hnz].
    { rewrite Z.mul_0_l, !Z.add_0_r in Hfail. by rewrite Hfail. }
    destruct (Hbody 0 ltac:(lia)) as (e & He).
    rewrite Z.mul_0_l, !Z.add_0_r in He. rewrite He. cbn [obind].
    assert (0 <= accumulated < size) as Hin by lia.
    destruct (partition_entry_fields _ _ _ _ _ _ _ _ _ Hbound Hsize Hin He)
      as (_ & _ & Hlen & _).
    assert (u64 (accumulated + len e) = accumulated + len e) as ->
      by (apply u64_small; lia).
    rewrite (i32_small (i + 1)) by lia.
    assert (bound < size - accumulated) as Hmore.
    { destruct (Z.le_gt_cases (size - accumulated) bound) as [Hle|]; [|lia].
      rewrite (ceil_div_small (size - accumulated)) in Hj0 by lia. lia. }
    assert (len e = bound) as Hb by lia.
    apply (IH _ _ _ (j0 - 1) f).
    + lia.
    + lia.
    + rewrite (ceil_div_step (size - accumulated)) in Hint by lia.
      replace (size - (accumulated + len e)) with (size - accumulated - bound) by lia.
      lia.
    + rewrite (ceil_div_step (size - accumulated)) in Hfuel by lia.
      replace (size - (accumulated + len e)) with (size - accumulated - bound) by lia.
      pose proof (ceil_div_nonneg (size - accumulated - bound) bound). lia.
    + rewrite (ceil_div_step (size - accumulated)) in Hj0 by lia.
      replace (size - (accumulated + len e)) with (size - accumulated - bound) by lia.
      lia.
    + intros j Hj. destruct (Hbody (j + 1) ltac:(lia)) as (e' & He').
      exists e'. rewrite <- He'. f_equal; lia.
    + rewrite <- Hfail. f_equal; lia.
Qed.
End PartitionBody.

(** The partitions of a push-pull tensor, field by field. *)
Lemma PartitionTensor_push_pull_fields (uninitialized_key : Z -> Z)
    (g : Config) (ctx : BPSContext.t)
    (entry : TensorTableEntry) (N : Z) (fuel : nat) :
  BPSContext.op_type ctx = PUSH_PULL_OP ->
  entry_size entry = Ret N ->
  0 < _partition_bytes g < 2 ^ 32 ->
  ceil_div N (_partition_bytes g) < 2 ^ 31 ->
  (Z.to_nat (ceil_div N (_partition_bytes g)) <= fuel)%nat ->
  compressors_cover ctx (ceil_div N (_partition_bytes g)) ->
  exists partitions,
    PartitionTensor uninitialized_key fuel g ctx entry [] = Ret partitions /\
    Z.of_nat (length partitions) = ceil_div N (_partition_bytes g) /\
    (forall (j : nat) e, partitions !! j = Some e ->
       partition_entry uninitialized_key g ctx entry N (_partition_bytes g)
         (Z.of_nat j * _partition_bytes g) (Z.of_nat j) = Ret e /\
       Z.of_nat j * _partition_bytes g < N /\
       cpubuff e = cpubuff entry).
Proof.
  intros Hop Hsz HB Hint Hfuel Hcover.
  pose proof (entry_size_range _ _ Hsz) as HR.
  unfold PartitionTensor. rewrite Hsz. cbn [obind].
  destruct (PartitionTensor_loop_body uninitialized_key g ctx entry N
              (_partition_bytes g) HB
              ltac:(lia) fuel 0 0 []) as (new & Hloop & Hlen & Hnth).
  { lia. }
  { lia. }
  { by rewrite Z.sub_0_r. }
  { by rewrite Z.sub_0_r. }
  { intros j Hj. rewrite Z.sub_0_r in Hj. unfold partition_entry.
    destruct (decide _) as [_|Hne]; [|done]. cbn [obind].
    rewrite (compressor_read ctx (0 + j)).
    - cbn [obind]. by eexists.
    - destruct Hcover as [|[Hc _]]; [by left|right; lia]. }
  rewrite Z.sub_0_r in *. simpl in Hloop. exists new.
  split; [done|]. split; [done|].
  intros j e Hj. specialize (Hnth j e Hj). rewrite !Z.add_0_l in Hnth.
  split; [done|].
  apply lookup_lt_Some in Hj.
  pose proof (ceil_div_bounds N (_partition_bytes g) ltac:(lia)).
  split; [nia|].
  revert Hnth. unfold partition_entry.
  destruct (decide _) as [_|Hne]; [|done]. cbn [obind].
  destruct (match BPSContext.compressor_list ctx with [] => _ | _ :: _ => _ end);
    cbn [obind]; [|done].
  by intros [= <-].
Qed.

(** X11. The partitions of a push-pull tensor of [N] bytes, for a context
    with no compressors or one per partition, tile the tensor in order:
    partition [j] is named [name_j], starts at byte [j * B] (kept in 32
    bits, so exact for tensors of up to 4 GiB), ends within the tensor and
    where partition [j + 1] starts, carries the entry's staging buffer and,
    when the context has compressors, compressor [j]; its key is not
    assigned: it holds what the new entry held. *)
Theorem PartitionTensor_layout (uninitialized_key : Z -> Z) (g : Config)
    (ctx : BPSContext.t) (entry : TensorTableEntry) (N : Z) (fuel : nat) :
  BPSContext.op_type ctx = PUSH_PULL_OP ->
  entry_size entry = Ret N ->
  0 < _partition_bytes g < 2 ^ 32 ->
  ceil_div N (_partition_bytes g) < 2 ^ 31 ->
  (Z.to_nat (ceil_div N (_partition_bytes g)) <= fuel)%nat ->
  compressors_cover ctx (ceil_div N (_partition_bytes g)) ->
  exists partitions,
    PartitionTensor uninitialized_key fuel g ctx entry [] = Ret partitions /\
    Z.of_nat (length partitions) = ceil_div N (_partition_bytes g) /\
    (forall (j : nat) e, partitions !! j = Some e ->
       tensor_name e = tensor_name entry +:+ "_" +:+ pretty (Z.of_nat j) /\
       key e = uninitialized_key (Z.of_nat j) /\
       offset e = u32 (Z.of_nat j * _partition_bytes g) /\
       (N <= 2 ^ 32 ->
        offset e = Z.of_nat j * _partition_bytes g /\
        offset e + len e = Z.min N ((Z.of_nat j + 1) * _partition_bytes g)) /\
       cpubuff e = cpubuff entry /\
       match BPSContext.compressor_list ctx with
       | [] => compressor e = None
       | _ :: _ =>
           exists c, BPSContext.compressor_list ctx !! j = Some c /\
                     compressor e = Some c
       end).
Proof.
  intros Hop Hsz HB Hint Hfuel Hcover.
  pose proof (entry_size_range _ _ Hsz) as HR.
  destruct (PartitionTensor_push_pull_fields uninitialized_key g ctx entry N
              fuel Hop Hsz HB Hint Hfuel Hcover)
    as (partitions & HP & Hlen & Hnth).
  exists partitions. split; [done|]. split; [done|].
  intros j e Hj. destruct (Hnth j e Hj) as (He & Hlt & Hbuff).
  assert (0 <= Z.of_nat j * _partition_bytes g < N) as Hin by nia.
  assert (N < 2 ^ 64) as HN64 by lia.
  destruct (partition_entry_fields _ _ _ _ _ _ _ _ _ HB HN64 Hin He)
    as (Hname & Hkey & Hl & Hoff & _ & _ & _ & _ & _ & _ & _ & _ & _ & Hcomp).
  rewrite Nat2Z.id in Hcomp.
  split_and!; try done.
  - intros HN. rewrite Hoff, Hl. rewrite u32_small by lia. split; [done|]. lia.
  - destruct (BPSContext.compressor_list ctx) as [|c0 cl] eqn:Hcl; [done|].
    destruct Hcover as [Hnil|[Hc _]]; [by rewrite Hcl in Hnil|].
    apply lookup_lt_Some in Hj. rewrite Hcl in Hc.
    destruct ((c0 :: cl) !! j) as [c|] eqn:Hlk.
    + by exists c.
    + apply lookup_ge_None in Hlk. lia.
Qed.

(** The theorem at 5,000,000 bytes under the default bound, for a context
    with two compressors. *)
Lemma PartitionTensor_layout_witness :
  exists partitions,
    PartitionTensor sample_uninitialized_key 2 sample_config
      (BPSContext.set_compressor_list (sample_context "w" 0) [7; 8])
      (sample_entry "w" 5000000) [] = Ret partitions /\
    Z.of_nat (length partitions) = ceil_div 5000000 (_partition_bytes sample_config) /\
    (forall (j : nat) e, partitions !! j = Some e ->
       tensor_name e = tensor_name (sample_entry "w" 5000000) +:+ "_"
                         +:+ pretty (Z.of_nat j) /\
       key e = sample_uninitialized_key (Z.of_nat j) /\
       offset e = u32 (Z.of_nat j * _partition_bytes sample_config) /\
       (5000000 <= 2 ^ 32 ->
        offset e = Z.of_nat j * _partition_bytes sample_config /\
        offset e + len e
          = Z.min 5000000 ((Z.of_nat j + 1) * _partition_bytes sample_config)) /\
       cpubuff e = cpubuff (sample_entry "w" 5000000) /\
       exists c, [7; 8] !! j = Some c /\ compressor e = Some c).
Proof.
  apply (PartitionTensor_layout sample_uninitialized_key sample_config
           (BPSContext.set_compressor_list (sample_context "w" 0) [7; 8])
           (sample_entry "w" 5000000) 5000000 2).
  - reflexivity.
  - reflexivity.
  - simpl. lia.
  - vm_compute. reflexivity.
  - vm_compute. lia.
  - right. vm_compute. split; [discriminate|reflexivity].
Defined.

Lemma vec_at_lookup {A} (v : list A) (j : nat) :
  vec_at v (Z.of_nat j)
  = match v !! j with Some a => Ret a | None => Fail OutOfRange end.
Proof.
  unfold vec_at. destruct (Z.ltb_spec (Z.of_nat j) 0); [lia|].
  by rewrite Nat2Z.id.
Qed.

(** The body for an operation other than push-pull, without input-copy
    skipping: the staging buffer is [cpubuff_list.at(i)]. *)
Lemma partition_entry_staging (uninitialized_key : Z -> Z) g ctx entry size
    bound accumulated i (j : nat) :
  BPSContext.op_type ctx <> PUSH_PULL_OP ->
  _should_skip_input_copy g = false ->
  i = Z.of_nat j ->
  BPSContext.compressor_list ctx = [] \/
  i < Z.of_nat (length (BPSContext.compressor_list ctx)) ->
  match BPSContext.cpubuff_list ctx !! j with
  | Some buff =>
      exists e,
        partition_entry uninitialized_key g ctx entry size bound accumulated i
          = Ret e /\
        cpubuff e = buff
  | None =>
      partition_entry uninitialized_key g ctx entry size bound accumulated i
        = Fail OutOfRange
  end.
Proof.
  intros Hop Hskip -> Hcomp. unfold partition_entry.
  destruct (decide _) as [|_]; [done|]. rewrite Hskip. cbn [andb].
  assert ((match tensor entry with
           | Some _ | _ => vec_at (BPSContext.cpubuff_list ctx) (Z.of_nat j)
           end) = vec_at (BPSContext.cpubuff_list ctx) (Z.of_nat j)) as ->
    by (by destruct (tensor entry)).
  rewrite vec_at_lookup.
  destruct (BPSContext.cpubuff_list ctx !! j) as [buff|]; cbn [obind]; [|done].
  rewrite (compressor_read ctx (Z.of_nat j)).
  - cbn [obind]. by eexists.
  - destruct Hcomp as [|Hc]; [by left|right; lia].
Qed.

(** X12. For an operation other than push-pull, without input-copy
    skipping, and a context with no compressors or one per partition,
    partition [j] takes staging buffer [j] of the context: with at least
    ceil(N/B) buffers [PartitionTensor] returns the ceil(N/B) partitions
    with these buffers, and with fewer it throws [std::out_of_range] from
    [cpubuff_list.at]. *)
Theorem PartitionTensor_staging_buffers (uninitialized_key : Z -> Z)
    (g : Config) (ctx : BPSContext.t)
    (entry : TensorTableEntry) (N : Z) (fuel : nat) :
  BPSContext.op_type ctx <> PUSH_PULL_OP ->
  _should_skip_input_copy g = false ->
  entry_size entry = Ret N ->
  0 < _partition_bytes g < 2 ^ 32 ->
  ceil_div N (_partition_bytes g) < 2 ^ 31 ->
  (Z.to_nat (ceil_div N (_partition_bytes g)) <= fuel)%nat ->
  compressors_cover ctx (ceil_div N (_partition_bytes g)) ->
  (ceil_div N (_partition_bytes g)
     <= Z.of_nat (length (BPSContext.cpubuff_list ctx)) ->
   exists partitions,
     PartitionTensor uninitialized_key fuel g ctx entry [] = Ret partitions /\
     Z.of_nat (length partitions) = ceil_div N (_partition_bytes g) /\
     (forall (j : nat) e, partitions !! j = Some e ->
        BPSContext.cpubuff_list ctx !! j = Some (cpubuff e) /\
        len e = Z.min (_partition_bytes g) (N - Z.of_nat j * _partition_bytes g))) /\
  (Z.of_nat (length (BPSContext.cpubuff_list ctx))
     < ceil_div N (_partition_bytes g) ->
   PartitionTensor uninitialized_key fuel g ctx entry [] = Fail OutOfRange).
Proof.
  intros Hop Hskip Hsz HB Hint Hfuel Hcover.
  pose proof (entry_size_range _ _ Hsz) as HR.
  pose proof (ceil_div_bounds N (_partition_bytes g) ltac:(lia)) as Hc.
  assert (N < 2 ^ 64) as HN64 by lia.
  assert (forall i, i < ceil_div N (_partition_bytes g) ->
            BPSContext.compressor_list ctx = [] \/
            i < Z.of_nat (length (BPSContext.compressor_list ctx))) as Hread.
  { intros i Hi. destruct Hcover as [|[? _]]; [by left|right; lia]. }
  unfold PartitionTensor. rewrite Hsz. cbn [obind].
  split.
  - intros Hbuffs.
    destruct (PartitionTensor_loop_body uninitialized_key g ctx entry N
                (_partition_bytes g) HB
                HN64 fuel 0 0 []) as (new & Hloop & Hlen & Hnth).
    { lia. }
    { lia. }
    { by rewrite Z.sub_0_r. }
    { by rewrite Z.sub_0_r. }
    { intros j Hj. rewrite Z.sub_0_r in Hj.
      pose proof (partition_entry_staging uninitialized_key g ctx entry N
                    (_partition_bytes g)
                    (0 + j * _partition_bytes g) (0 + j) (Z.to_nat j) Hop Hskip
                    ltac:(lia) (Hread (0 + j) ltac:(lia))) as Hst.
      destruct (BPSContext.cpubuff_list ctx !! Z.to_nat j) eqn:Hlk.
      - destruct Hst as (e & He & _). by exists e.
      - apply lookup_ge_None in Hlk. lia. }
    rewrite Z.sub_0_r in *. simpl in Hloop. exists new.
    split; [done|]. split; [done|].
    intros j e Hj. specialize (Hnth j e Hj). rewrite !Z.add_0_l in Hnth.
    apply lookup_lt_Some in Hj.
    assert (0 <= Z.of_nat j * _partition_bytes g < N) as Hin by nia.
    destruct (partition_entry_fields _ _ _ _ _ _ _ _ _ HB HN64 Hin Hnth)
      as (_ & _ & Hl & _).
    split; [|lia].
    pose proof (partition_entry_staging uninitialized_key g ctx entry N
                  (_partition_bytes g)
                  (Z.of_nat j * _partition_bytes g) (Z.of_nat j) j Hop Hskip
                  eq_refl (Hread (Z.of_nat j) ltac:(lia))) as Hst.
    destruct (BPSContext.cpubuff_list ctx !! j) eqn:Hlk.
    + destruct Hst as (e' & He' & <-). rewrite He' in Hnth. by inversion Hnth.
    + by rewrite Hst in Hnth.
  - intros Hfew.
    apply (PartitionTensor_loop_fails uninitialized_key g ctx entry N
             (_partition_bytes g) HB HN64
             fuel 0 0 [] (Z.of_nat (length (BPSContext.cpubuff_list ctx)))).
    + lia.
    + lia.
    + by rewrite Z.sub_0_r.
    + by rewrite Z.sub_0_r.
    + rewrite Z.sub_0_r. lia.
    + intros j Hj.
      pose proof (partition_entry_staging uninitialized_key g ctx entry N
                    (_partition_bytes g)
                    (0 + j * _partition_bytes g) (0 + j) (Z.to_nat j) Hop Hskip
                    ltac:(lia) (Hread (0 + j) ltac:(lia))) as Hst.
      destruct (BPSContext.cpubuff_list ctx !! Z.to_nat j) eqn:Hlk.
      * destruct Hst as (e & He & _). by exists e.
      * apply lookup_ge_None in Hlk. lia.
    + pose proof (partition_entry_staging uninitialized_key g ctx entry N
                    (_partition_bytes g)
                    (0 + Z.of_nat (length (BPSContext.cpubuff_list ctx))
                         * _partition_bytes g)
                    (0 + Z.of_nat (length (BPSContext.cpubuff_list ctx)))
                    (length (BPSContext.cpubuff_list ctx))
                    Hop Hskip ltac:(lia)
                    (Hread (0 + Z.of_nat (length (BPSContext.cpubuff_list ctx)))
                           ltac:(lia))) as Hst.
      destruct (BPSContext.cpubuff_list ctx !! length _) eqn:Hlk; [|done].
      apply lookup_lt_Some in Hlk. lia.
Qed.

Lemma PartitionTensor_staging_buffers_witness :
  (exists partitions,
     PartitionTensor sample_uninitialized_key 2 sample_config
                     (sample_p2p_context [100; 200])
                     (sample_entry "p" 5000000) [] = Ret partitions /\
     Z.of_nat (length partitions) = ceil_div 5000000 (_partition_bytes sample_config) /\
     (forall (j : nat) e, partitions !! j = Some e ->
        BPSContext.cpubuff_list (sample_p2p_context [100; 200]) !! j
          = Some (cpubuff e) /\
        len e = Z.min (_partition_bytes sample_config)
                      (5000000 - Z.of_nat j * _partition_bytes sample_config))) /\
  PartitionTensor sample_uninitialized_key 2 sample_config
                  (sample_p2p_context [100])
                  (sample_entry "p" 5000000) [] = Fail OutOfRange.
Proof.
  split.
  - apply (PartitionTensor_staging_buffers sample_uninitialized_key
             sample_config
             (sample_p2p_context [100; 200]) (sample_entry "p" 5000000)
             5000000 2);
      [discriminate|reflexivity|reflexivity|simpl; lia|vm_compute; reflexivity
      |vm_compute; lia|left; reflexivity|vm_compute; discriminate].
  - apply (PartitionTensor_staging_buffers sample_uninitialized_key
             sample_config
             (sample_p2p_context [100]) (sample_entry "p" 5000000)
             5000000 2);
      [discriminate|reflexivity|reflexivity|simpl; lia|vm_compute; reflexivity
      |vm_compute; lia|left; reflexivity|vm_compute; reflexivity].
Defined.

(** ** [EnqueueTensor]: one task per key *)

(** The loop over the partitions: with a key for every partition, named
    partitions and non-empty stage lists, it puts one task per partition on
    the queue of the partition's first stage, in order, and sums the
    lengths. *)
Lemma enqueue_partitions_spec (g : Config) (keys : list Z) :
  forall (partitions : list TensorTableEntry) (i : nat) (accumulated : Z),
    (i + length partitions <= length keys)%nat ->
    (forall (j : nat) e, partitions !! j = Some e ->
       String.eqb (tensor_name e) "" = false /\ queue_list e <> [] /\
       0 <= len e) ->
    0 <= accumulated ->
    accumulated + total_len partitions < 2 ^ 64 ->
    exists evs,
      enqueue_partitions g keys partitions (Z.of_nat i) accumulated
        = Ret (evs, accumulated + total_len partitions) /\
      length evs = length partitions /\
      (forall (j : nat) e, partitions !! j = Some e ->
         exists q k e',
           evs !! j = Some (AddTask q (PushPullTask e')) /\
           keys !! (i + j)%nat = Some k /\
           key e' = k /\
           queue_list e'
             = (if gdr_fast_path g (device e) (len e) then [GDR_V2_PUSH_PULL]
                else queue_list e) /\
           head (queue_list e') = Some q /\
           tensor_name e' = tensor_name e /\ offset e' = offset e /\
           len e' = len e /\ total_partnum e' = total_partnum e /\
           cpubuff e' = cpubuff e /\ compressor e' = compressor e /\
           tensor e' = tensor e /\ output e' = output e /\
           device e' = device e /\ priority e' = priority e /\
           version e' = version e).
Proof.
  induction partitions as [|task rest IH]; intros i accumulated Hkeys Hok Hacc Hsum.
  - exists []. simpl. rewrite Z.add_0_r. split_and!; done.
  - simpl in *.
    destruct (Hok 0%nat task eq_refl) as (Hname & Hql & Hlen).
    unfold vec_idx at 1. destruct (Z.ltb_spec (Z.of_nat i) 0); [lia|].
    rewrite Nat2Z.id.
    destruct (keys !! i) as [k|] eqn:Hk; [|apply lookup_ge_None in Hk; lia].
    cbn [obind]. fold (gdr_fast_path g (device task) (len task)).
    cbn [tensor_name]. rewrite Hname. cbn [negb].
    set (ql := if gdr_fast_path g (device task) (len task)
               then [GDR_V2_PUSH_PULL] else queue_list task).
    assert (exists q, head ql = Some q) as (q & Hq).
    { unfold ql. destruct (gdr_fast_path _ _ _); [by eexists|].
      destruct (queue_list task); [done|by eexists]. }
    assert (vec_idx ql 0 = Ret q) as ->.
    { unfold vec_idx. simpl. by destruct ql; inversion Hq. }
    cbn [obind].
    assert (0 <= total_len rest) as Hrest.
    { clear -Hok. assert (forall (j : nat) e, rest !! j = Some e -> 0 <= len e) as H.
      { intros j e Hj. by apply (Hok (S j) e). }
      clear Hok. induction rest as [|e rest IHr]; simpl; [lia|].
      pose proof (H 0%nat e eq_refl).
      assert (0 <= total_len rest); [|unfold total_len in *; lia].
      apply IHr. intros j e' Hj. by apply (H (S j)). }
    fold (total_len rest) in Hsum.
    rewrite (u64_small (accumulated + len task)) by lia.
    replace (Z.of_nat i + 1) with (Z.of_nat (S i)) by lia.
    destruct (IH (S i) (accumulated + len task)) as (evs & -> & Hlen' & Hnth).
    { lia. }
    { intros j e Hj. by apply (Hok (S j) e). }
    { lia. }
    { lia. }
    cbn [obind]. eexists. split.
    { fold (total_len rest). f_equal. f_equal. lia. }
    split; [simpl; lia|].
    intros [|j] e Hj; simpl in Hj.
    + inversion Hj; subst. exists q, k. eexists. split; [reflexivity|].
      rewrite Nat.add_0_r. split_and!; done.
    + destruct (Hnth j e Hj) as (q' & k' & e' & Hev & Hkey & Hrest').
      exists q', k', e'. split; [done|].
      split; [|done]. by rewrite <- Nat.add_succ_comm.
Qed.

(** Partitions that each take the bound, or what is left, add up to the
    tensor. *)
Lemma total_len_tiles (bound : Z) : 0 < bound ->
  forall (partitions : list TensorTableEntry) (size : Z),
    0 <= size ->
    Z.of_nat (length partitions) = ceil_div size bound ->
    (forall (j : nat) e, partitions !! j = Some e ->
       len e = Z.min bound (size - Z.of_nat j * bound)) ->
    total_len partitions = size.
Proof.
  intros HB. induction partitions as [|e rest IH]; intros size Hsize Hlen Hnth.
  - simpl in *. destruct (Z.eq_dec size 0) as [->|]; [done|].
    pose proof (ceil_div_pos size bound). lia.
  - assert (0 < size) as Hpos.
    { destruct (Z.eq_dec size 0) as [->|]; [|lia].
      rewrite ceil_div_zero in Hlen by lia. simpl in Hlen. lia. }
    pose proof (Hnth 0%nat e eq_refl) as He. simpl in He.
    rewrite Z.sub_0_r in He.
    rewrite (ceil_div_step size) in Hlen by lia.
    simpl. fold (total_len rest).
    destruct (Z.le_gt_cases size bound) as [Hle|Hgt].
    + assert (ceil_div (size - bound) bound = 0) as H0.
      { unfold ceil_div. apply Z.div_small. lia. }
      rewrite H0 in Hlen. destruct rest; [simpl; lia|simpl in Hlen; lia].
    + rewrite (IH (size - bound)); [lia|lia| |].
      * simpl length in Hlen. lia.
      * intros j e' Hj. rewrite (Hnth (S j) e' Hj). f_equal. lia.
Qed.

Section EnqueueTensorFacts.
Context (Telemetry_RecordStart : string -> Z) (uninitialized_key : Z -> Z).
Context (fuel : nat) (g : Config) (G : BytePSGlobal) (ctx : BPSContext.t)
        (t : Tensor) (out : option Tensor)
        (dev prio ver : Z) (ql ql' : list QueueType).
Hypothesis Hrun : _should_shutdown G = false.
Hypothesis Hop : BPSContext.op_type ctx = PUSH_PULL_OP.
Hypothesis Hout : forall o, out = Some o -> t_size o = t_size t.
Hypothesis Hsize : 0 <= t_size t < 2 ^ 64.
Hypothesis Hbound : 0 < _partition_bytes g < 2 ^ 32.
Hypothesis Hint : ceil_div (t_size t) (_partition_bytes g) < 2 ^ 31.
Hypothesis Hfuel :
  (Z.to_nat (ceil_div (t_size t) (_partition_bytes g)) <= fuel)%nat.
Hypothesis Hstages : add_compress_stages g ctx ql = Ret ql'.
Hypothesis Hcover :
  compressors_cover ctx (ceil_div (t_size t) (_partition_bytes g)).

Local Abbreviation N := (t_size t).
Local Abbreviation B := (_partition_bytes g).

(** The context as [EnqueueTensor] leaves it before partitioning. *)
Local Abbreviation ctx1 :=
  (if (dev =? CPU_DEVICE_ID)
      && bool_decide (BPSContext.op_type ctx = PUSH_PULL_OP)
   then BPSContext.set_gpu_ptr ctx 0 else ctx).

Lemma EnqueueTensor_context_fields :
  BPSContext.op_type ctx1 = PUSH_PULL_OP /\
  BPSContext.key_list ctx1 = BPSContext.key_list ctx /\
  BPSContext.compressor_list ctx1 = BPSContext.compressor_list ctx /\
  BPSContext.tensor_name ctx1 = BPSContext.tensor_name ctx /\
  BPSContext.base_tensor_name ctx1 = BPSContext.base_tensor_name ctx /\
  BPSContext.cpubuff ctx1 = BPSContext.cpubuff ctx.
Proof. by destruct (_ && _). Qed.

(** [EnqueueTensor] up to its partition-count check. *)
Lemma EnqueueTensor_to_partitions :
  exists partitions,
    Z.of_nat (length partitions) = ceil_div N B /\
    (forall (j : nat) e, partitions !! j = Some e ->
       tensor_name e
         = BPSContext.tensor_name ctx +:+ "_" +:+ pretty (Z.of_nat j) /\
       offset e = u32 (Z.of_nat j * B) /\
       len e = Z.min B (N - Z.of_nat j * B) /\
       Z.of_nat j * B < N /\
       queue_list e = ql' /\ device e = dev /\
       total_partnum e = u32 (Z.of_nat (length (BPSContext.key_list ctx))) /\
       cpubuff e = BPSContext.cpubuff ctx /\
       tensor e = Some t /\ output e = out /\
       priority e = prio /\ version e = ver /\
       compressor e = match BPSContext.compressor_list ctx with
                      | [] => None
                      | _ => BPSContext.compressor_list ctx !! j
                      end) /\
    EnqueueTensor Telemetry_RecordStart uninitialized_key fuel g G ctx (Some t) out
      dev prio ver ql
    = (check (bool_decide (length (BPSContext.key_list ctx) = length partitions));
       match bool_decide (ql' = []) with
       | true =>
           check (negb (String.eqb (BPSContext.tensor_name ctx) ""));
           Ret (Status_OK, ctx1, ql', [Callback Status_OK])
       | false =>
           let ctx2 :=
             BPSContext.set_op_count ctx1
               (Telemetry_RecordStart (BPSContext.base_tensor_name ctx1)) in
           do (evs, accumulated) <-
             enqueue_partitions g (BPSContext.key_list ctx2) partitions 0 0;
           do k0 <- vec_idx (BPSContext.key_list ctx2) 0;
           check (accumulated =? u64 N);
           Ret (Status_OK, ctx2, ql', evs ++ [RecordCallback k0])
       end).
Proof.
  destruct EnqueueTensor_context_fields
    as (Hop1 & Hkeys1 & Hcomp1 & Hname1 & Hbase1 & Hbuff1).
  unfold EnqueueTensor. rewrite Hrun.
  assert ((match out with
           | Some o =>
               if decide (BPSContext.op_type ctx = PUSH_PULL_OP)
               then t_size t =? t_size o else true
           | None => true
           end) = true) as ->.
  { destruct out as [o|]; [|done]. destruct (decide _); [|done].
    rewrite (Hout o eq_refl). apply Z.eqb_refl. }
  rewrite Hstages. cbn [obind].
  set (e := mkEntry _ _ _ _ _ _ _ _ _ _ _ _ _ _ _).
  destruct (PartitionTensor_push_pull_fields uninitialized_key g ctx1 e N fuel
              Hop1)
    as (partitions & -> & Hlen & Hnth); try done.
  { unfold entry_size, e. cbn. by rewrite u64_small. }
  { unfold compressors_cover. by rewrite Hcomp1. }
  exists partitions. split; [done|]. split.
  - intros j e' Hj. destruct (Hnth j e' Hj) as (He' & Hlt & Hbuff).
    assert (0 <= Z.of_nat j * B < N) as Hin by lia.
    assert (N < 2 ^ 64) as HN64 by lia.
    destruct (partition_entry_fields _ _ _ _ _ _ _ _ _ Hbound HN64 Hin He')
      as (Hn & _ & Hl & Hoff & _ & Ht & Ho & Hp & Hv & Hd & _ & Hq & Htp & Hc).
    rewrite Nat2Z.id, Hcomp1 in Hc.
    unfold e in Hn, Ht, Ho, Hp, Hv, Hd, Hq, Htp, Hbuff.
    cbn [tensor_name tensor output priority version device queue_list
         total_partnum cpubuff] in Hn, Ht, Ho, Hp, Hv, Hd, Hq, Htp, Hbuff.
    rewrite Hkeys1 in Htp. rewrite Hbuff1 in Hbuff.
    by split_and!.
  - cbn [obind]. rewrite Hkeys1.
    destruct (bool_decide (length (BPSContext.key_list ctx) = length partitions));
      [|done].
    destruct (bool_decide (ql' = [])); [done|].
    cbv zeta. unfold entry_size, e. cbn. done.
Qed.
End EnqueueTensorFacts.

(** The tasks of a returning [EnqueueTensor] with a non-empty stage list. *)
Lemma EnqueueTensor_tasks (Telemetry_RecordStart : string -> Z)
    (uninitialized_key : Z -> Z) (fuel : nat) (g : Config)
    (G : BytePSGlobal) (ctx : BPSContext.t)
    (t : Tensor) (out : option Tensor) (dev prio ver : Z)
    (ql ql' : list QueueType) :
  _should_shutdown G = false ->
  BPSContext.op_type ctx = PUSH_PULL_OP ->
  (forall o, out = Some o -> t_size o = t_size t) ->
  0 < t_size t < 2 ^ 64 ->
  0 < _partition_bytes g < 2 ^ 32 ->
  Z.of_nat (length (BPSContext.key_list ctx))
    = ceil_div (t_size t) (_partition_bytes g) ->
  ceil_div (t_size t) (_partition_bytes g) < 2 ^ 31 ->
  (Z.to_nat (ceil_div (t_size t) (_partition_bytes g)) <= fuel)%nat ->
  add_compress_stages g ctx ql = Ret ql' ->
  compressors_cover ctx (ceil_div (t_size t) (_partition_bytes g)) ->
  ql' <> [] ->
  exists ctx' evs k0,
    EnqueueTensor Telemetry_RecordStart uninitialized_key fuel g G ctx (Some t)
      out dev prio ver ql
      = Ret (Status_OK, ctx', ql', evs ++ [RecordCallback k0]) /\
    head (BPSContext.key_list ctx) = Some k0 /\
    length evs = length (BPSContext.key_list ctx) /\
    BPSContext.key_list ctx' = BPSContext.key_list ctx /\
    BPSContext.initialized ctx' = BPSContext.initialized ctx /\
    BPSContext.compressor_list ctx' = BPSContext.compressor_list ctx /\
    (forall (j : nat) k, BPSContext.key_list ctx !! j = Some k ->
       exists q e,
         evs !! j = Some (AddTask q (PushPullTask e)) /\
         key e = k /\
         tensor_name e
           = BPSContext.tensor_name ctx +:+ "_" +:+ pretty (Z.of_nat j) /\
         offset e = u32 (Z.of_nat j * _partition_bytes g) /\
         len e = Z.min (_partition_bytes g)
                       (t_size t - Z.of_nat j * _partition_bytes g) /\
         total_partnum e = Z.of_nat (length (BPSContext.key_list ctx)) /\
         queue_list e = (if gdr_fast_path g dev (len e) then [GDR_V2_PUSH_PULL]
                         else ql') /\
         head (queue_list e) = Some q).
Proof.
  intros Hrun Hop Hout Hsize Hbound Hkeys Hint Hfuel Hstages Hcover Hql.
  destruct (EnqueueTensor_to_partitions Telemetry_RecordStart
              uninitialized_key fuel g G ctx t out
              dev prio ver ql ql' Hrun Hop Hout ltac:(lia) Hbound Hint Hfuel
              Hstages Hcover) as (partitions & Hlen & Hnth & Heq).
  destruct (EnqueueTensor_context_fields ctx dev Hop)
    as (Hop1 & Hkeys1 & Hcomp1 & Hname1 & Hbase1 & Hbuff1).
  rewrite bool_decide_eq_true_2 in Heq by lia.
  rewrite bool_decide_eq_false_2 in Heq by done.
  cbv zeta in Heq. cbn [BPSContext.key_list BPSContext.set_op_count] in Heq.
  rewrite Hkeys1 in Heq.
  assert (total_len partitions = t_size t) as Hsum.
  { apply (total_len_tiles (_partition_bytes g)); [lia|lia|done|].
    intros j e Hj. by destruct (Hnth j e Hj) as (_ & _ & Hl & _). }
  destruct (enqueue_partitions_spec g (BPSContext.key_list ctx) partitions 0 0)
    as (evs & Henq & Hevs & Htasks).
  { simpl. lia. }
  { intros j e Hj. destruct (Hnth j e Hj) as (Hn & _ & Hl & Hlt & Hq & _).
    rewrite Hn, Hq, Hl. split; [apply partition_name_nonempty|].
    split; [done|lia]. }
  { lia. }
  { lia. }
  change (Z.of_nat 0) with 0 in Henq. rewrite Henq in Heq. cbn [obind] in Heq.
  pose proof (ceil_div_pos (t_size t) (_partition_bytes g) ltac:(lia) ltac:(lia)).
  destruct (BPSContext.key_list ctx) as [|k0 keys] eqn:Hkl; [simpl in Hkeys; lia|].
  simpl (vec_idx _ 0) in Heq. cbn [obind] in Heq.
  rewrite Z.add_0_l, Hsum, u64_small, Z.eqb_refl in Heq by lia.
  eexists _, evs, k0. split; [exact Heq|].
  split; [done|]. split; [lia|].
  split; [cbn [BPSContext.key_list BPSContext.set_op_count]; exact Hkeys1|].
  split; [by destruct (_ && _)|].
  split; [by destruct (_ && _)|].
  intros j k Hj.
  destruct (partitions !! j) as [e|] eqn:He.
  2:{ apply lookup_ge_None in He. apply lookup_lt_Some in Hj. simpl in *. lia. }
  destruct (Hnth j e He) as (Hn & Hoff & Hl & _ & Hq & Hd & Htp & _).
  destruct (Htasks j e He)
    as (q & k' & e' & Hev & Hk & Hkey & Hql' & Hhead & Hn' & Hoff' & Hl' & Htp' & _).
  simpl in Hk. rewrite Hj in Hk. inversion Hk; subst k'.
  exists q, e'. split; [done|].
  rewrite Hql', Hq, Hd, Hl in Hhead.
  rewrite Hn', Hoff', Hl', Htp', Hql', Hn, Hoff, Hl, Htp, Hq, Hd.
  split_and!; try done.
  rewrite u32_small; [done|]. lia.
Qed.

(** X13. [EnqueueTensor] on a push-pull context that holds one key per
    partition of the tensor and no compressors or one per partition (as
    [InitTensor] leaves it) and a non-empty stage list: it returns OK and
    puts exactly one task per key on a queue,
    in key order; task [j] carries key [j], the name [name_j], the byte range
    of partition [j] and the number of keys as its partition count, and goes
    to the queue of the first stage, or to [GDR_V2_PUSH_PULL] when the GDR
    fast path applies; the callback is recorded under the first key and is
    not invoked. *)
Theorem EnqueueTensor_one_task_per_key (Telemetry_RecordStart : string -> Z)
    (uninitialized_key : Z -> Z) (fuel : nat) (g : Config)
    (G : BytePSGlobal) (ctx : BPSContext.t)
    (t : Tensor) (out : option Tensor) (dev prio ver : Z)
    (ql ql' : list QueueType) :
  _should_shutdown G = false ->
  BPSContext.op_type ctx = PUSH_PULL_OP ->
  (forall o, out = Some o -> t_size o = t_size t) ->
  0 < t_size t < 2 ^ 64 ->
  0 < _partition_bytes g < 2 ^ 32 ->
  Z.of_nat (length (BPSContext.key_list ctx))
    = ceil_div (t_size t) (_partition_bytes g) ->
  ceil_div (t_size t) (_partition_bytes g) < 2 ^ 31 ->
  (Z.to_nat (ceil_div (t_size t) (_partition_bytes g)) <= fuel)%nat ->
  add_compress_stages g ctx ql = Ret ql' ->
  compressors_cover ctx (ceil_div (t_size t) (_partition_bytes g)) ->
  ql' <> [] ->
  exists ctx' evs k0,
    EnqueueTensor Telemetry_RecordStart uninitialized_key fuel g G ctx (Some t)
      out dev prio ver ql
      = Ret (Status_OK, ctx', ql', evs ++ [RecordCallback k0]) /\
    head (BPSContext.key_list ctx) = Some k0 /\
    length evs = length (BPSContext.key_list ctx) /\
    BPSContext.key_list ctx' = BPSContext.key_list ctx /\
    BPSContext.initialized ctx' = BPSContext.initialized ctx /\
    BPSContext.compressor_list ctx' = BPSContext.compressor_list ctx /\
    (forall (j : nat) k, BPSContext.key_list ctx !! j = Some k ->
       exists q e,
         evs !! j = Some (AddTask q (PushPullTask e)) /\
         key e = k /\
         tensor_name e
           = BPSContext.tensor_name ctx +:+ "_" +:+ pretty (Z.of_nat j) /\
         offset e = u32 (Z.of_nat j * _partition_bytes g) /\
         len e = Z.min (_partition_bytes g)
                       (t_size t - Z.of_nat j * _partition_bytes g) /\
         total_partnum e = Z.of_nat (length (BPSContext.key_list ctx)) /\
         queue_list e = (if gdr_fast_path g dev (len e) then [GDR_V2_PUSH_PULL]
                         else ql') /\
         head (queue_list e) = Some q).
Proof. apply EnqueueTensor_tasks. Qed.

(** X14. With no stage at all (and a named context), [EnqueueTensor]
    enqueues nothing and invokes the callback at once with OK, provided the
    context holds one key per partition of the tensor and no compressors or
    one per partition. *)
Theorem EnqueueTensor_no_stage (Telemetry_RecordStart : string -> Z)
    (uninitialized_key : Z -> Z) (fuel : nat) (g : Config)
    (G : BytePSGlobal) (ctx : BPSContext.t)
    (t : Tensor) (out : option Tensor) (dev prio ver : Z)
    (ql : list QueueType) :
  _should_shutdown G = false ->
  BPSContext.op_type ctx = PUSH_PULL_OP ->
  (forall o, out = Some o -> t_size o = t_size t) ->
  0 <= t_size t < 2 ^ 64 ->
  0 < _partition_bytes g < 2 ^ 32 ->
  Z.of_nat (length (BPSContext.key_list ctx))
    = ceil_div (t_size t) (_partition_bytes g) ->
  ceil_div (t_size t) (_partition_bytes g) < 2 ^ 31 ->
  (Z.to_nat (ceil_div (t_size t) (_partition_bytes g)) <= fuel)%nat ->
  add_compress_stages g ctx ql = Ret [] ->
  compressors_cover ctx (ceil_div (t_size t) (_partition_bytes g)) ->
  BPSContext.tensor_name ctx <> "" ->
  exists ctx',
    EnqueueTensor Telemetry_RecordStart uninitialized_key fuel g G ctx (Some t)
      out dev prio ver ql
      = Ret (Status_OK, ctx', [], [Callback Status_OK]) /\
    BPSContext.key_list ctx' = BPSContext.key_list ctx /\
    BPSContext.initialized ctx' = BPSContext.initialized ctx.
Proof.
  intros Hrun Hop Hout Hsize Hbound Hkeys Hint Hfuel Hstages Hcover Hname.
  destruct (EnqueueTensor_to_partitions Telemetry_RecordStart
              uninitialized_key fuel g G ctx t out
              dev prio ver ql [] Hrun Hop Hout Hsize Hbound Hint Hfuel
              Hstages Hcover) as (partitions & Hlen & Hnth & Heq).
  rewrite bool_decide_eq_true_2 in Heq by lia.
  rewrite bool_decide_eq_true_2 in Heq by done.
  assert (String.eqb (BPSContext.tensor_name ctx) "" = false) as Hne.
  { by apply String.eqb_neq. }
  rewrite Hne in Heq. cbn [negb] in Heq.
  eexists. split; [exact Heq|]. by destruct (_ && _).
Qed.

(** X15. A tensor whose size gives another number of partitions than the
    context has keys (it was initialised with another size, or the tensor is
    empty) makes [EnqueueTensor] abort on its partition-count check: no task
    is enqueued and no callback is invoked.  The context has no compressors
    or at least one per partition; with fewer, the read of
    [compressor_list[i]] in [PartitionTensor] is undefined before the check
    is reached. *)
Theorem EnqueueTensor_partition_mismatch (Telemetry_RecordStart : string -> Z)
    (uninitialized_key : Z -> Z) (fuel : nat) (g : Config)
    (G : BytePSGlobal) (ctx : BPSContext.t)
    (t : Tensor) (out : option Tensor) (dev prio ver : Z)
    (ql ql' : list QueueType) :
  _should_shutdown G = false ->
  BPSContext.op_type ctx = PUSH_PULL_OP ->
  (forall o, out = Some o -> t_size o = t_size t) ->
  0 <= t_size t < 2 ^ 64 ->
  0 < _partition_bytes g < 2 ^ 32 ->
  ceil_div (t_size t) (_partition_bytes g) < 2 ^ 31 ->
  (Z.to_nat (ceil_div (t_size t) (_partition_bytes g)) <= fuel)%nat ->
  add_compress_stages g ctx ql = Ret ql' ->
  compressors_cover ctx (ceil_div (t_size t) (_partition_bytes g)) ->
  Z.of_nat (length (BPSContext.key_list ctx))
    <> ceil_div (t_size t) (_partition_bytes g) ->
  EnqueueTensor Telemetry_RecordStart uninitialized_key fuel g G ctx (Some t)
    out dev prio ver ql
    = Fail CheckFailed.
Proof.
  intros Hrun Hop Hout Hsize Hbound Hint Hfuel Hstages Hcover Hkeys.
  destruct (EnqueueTensor_to_partitions Telemetry_RecordStart
              uninitialized_key fuel g G ctx t out
              dev prio ver ql ql' Hrun Hop Hout Hsize Hbound Hint Hfuel
              Hstages Hcover) as (partitions & Hlen & Hnth & Heq).
  rewrite bool_decide_eq_false_2 in Heq by lia. done.
Qed.

Lemma EnqueueTensor_one_task_per_key_witness :
  exists ctx' evs k0,
    EnqueueTensor sample_RecordStart sample_uninitialized_key 2 sample_config
      (initial_global 1)
      sample_initialized_context (Some (sample_tensor 5000000))
      (Some (sample_tensor 5000000)) 0 0 0
      [REDUCE; COPYD2H; PUSH; PULL; COPYH2D; BROADCAST]
    = Ret (Status_OK, ctx', [REDUCE; COPYD2H; PUSH; PULL; COPYH2D; BROADCAST],
           evs ++ [RecordCallback k0]) /\
    head (BPSContext.key_list sample_initialized_context) = Some k0 /\
    length evs = length (BPSContext.key_list sample_initialized_context) /\
    BPSContext.key_list ctx' = BPSContext.key_list sample_initialized_context /\
    BPSContext.initialized ctx'
      = BPSContext.initialized sample_initialized_context /\
    BPSContext.compressor_list ctx'
      = BPSContext.compressor_list sample_initialized_context /\
    (forall (j : nat) k,
       BPSContext.key_list sample_initialized_context !! j = Some k ->
       exists q e,
         evs !! j = Some (AddTask q (PushPullTask e)) /\
         key e = k /\
         tensor_name e
           = BPSContext.tensor_name sample_initialized_context
               +:+ "_" +:+ pretty (Z.of_nat j) /\
         offset e = u32 (Z.of_nat j * _partition_bytes sample_config) /\
         len e = Z.min (_partition_bytes sample_config)
                       (t_size (sample_tensor 5000000)
                        - Z.of_nat j * _partition_bytes sample_config) /\
         total_partnum e
           = Z.of_nat (length (BPSContext.key_list sample_initialized_context)) /\
         queue_list e
           = (if gdr_fast_path sample_config 0 (len e) then [GDR_V2_PUSH_PULL]
              else [REDUCE; COPYD2H; PUSH; PULL; COPYH2D; BROADCAST]) /\
         head (queue_list e) = Some q).
Proof.
  apply (EnqueueTensor_one_task_per_key sample_RecordStart sample_uninitialized_key
           2 sample_config
           (initial_global 1) sample_initialized_context
           (sample_tensor 5000000) (Some (sample_tensor 5000000)) 0 0 0
           [REDUCE; COPYD2H; PUSH; PULL; COPYH2D; BROADCAST]
           [REDUCE; COPYD2H; PUSH; PULL; COPYH2D; BROADCAST]).
  - reflexivity.
  - reflexivity.
  - intros o [= <-]. reflexivity.
  - vm_compute. split; reflexivity.
  - vm_compute. split; reflexivity.
  - vm_compute. reflexivity.
  - vm_compute. reflexivity.
  - vm_compute. lia.
  - vm_compute. reflexivity.
  - left. reflexivity.
  - discriminate.
Defined.

Lemma EnqueueTensor_no_stage_witness :
  exists ctx',
    EnqueueTensor sample_RecordStart sample_uninitialized_key 2 sample_config
      (initial_global 1)
      sample_initialized_context (Some (sample_tensor 5000000))
      (Some (sample_tensor 5000000)) 0 0 0 []
    = Ret (Status_OK, ctx', [], [Callback Status_OK]) /\
    BPSContext.key_list ctx' = BPSContext.key_list sample_initialized_context /\
    BPSContext.initialized ctx'
      = BPSContext.initialized sample_initialized_context.
Proof.
  apply (EnqueueTensor_no_stage sample_RecordStart sample_uninitialized_key
           2 sample_config
           (initial_global 1) sample_initialized_context
           (sample_tensor 5000000) (Some (sample_tensor 5000000)) 0 0 0 []).
  - reflexivity.
  - reflexivity.
  - intros o [= <-]. reflexivity.
  - vm_compute. split; [discriminate|reflexivity].
  - vm_compute. split; reflexivity.
  - vm_compute. reflexivity.
  - vm_compute. reflexivity.
  - vm_compute. lia.
  - vm_compute. reflexivity.
  - left. reflexivity.
  - vm_compute. discriminate.
Defined.

Lemma EnqueueTensor_partition_mismatch_witness :
  EnqueueTensor sample_RecordStart sample_uninitialized_key 3 sample_config
    (initial_global 1)
    sample_initialized_context (Some (sample_tensor 9000000))
    (Some (sample_tensor 9000000)) 0 0 0
    [REDUCE; COPYD2H; PUSH; PULL; COPYH2D; BROADCAST]
  = Fail CheckFailed.
Proof.
  apply (EnqueueTensor_partition_mismatch sample_RecordStart sample_uninitialized_key
           3 sample_config
           (initial_global 1) sample_initialized_context
           (sample_tensor 9000000) (Some (sample_tensor 9000000)) 0 0 0
           [REDUCE; COPYD2H; PUSH; PULL; COPYH2D; BROADCAST]
           [REDUCE; COPYD2H; PUSH; PULL; COPYH2D; BROADCAST]).
  - reflexivity.
  - reflexivity.
  - intros o [= <-]. reflexivity.
  - vm_compute. split; [discriminate|reflexivity].
  - vm_compute. split; reflexivity.
  - vm_compute. reflexivity.
  - vm_compute. lia.
  - vm_compute. reflexivity.
  - left. reflexivity.
  - vm_compute. discriminate.
Defined.

(** ** The stage lists of push-pull *)

Local Ltac decide_list := apply (bool_decide_unpack _); vm_compute; exact I.

(** X16. On a distributed local root, for a CPU tensor or without GDR
    (the configurations in which [InitTensor] creates compressors), [PUSH]
    is the last push stage and [PULL] the first pull stage; so for a context
    with compressors the rewrite of [EnqueueTensor] is defined on the list
    that [StartTask] builds and wraps the two:
    [... COMPRESS, PUSH, PULL, DECOMPRESS ...]. *)
Theorem push_pull_stages_root (g : Config) (dev : Z) :
  _is_root_device g = true ->
  _is_distributed g = true ->
  dev = CPU_DEVICE_ID \/ _is_gdr g = false ->
  exists a c,
    GetPushQueueList g dev = a ++ [PUSH] /\
    GetPullQueueList g dev = PULL :: c /\
    (PUSH ∉ a) /\ (PULL ∉ a) /\ (PUSH ∉ c) /\ (PULL ∉ c) /\
    forall context,
      BPSContext.compressor_list context <> [] ->
      add_compress_stages g context
        (GetPushQueueList g dev ++ GetPullQueueList g dev)
      = Ret (a ++ [COMPRESS; PUSH; PULL; DECOMPRESS] ++ c).
Proof.
  intros Hroot Hdist Hdev.
  exists (removelast (GetPushQueueList g dev)), (tail (GetPullQueueList g dev)).
  unfold GetPushQueueList, GetPullQueueList, add_compress_stages.
  rewrite Hroot.
  assert ((dev =? CPU_DEVICE_ID) = true \/
          (dev =? CPU_DEVICE_ID) = false /\ _is_gdr g = false) as Hcase.
  { destruct Hdev as [->|Hgdr]; [by left|].
    destruct (dev =? CPU_DEVICE_ID); [by left|by right]. }
  destruct Hcase as [->|[-> ->]].
  - unfold GetPushQueueListCPU, GetPullQueueListCPU. rewrite Hroot, Hdist.
    cbn [orb app removelast tail].
    split_and!; try done; try decide_list.
    intros context Hcomp. rewrite bool_decide_eq_false_2 by done. reflexivity.
  - unfold GetPushQueueListGPU, GetPullQueueListGPU. rewrite Hroot, Hdist.
    destruct (_building_cuda g), (_is_signal_root g), (_is_cross_pcie_switch g);
      cbn [orb app removelast tail];
      (split_and!; try done; try decide_list;
       intros context Hcomp; rewrite bool_decide_eq_false_2 by done;
       reflexivity).
Qed.

Lemma push_pull_stages_root_witness :
  exists a c,
    GetPushQueueList sample_config 0 = a ++ [PUSH] /\
    GetPullQueueList sample_config 0 = PULL :: c /\
    (PUSH ∉ a) /\ (PULL ∉ a) /\ (PUSH ∉ c) /\ (PULL ∉ c) /\
    forall context,
      BPSContext.compressor_list context <> [] ->
      add_compress_stages sample_config context
        (GetPushQueueList sample_config 0 ++ GetPullQueueList sample_config 0)
      = Ret (a ++ [COMPRESS; PUSH; PULL; DECOMPRESS] ++ c).
Proof.
  apply (push_pull_stages_root sample_config 0);
    [reflexivity|reflexivity|right; reflexivity].
Defined.

(** X17. A process that is not the local root never gets a [PUSH] or a
    [PULL] stage, whatever the device and the configuration, and
    [EnqueueTensor] never adds compression stages for it. *)
Theorem push_pull_stages_non_root (g : Config) (dev : Z)
    (context : BPSContext.t) :
  _is_root_device g = false ->
  (PUSH ∉ GetPushQueueList g dev ++ GetPullQueueList g dev) /\
  (PULL ∉ GetPushQueueList g dev ++ GetPullQueueList g dev) /\
  add_compress_stages g context
    (GetPushQueueList g dev ++ GetPullQueueList g dev)
  = Ret (GetPushQueueList g dev ++ GetPullQueueList g dev).
Proof.
  intros Hroot. unfold add_compress_stages. rewrite Hroot. cbn [andb].
  split_and!; [| |done];
    unfold GetPushQueueList, GetPullQueueList, GetPushQueueListCPU,
      GetPullQueueListCPU, GetPushQueueListGDR, GetPullQueueListGDR,
      GetPushQueueListGPU, GetPullQueueListGPU; rewrite Hroot;
    destruct (dev =? CPU_DEVICE_ID), (_is_gdr g), (_building_cuda g),
      (_is_signal_root g), (_is_distributed g), (_is_cross_pcie_switch g),
      (1 <? _num_phy_node g), (_is_gdr_gpu2gpu g);
    decide_list.
Qed.

Lemma push_pull_stages_non_root_witness :
  (PUSH ∉ GetPushQueueList sample_non_root_config 0
          ++ GetPullQueueList sample_non_root_config 0) /\
  (PULL ∉ GetPushQueueList sample_non_root_config 0
          ++ GetPullQueueList sample_non_root_config 0) /\
  add_compress_stages sample_non_root_config
    (BPSContext.set_compressor_list (sample_context "w" 0) [0; 1])
    (GetPushQueueList sample_non_root_config 0
       ++ GetPullQueueList sample_non_root_config 0)
  = Ret (GetPushQueueList sample_non_root_config 0
           ++ GetPullQueueList sample_non_root_config 0).
Proof.
  apply (push_pull_stages_non_root sample_non_root_config 0). reflexivity.
Defined.

(** X18. No stage occurs twice in the list that [StartTask] builds from
    [GetPushQueueList] and [GetPullQueueList], whatever the device and the
    configuration. *)
Theorem push_pull_stages_NoDup (g : Config) (dev : Z) :
  NoDup (GetPushQueueList g dev ++ GetPullQueueList g dev).
Proof.
  unfold GetPushQueueList, GetPullQueueList, GetPushQueueListCPU,
    GetPullQueueListCPU, GetPushQueueListGDR, GetPullQueueListGDR,
    GetPushQueueListGPU, GetPullQueueListGPU.
  destruct (dev =? CPU_DEVICE_ID), (_is_gdr g), (_building_cuda g),
    (_is_signal_root g), (_is_distributed g), (_is_cross_pcie_switch g),
    (_is_root_device g), (1 <? _num_phy_node g), (_is_gdr_gpu2gpu g);
    decide_list.
Qed.

(** ** [InitTensor] and [StartTask]: from a declaration to the queues *)

(** [EncodeDefaultKey] touches neither the name table nor the shutdown
    flag. *)
Lemma encode_calls_keep_tables G G' :
  encode_calls G G' ->
  _name_to_cxt G' = _name_to_cxt G /\ _should_shutdown G' = _should_shutdown G.
Proof.
  induction 1 as [G|G G' G'' c fn coef mixed g key len pskv Hcall _ [IHn IHs]];
    [done|].
  rewrite IHn, IHs. unfold EncodeDefaultKey, obind in Hcall.
  repeat case_match; simplify_eq; done.
Qed.

(** The stage list of [StartTask] can always take the compression stages
    on a distributed local root, for a CPU tensor or without GDR. *)
Lemma add_compress_stages_start_task (g : Config) (dev : Z)
    (context : BPSContext.t) :
  _is_root_device g = true ->
  _is_distributed g = true ->
  dev = CPU_DEVICE_ID \/ _is_gdr g = false ->
  exists ql',
    add_compress_stages g context
      (GetPushQueueList g dev ++ GetPullQueueList g dev) = Ret ql' /\
    ql' <> [].
Proof.
  intros Hroot Hdist Hdev.
  unfold GetPushQueueList, GetPullQueueList, add_compress_stages.
  rewrite Hroot.
  assert ((dev =? CPU_DEVICE_ID) = true \/
          (dev =? CPU_DEVICE_ID) = false /\ _is_gdr g = false) as Hcase.
  { destruct Hdev as [->|Hgdr]; [by left|].
    destruct (dev =? CPU_DEVICE_ID); [by left|by right]. }
  destruct Hcase as [->|[-> ->]].
  - unfold GetPushQueueListCPU, GetPullQueueListCPU. rewrite Hroot, Hdist.
    destruct (bool_decide (BPSContext.compressor_list context = []));
      eexists; (split; [reflexivity|done]).
  - unfold GetPushQueueListGPU, GetPullQueueListGPU. rewrite Hroot, Hdist.
    destruct (_building_cuda g), (_is_signal_root g), (_is_cross_pcie_switch g),
      (bool_decide (BPSContext.compressor_list context = []));
      eexists; (split; [reflexivity|done]).
Qed.

Section InitTensorUse.
Context (Telemetry_RecordStart : string -> Z) (uninitialized_key : Z -> Z)
        (dangling_c_str : Z -> string) (_built_in_hash_fn : string -> Z)
        (_built_in_hash_coefficient : Z) (Hash_Mixed_Mode : Z -> outcome Z)
        (getDataTypeLength : Z -> Z) (openSharedMemory : Z -> Z -> Z)
        (openNumaSharedMemory : Z -> Z -> Z -> Z)
        (openPcieSharedMemory : Z -> Z -> list Z)
        (Serialize_size : list (string * string) -> Z).

Local Abbreviation Init_ :=
  (InitTensor dangling_c_str _built_in_hash_fn _built_in_hash_coefficient
     Hash_Mixed_Mode getDataTypeLength openSharedMemory openNumaSharedMemory
     openPcieSharedMemory Serialize_size).
Local Abbreviation Start_ :=
  (torch.StartTask Telemetry_RecordStart uninitialized_key dangling_c_str
     _built_in_hash_fn _built_in_hash_coefficient Hash_Mixed_Mode
     getDataTypeLength openSharedMemory openNumaSharedMemory
     openPcieSharedMemory Serialize_size).

(** X19. What a returning [InitTensor] has done about compression on the
    first use of a context without compressors.  The keyword arguments of a
    tensor below [_min_compress_bytes] are cleared.  Compressors are created
    exactly when the build has the compressor, the job is distributed, the
    process is the local root, the tensor is on the CPU or GDR is off, the
    tensor has at least [_min_compress_bytes] bytes and the context has
    keyword arguments: then there is exactly one per key, the [i]-th made
    in round [i] of the init-push loop, and in every other case the context
    stays without compressors.  The key loop of the call returns within the
    fuel of one round per partition. *)
Theorem InitTensor_compressors (g : Config) (G : BytePSGlobal)
    (context : BPSContext.t) (size dtype : Z) (on_cpu : bool) (fuel : nat) :
  BPSContext.initialized context = false ->
  BPSContext.compressor_list context = [] ->
  0 < _partition_bytes g < 2 ^ 32 ->
  size < 2 ^ 63 ->
  let creates :=
    _building_compressor g && _is_distributed g && _is_root_device g
    && (on_cpu || negb (_is_gdr g))
    && negb (size <? _min_compress_bytes g)
    && negb (bool_decide (BPSContext.kwargs context = [])) in
  (0 < size ->
   (Z.to_nat (ceil_div size (_partition_bytes g)) <= fuel)%nat ->
   exists key_list,
     key_loop fuel size (_partition_bytes g) 0
       (push_pull_start_key (BPSContext.declared_key context))
       (BPSContext.key_list context)
     = Ret (BPSContext.key_list context ++ key_list)) /\
  forall context' G' evs,
    Init_ fuel g G context size dtype on_cpu = Ret (context', G', evs) ->
    BPSContext.kwargs context'
      = (if size <? _min_compress_bytes g then []
         else BPSContext.kwargs context) /\
    Z.of_nat (length (BPSContext.key_list context'))
      = ceil_div size (_partition_bytes g) /\
    BPSContext.compressor_list context'
      = (if creates then init_compressors (length (BPSContext.key_list context'))
         else []) /\
    length (BPSContext.compressor_list context')
      = (if creates then length (BPSContext.key_list context') else 0%nat).
Proof.
  intros Hinit Hcomp HB Hsize creates. split.
  - intros Hpos Hfuel.
    destruct (key_loop_spec size (_partition_bytes g) fuel ltac:(lia) ltac:(lia)
                0 (push_pull_start_key (BPSContext.declared_key context))
                (BPSContext.key_list context))
      as (kl & Hrun & _); [lia|apply u64_range|by rewrite Z.sub_0_r|].
    by exists kl.
  - intros context' G' evs Hrun.
    destruct (InitTensor_returns _ _ _ _ _ _ _ _ _ _ _ _ _ _ _ _ _ _ _
                Hinit Hrun)
      as (kl & Hpos & _ & _ & Hcount & _ & _ & Hkeys & _ & _ & _ & _ & Hkw
          & Hc & _).
    rewrite Hkeys, Hkw, Hc, Hcomp. cbn [app].
    split; [done|]. split.
    { rewrite Hcount, u64_small by lia. done. }
    assert ((_is_distributed g
             && (_is_root_device g && (on_cpu || negb (_is_gdr g)))
             && (_building_compressor g
                 && negb (bool_decide
                            ((if size <? _min_compress_bytes g then []
                              else BPSContext.kwargs context) = []))))
            = creates) as ->.
    { unfold creates.
      destruct (_building_compressor g), (_is_distributed g),
        (_is_root_device g), (on_cpu || negb (_is_gdr g)),
        (size <? _min_compress_bytes g); cbn [andb negb];
        rewrite ?andb_false_r; done. }
    destruct creates; [|done].
    split; [done|]. unfold init_compressors.
    by rewrite length_fmap, length_seq.
Qed.

(** X20. [StartTask] on a freshly declared push-pull tensor whose
    initialisation returns: the context is found and initialised, which on
    a process that does the init push encodes and pushes the keys (a run of
    [EncodeDefaultKey] calls on the tables, only blocking pushes as events)
    and elsewhere leaves the tables as they are; the context then holds one
    key per partition, counting up from the start key of its declared key,
    and the tensor is enqueued on the push stages followed by the pull
    stages.  The call returns OK with the context updated in the table; after
    the pushes of the initialisation, with an empty stage list the callback
    is invoked at once, otherwise exactly one task per key is enqueued, task
    [j] with key [j], and the callback is recorded under the first key. *)
Theorem StartTask_enqueues (fuel : nat) (g : Config) (G : BytePSGlobal)
    (context : BPSContext.t) (tensor_ output_ : Tensor) (dev : Z)
    (name : string) (ver prio : Z)
    (context1 : BPSContext.t) (G1 : BytePSGlobal) (init_evs : list event) :
  _should_shutdown G = false ->
  _name_to_cxt G !! name = Some context ->
  BPSContext.initialized context = false ->
  BPSContext.key_list context = [] ->
  BPSContext.compressor_list context = [] ->
  BPSContext.op_type context = PUSH_PULL_OP ->
  BPSContext.tensor_name context <> "" ->
  t_size output_ = t_size tensor_ ->
  0 < t_size tensor_ < 2 ^ 63 ->
  0 < _partition_bytes g < 2 ^ 32 ->
  ceil_div (t_size tensor_) (_partition_bytes g) < 2 ^ 31 ->
  (Z.to_nat (ceil_div (t_size tensor_) (_partition_bytes g)) <= fuel)%nat ->
  let on_cpu := (dev =? CPU_DEVICE_ID) && negb (t_data tensor_ =? 0) in
  Init_ fuel g G context (t_size tensor_) (t_dtype tensor_) on_cpu
    = Ret (context1, G1, init_evs) ->
  exists context' ql' enq_evs,
    Start_ fuel g G tensor_ output_ dev name ver prio
    = Ret (Status_OK,
           set_name_to_cxt G1 (<[name := context']> (_name_to_cxt G)),
           init_evs ++ enq_evs) /\
    encode_calls G G1 /\
    Forall (fun ev => is_ZPush ev = true) init_evs /\
    (_is_distributed g && (_is_root_device g && (on_cpu || negb (_is_gdr g)))
       = false -> G1 = G /\ init_evs = []) /\
    BPSContext.initialized context' = true /\
    Z.of_nat (length (BPSContext.key_list context'))
      = ceil_div (t_size tensor_) (_partition_bytes g) /\
    (forall (j : nat) k,
       BPSContext.key_list context' !! j = Some k ->
       k = u64 (push_pull_start_key (BPSContext.declared_key context)
                + Z.of_nat j)) /\
    add_compress_stages g context'
      (GetPushQueueList g dev ++ GetPullQueueList g dev) = Ret ql' /\
    (ql' = [] -> enq_evs = [Callback Status_OK]) /\
    (ql' <> [] ->
     exists tasks k0,
       enq_evs = tasks ++ [RecordCallback k0] /\
       head (BPSContext.key_list context') = Some k0 /\
       length tasks = length (BPSContext.key_list context') /\
       forall (j : nat) k,
         BPSContext.key_list context' !! j = Some k ->
         exists q e,
           tasks !! j = Some (AddTask q (PushPullTask e)) /\
           key e = k /\
           len e = Z.min (_partition_bytes g)
                         (t_size tensor_ - Z.of_nat j * _partition_bytes g) /\
           head (queue_list e) = Some q).
Proof.
  intros Hrun Hlk Hinit Hkl Hcomp Hop Hname Hout Hsize HB Hint Hfuel on_cpu Hret.
  destruct (InitTensor_returns _ _ _ _ _ _ _ _ _ _ _ _ _ _ _ _ _ _ _
              Hinit Hret)
    as (kl & _ & Hklrun & _ & _ & _ & Hinit1 & Hkeys & _ & Hname1 & _ & Hop1
        & _ & Hcomp1 & Hcalls & Hnopush & Hpush).
  rewrite Hkl in Hklrun.
  destruct (key_loop_spec (t_size tensor_) (_partition_bytes g) fuel
              ltac:(lia) ltac:(lia) 0
              (push_pull_start_key (BPSContext.declared_key context)) [])
    as (kl' & Hrun' & Hlen & Hnth);
    [lia|apply u64_range|by rewrite Z.sub_0_r|].
  rewrite Z.sub_0_r in Hlen. cbn [app] in Hrun'.
  rewrite Hklrun in Hrun'. inversion Hrun'; subst kl'. clear Hrun'.
  destruct (encode_calls_keep_tables _ _ Hcalls) as [Hnt Hss].
  rewrite Hrun in Hss.
  unfold torch.StartTask, GetContextFromName. rewrite Hlk. cbn [obind].
  rewrite (u64_small (t_size tensor_)) by lia.
  fold on_cpu. rewrite Hret. cbn [obind]. rewrite Hnt.
  rewrite Hop in Hop1. rewrite Hcomp in Hcomp1. cbn [app] in Hcomp1.
  rewrite <- Hkeys in Hlen, Hnth.
  set (stages := GetPushQueueList g dev ++ GetPullQueueList g dev) in *.
  assert (compressors_cover context1
            (ceil_div (t_size tensor_) (_partition_bytes g))) as Hcover.
  { unfold compressors_cover. rewrite Hcomp1.
    match goal with
    | |- context [if ?b then _ else _] => destruct b; [|by left]
    end.
    right.
    unfold init_compressors. rewrite length_fmap, length_seq, <- Hkeys. lia. }
  assert (exists ql', add_compress_stages g context1 stages = Ret ql' /\
                      (ql' = [] -> BPSContext.compressor_list context1 = []))
    as (ql' & Hstages & Hempty).
  { destruct (BPSContext.compressor_list context1) as [|c cs] eqn:Hc1.
    - exists stages. split; [|done]. unfold add_compress_stages.
      rewrite Hc1. rewrite bool_decide_eq_true_2 by done.
      by rewrite andb_false_r.
    - destruct (_is_distributed g) eqn:Hdist, (_is_root_device g) eqn:Hroot;
        cbn [andb] in Hcomp1; try done.
      destruct (add_compress_stages_start_task g dev context1 Hroot Hdist)
        as (ql' & Hq & Hne).
      + destruct (Z.eqb_spec dev CPU_DEVICE_ID) as [|Hdev]; [by left|].
        right. unfold on_cpu in Hcomp1.
        destruct (Z.eqb_spec dev CPU_DEVICE_ID) as [|_]; [done|].
        cbn [andb orb] in Hcomp1.
        destruct (_is_gdr g); [|done]. done.
      + exists ql'. split; [done|]. done. }
  assert (forall o, Some output_ = Some o -> t_size o = t_size tensor_) as Hout'.
  { by intros o [= <-]. }
  rewrite <- Hname1 in Hname.
  destruct (decide (ql' = [])) as [->|Hne].
  - destruct (EnqueueTensor_to_partitions Telemetry_RecordStart
                uninitialized_key fuel g G1 context1
                tensor_ (Some output_) dev prio ver stages [] Hss Hop1 Hout'
                ltac:(lia) HB Hint Hfuel Hstages Hcover)
      as (partitions & Hlenp & _ & ->).
    rewrite bool_decide_eq_true_2 by lia.
    rewrite bool_decide_eq_true_2 by done.
    assert (String.eqb (BPSContext.tensor_name context1) "" = false) as ->
      by (by apply String.eqb_neq).
    cbn [negb obind].
    match goal with
    | |- context [<[name := ?c]> (_name_to_cxt G)] => set (ctx2 := c)
    end.
    assert (BPSContext.initialized ctx2 = BPSContext.initialized context1 /\
            BPSContext.key_list ctx2 = BPSContext.key_list context1 /\
            BPSContext.compressor_list ctx2
              = BPSContext.compressor_list context1)
      as (Hi2 & Hk2 & Hc2).
    { unfold ctx2.
      by destruct ((dev =? CPU_DEVICE_ID) && bool_decide (_ = PUSH_PULL_OP)). }
    exists ctx2, [], [Callback Status_OK]. split; [reflexivity|].
    rewrite Hi2, Hk2. split_and!; try done.
    revert Hstages. unfold add_compress_stages. by rewrite Hc2.
  - destruct (EnqueueTensor_tasks Telemetry_RecordStart uninitialized_key fuel
                g G1 context1 tensor_
                (Some output_) dev prio ver stages ql' Hss Hop1 Hout'
                ltac:(lia) HB Hlen Hint Hfuel Hstages Hcover Hne)
      as (ctx2 & tasks & k0 & -> & Hhead & Hcount & Hkeys2 & Hinit2 & Hcomp2
          & Htasks).
    cbn [obind].
    eexists ctx2, ql', _. split; [reflexivity|].
    rewrite Hkeys2, Hinit2. split_and!; try done.
    { revert Hstages. unfold add_compress_stages. by rewrite Hcomp2. }
    intros _.
    exists tasks, k0. split; [done|]. split; [done|]. split; [done|].
    intros j k Hj.
    destruct (Htasks j k Hj) as (q & e & Hev & Hk & _ & _ & Hl & _ & _ & Hq).
    exists q, e. by split_and!.
Qed.
End InitTensorUse.

(** The theorem on the sample root process in a build with the compressor,
    for a declared context with keyword arguments and 5,000,000 bytes: the
    call returns and has created the compressors 0 and 1. *)
Lemma InitTensor_compressors_witness :
  (exists key_list,
     key_loop 2 5000000 (_partition_bytes sample_compressor_config) 0
       (push_pull_start_key
          (BPSContext.declared_key (sample_kwargs_context "w" 3)))
       (BPSContext.key_list (sample_kwargs_context "w" 3))
     = Ret (BPSContext.key_list (sample_kwargs_context "w" 3) ++ key_list)) /\
  exists context' G' evs,
    sample_InitTensor 2 sample_compressor_config (initial_global 2)
      (sample_kwargs_context "w" 3) 5000000 0 false
    = Ret (context', G', evs) /\
    BPSContext.kwargs context' = [("compressor_type", "onebit")] /\
    Z.of_nat (length (BPSContext.key_list context')) = 2 /\
    BPSContext.compressor_list context' = [0; 1] /\
    length (BPSContext.compressor_list context') = 2%nat.
Proof.
  pose proof (InitTensor_compressors sample_c_str sample_hash_fn 1
                sample_Hash_Mixed_Mode sample_getDataTypeLength
                sample_openSharedMemory sample_openNumaSharedMemory
                sample_openPcieSharedMemory sample_Serialize_size
                sample_compressor_config (initial_global 2)
                (sample_kwargs_context "w" 3) 5000000 0 false 2
                eq_refl eq_refl ltac:(simpl; lia) ltac:(lia)) as [Hloop Hret].
  split.
  - apply Hloop; [lia|vm_compute; lia].
  - eexists _, _, _. split; [vm_compute; reflexivity|].
    match goal with
    | |- context [BPSContext.kwargs ?c] =>
        destruct (Hret c _ _ ltac:(vm_compute; reflexivity))
          as (Hkw & Hn & Hc & Hl)
    end.
    split_and!; [exact Hkw|exact Hn|exact Hc|exact Hl].
Defined.

Lemma StartTask_enqueues_witness :
  exists context context1 G1 init_evs,
    _name_to_cxt sample_started_global !! "a" = Some context /\
    sample_InitTensor 2 sample_config sample_started_global context
      5000000 0 false = Ret (context1, G1, init_evs) /\
    init_evs = [ZPush 1024; ZPush (2 ^ 63 + 1025)] /\
    exists context' ql' enq_evs,
      sample_StartTask 2 sample_config sample_started_global
        (sample_tensor 5000000) (sample_tensor 5000000) 0 "a" 0 0
      = Ret (Status_OK,
             set_name_to_cxt G1
               (<["a" := context']> (_name_to_cxt sample_started_global)),
             init_evs ++ enq_evs) /\
      encode_calls sample_started_global G1 /\
      Forall (fun ev => is_ZPush ev = true) init_evs /\
      (_is_distributed sample_config
       && (_is_root_device sample_config
           && ((0 =? CPU_DEVICE_ID) && negb (t_data (sample_tensor 5000000) =? 0)
               || negb (_is_gdr sample_config)))
         = false -> G1 = sample_started_global /\ init_evs = []) /\
      BPSContext.initialized context' = true /\
      Z.of_nat (length (BPSContext.key_list context'))
        = ceil_div (t_size (sample_tensor 5000000))
                   (_partition_bytes sample_config) /\
      (forall (j : nat) k,
         BPSContext.key_list context' !! j = Some k ->
         k = u64 (push_pull_start_key (BPSContext.declared_key context)
                  + Z.of_nat j)) /\
      add_compress_stages sample_config context'
        (GetPushQueueList sample_config 0 ++ GetPullQueueList sample_config 0)
        = Ret ql' /\
      (ql' = [] -> enq_evs = [Callback Status_OK]) /\
      (ql' <> [] ->
       exists tasks k0,
         enq_evs = tasks ++ [RecordCallback k0] /\
         head (BPSContext.key_list context') = Some k0 /\
         length tasks = length (BPSContext.key_list context') /\
         forall (j : nat) k,
           BPSContext.key_list context' !! j = Some k ->
           exists q e,
             tasks !! j = Some (AddTask q (PushPullTask e)) /\
             key e = k /\
             len e = Z.min (_partition_bytes sample_config)
                           (t_size (sample_tensor 5000000)
                            - Z.of_nat j * _partition_bytes sample_config) /\
             head (queue_list e) = Some q).
Proof.
  eexists _, _, _, _. split; [vm_compute; reflexivity|].
  split; [vm_compute; reflexivity|].
  split; [vm_compute; reflexivity|].
  eapply (StartTask_enqueues sample_RecordStart sample_uninitialized_key
            sample_c_str sample_hash_fn 1 sample_Hash_Mixed_Mode
            sample_getDataTypeLength sample_openSharedMemory
            sample_openNumaSharedMemory sample_openPcieSharedMemory
            sample_Serialize_size 2 sample_config
            sample_started_global _ (sample_tensor 5000000)
            (sample_tensor 5000000) 0 "a" 0 0).
  - reflexivity.
  - vm_compute. reflexivity.
  - reflexivity.
  - reflexivity.
  - reflexivity.
  - reflexivity.
  - discriminate.
  - reflexivity.
  - vm_compute. split; reflexivity.
  - vm_compute. split; reflexivity.
  - vm_compute. reflexivity.
  - vm_compute. lia.
  - vm_compute. reflexivity.
Defined.

(** ** [Align] *)

(** X21. For an element length [l > 0] with [l * l * 8] within [int],
    [Align] rounds a size up to the next multiple of [l * l * 8]: the result
    is a multiple, at least the size and less than one unit above it, and
    aligning it again changes nothing. *)
Theorem Align_rounds_up (getDataTypeLength : Z -> Z) (size dtype : Z) :
  0 < getDataTypeLength dtype ->
  getDataTypeLength dtype * getDataTypeLength dtype * 8 < 2 ^ 31 ->
  0 <= size ->
  size + getDataTypeLength dtype * getDataTypeLength dtype * 8 <= 2 ^ 64 ->
  exists aligned,
    Align getDataTypeLength size dtype = Ret aligned /\
    aligned mod (getDataTypeLength dtype * getDataTypeLength dtype * 8) = 0 /\
    size <= aligned < size + getDataTypeLength dtype * getDataTypeLength dtype * 8 /\
    Align getDataTypeLength aligned dtype = Ret aligned.
Proof.
  intros Hl Hint Hsize Hroom.
  set (l := getDataTypeLength dtype) in *.
  set (m := l * l * 8) in *.
  assert (0 < m) as Hm by (unfold m; nia).
  assert (Align_min_size getDataTypeLength dtype = m) as Hmin.
  { unfold Align_min_size. fold l.
    rewrite (i32_small (l * l)) by (unfold m in *; nia).
    fold m. rewrite (i32_small m) by lia. apply u64_small. lia. }
  assert (forall s, 0 <= s -> s + (m - s mod m) mod m < 2 ^ 64 ->
            Align getDataTypeLength s dtype
            = Ret (s + (m - s mod m) mod m)) as Hval.
  { intros s Hs Hr. unfold Align. rewrite Hmin.
    destruct (Z.eqb_spec m 0) as [|_]; [lia|].
    pose proof (Z.mod_pos_bound s m Hm).
    pose proof (Z.mod_pos_bound (m - s mod m) m Hm).
    rewrite (u64_small (m - s mod m)) by lia.
    by rewrite u64_small by lia. }
  pose proof (Z.mod_pos_bound size m Hm) as Hr.
  pose proof (Z.mod_pos_bound (m - size mod m) m Hm) as Hpad.
  assert ((size + (m - size mod m) mod m) mod m = 0) as Hmult.
  { rewrite Zplus_mod_idemp_r.
    rewrite (Z.div_mod size m) at 1 by lia.
    replace (m * (size / m) + size mod m + (m - size mod m))
      with ((size / m + 1) * m) by lia.
    apply Z_mod_mult. }
  exists (size + (m - size mod m) mod m).
  split; [apply Hval; lia|]. split; [done|]. split; [lia|].
  rewrite Hval.
  - by rewrite Hmult, Z.sub_0_r, Z_mod_same_full, Z.add_0_r.
  - lia.
  - rewrite Hmult, Z.sub_0_r, Z_mod_same_full. lia.
Qed.

Lemma Align_rounds_up_witness :
  exists aligned,
    Align sample_getDataTypeLength 1000 0 = Ret aligned /\
    aligned mod (sample_getDataTypeLength 0 * sample_getDataTypeLength 0 * 8) = 0 /\
    1000 <= aligned
      < 1000 + sample_getDataTypeLength 0 * sample_getDataTypeLength 0 * 8 /\
    Align sample_getDataTypeLength aligned 0 = Ret aligned.
Proof.
  apply (Align_rounds_up sample_getDataTypeLength 1000 0);
    [reflexivity|reflexivity|discriminate|discriminate].
Defined.

(** ** [IsGDRKeyInited] *)

(** X22. [IsGDRKeyInited] is a test-and-set per key and receiver: after a
    call the same question is answered with true and changes nothing more;
    the answers for every other key or receiver are what they were; and the
    first question about a pair that was never set is answered with
    false. *)
Theorem IsGDRKeyInited_once (inited : gmap Z (gmap Z bool)) (key receiver : Z) :
  IsGDRKeyInited (IsGDRKeyInited inited key receiver).1 key receiver
    = ((IsGDRKeyInited inited key receiver).1, true) /\
  (forall key' receiver',
     (key', receiver') <> (key, receiver) ->
     (IsGDRKeyInited (IsGDRKeyInited inited key receiver).1 key' receiver').2
     = (IsGDRKeyInited inited key' receiver').2) /\
  (IsGDRKeyInited ∅ key receiver).2 = false.
Proof.
  unfold IsGDRKeyInited.
  destruct (default false (default ∅ (inited !! key) !! receiver)) eqn:Hflag;
    cbn [fst snd].
  - rewrite Hflag. split_and!; [done|done|].
    by rewrite lookup_empty.
  - split_and!.
    + by rewrite lookup_insert_eq; cbn; rewrite lookup_insert_eq.
    + intros key' receiver' Hne.
      destruct (decide (key' = key)) as [->|Hkey].
      * rewrite lookup_insert_eq. cbn.
        assert (receiver' <> receiver) as Hr by congruence.
        rewrite lookup_insert_ne by done.
        by destruct (default false (default ∅ (inited !! key) !! receiver')).
      * rewrite lookup_insert_ne by done.
        by destruct (default false (default ∅ (inited !! key') !! receiver')).
    + by rewrite lookup_empty.
Qed.

(** ** The PyTorch front-end: names and the group counter *)

Lemma c_str_idemp s : c_str (c_str s) = c_str s.
Proof.
  induction s as [|a s IH]; simpl; [done|].
  destruct (Ascii.eqb a Ascii.zero) eqn:Ha; simpl; [done|].
  by rewrite Ha, IH.
Qed.

Lemma nul_free_app a b :
  c_str a = a -> c_str b = b -> c_str (a +:+ b) = a +:+ b.
Proof.
  induction a as [|x a IH]; simpl; [done|].
  destruct (Ascii.eqb x Ascii.zero); [done|].
  intros [= Ha] Hb. by rewrite IH.
Qed.

Lemma pretty_N_char_not_nul x : Ascii.eqb (pretty_N_char x) Ascii.zero = false.
Proof. unfold pretty_N_char. by repeat case_match. Qed.

Lemma pretty_N_go_nul_free (x : N) : forall s,
  c_str s = s -> c_str (pretty_N_go x s) = (pretty_N_go x s).
Proof.
  induction (N.lt_wf_0 x) as [x _ IH]; intros s Hs.
  assert (x = 0 \/ 0 < x)%N as [->|Hpos] by lia.
  - by rewrite pretty_N_go_0.
  - rewrite pretty_N_go_step by done. apply IH.
    + apply N.div_lt; lia.
    + simpl. by rewrite pretty_N_char_not_nul, Hs.
Qed.

Lemma pretty_Z_nul_free (z : Z) : c_str (pretty z) = pretty z.
Proof.
  assert (forall p : positive, c_str (pretty p) = (pretty p)) as Hp.
  { intros p. unfold pretty, pretty_positive, pretty, pretty_N.
    destruct (decide _); [done|]. by apply pretty_N_go_nul_free. }
  destruct z as [|p|p]; [done|apply Hp|].
  change (pretty (Z.neg p)) with ("-" +:+ pretty p).
  by apply nul_free_app.
Qed.

Lemma GetOpName_nul_free prefix name handle :
  c_str prefix = prefix -> c_str name = name ->
  c_str (torch.GetOpName prefix name handle)
  = torch.GetOpName prefix name handle.
Proof.
  intros Hp Hn. unfold torch.GetOpName.
  destruct (negb (String.eqb name "")).
  - apply nul_free_app; [done|]. by apply (nul_free_app ".").
  - apply nul_free_app; [done|]. apply (nul_free_app ".noname.");
      [done|apply pretty_Z_nul_free].
Qed.

Lemma versioned_name_nul_free name version staleness :
  c_str (torch.versioned_name name version staleness)
  = torch.versioned_name name version staleness.
Proof.
  unfold torch.versioned_name. destruct (staleness =? 0).
  - apply GetOpName_nul_free; [done|apply c_str_idemp].
  - apply GetOpName_nul_free; [|apply c_str_idemp].
    apply (nul_free_app "byteps_version_"); [done|apply pretty_Z_nul_free].
Qed.

Lemma session_tensor_name_none name : session_tensor_name name (-1) = c_str name.
Proof. reflexivity. Qed.

(** A declaration registers its name and keeps every registration. *)
Lemma DeclareTensor_registers G G' name op_type provided_key session k :
  DeclareTensor G name op_type provided_key session = Ret (G', k) ->
  is_Some (_name_to_cxt G' !! session_tensor_name name session) /\
  (forall n, is_Some (_name_to_cxt G !! n) -> is_Some (_name_to_cxt G' !! n)).
Proof.
  unfold DeclareTensor.
  destruct (_name_to_cxt G !! session_tensor_name name session) as [cxt|] eqn:Hlk.
  - intros [= <- <-]. by rewrite Hlk.
  - destruct (if provided_key =? -1 then _ else _) as [[pk nk]|];
      cbn [obind]; [|done].
    intros [= <- <-]. cbn. split.
    + by rewrite lookup_insert_eq.
    + intros n Hn. destruct (decide (n = session_tensor_name name session)) as [->|Hne].
      * by rewrite lookup_insert_eq.
      * by rewrite lookup_insert_ne.
Qed.

Lemma declare_versions_registers op_type name : forall versions G G',
  torch.declare_versions G op_type name versions = Ret G' ->
  (forall i, i ∈ versions ->
     is_Some (_name_to_cxt G'
                !! torch.GetOpName ("byteps_version_" +:+ pretty i) (c_str name) 0)) /\
  (forall n, is_Some (_name_to_cxt G !! n) -> is_Some (_name_to_cxt G' !! n)).
Proof.
  induction versions as [|v versions IH]; intros G G'; simpl.
  - intros [= <-]. split; [|done]. intros i Hi. by apply elem_of_nil in Hi.
  - destruct (DeclareTensor G _ op_type (-1) (-1)) as [[G1 k]|] eqn:HD;
      cbn [obind]; [|done].
    intros Hrest. destruct (IH G1 G' Hrest) as (Hreg & Hkeep).
    destruct (DeclareTensor_registers _ _ _ _ _ _ _ HD) as (Hnew & Hkeep1).
    split.
    + intros i [->|Hi]%elem_of_cons; [|by apply Hreg].
      apply Hkeep.
      rewrite session_tensor_name_none in Hnew.
      rewrite GetOpName_nul_free in Hnew; [done| |apply c_str_idemp].
      apply (nul_free_app "byteps_version_"); [done|apply pretty_Z_nul_free].
    + intros n Hn. by apply Hkeep, Hkeep1.
Qed.

(** X23. The names that [DeclareTensor(name, staleness)] and
    [DeclareTensorAllgather(name, staleness)] register are the names that
    [DoPushPull], [DoPushPullGroupSync] and [DoAllgather] look up: after a
    returning declaration with staleness 0 the lookup succeeds for every
    version, and after one with a positive staleness it succeeds for every
    version from 0 to the staleness. *)
Theorem torch_declared_names_found (G G' : BytePSGlobal) (name : string)
    (staleness version : Z) :
  0 <= staleness < 2 ^ 31 - 1 ->
  staleness = 0 \/ 0 <= version <= staleness ->
  torch.DeclareTensor G name staleness = Ret G' \/
  torch.DeclareTensorAllgather G name staleness = Ret G' ->
  exists cxt,
    GetContextFromName G' (torch.versioned_name name version staleness) = Ret cxt.
Proof.
  intros Hst Hver Hdecl.
  assert (is_Some (_name_to_cxt G' !! torch.versioned_name name version staleness))
    as [cxt Hlk]; [|exists cxt; unfold GetContextFromName; by rewrite Hlk].
  assert (i32 (staleness + 1) = staleness + 1) as Hi by (apply i32_small; lia).
  assert (forall op_type,
            (let num_versions := i32 (staleness + 1) in
             if num_versions =? 1 then
               do (G', _) <- DeclareTensor G (torch.GetOpName "byteps" (c_str name) 0)
                               op_type (-1) (-1);
               Ret G'
             else
               torch.declare_versions G op_type name
                 (Z.of_nat <$> seq 0 (Z.to_nat num_versions))) = Ret G' ->
            is_Some (_name_to_cxt G'
                       !! torch.versioned_name name version staleness)) as Hboth.
  { intros op_type. cbv zeta. rewrite Hi. unfold torch.versioned_name.
    destruct (Z.eqb_spec (staleness + 1) 1) as [H1|H1].
    - assert (staleness = 0) as -> by lia. cbn [Z.eqb].
      destruct (DeclareTensor G _ op_type (-1) (-1)) as [[G1 k]|] eqn:HD;
        cbn [obind]; [|done].
      intros [= <-].
      destruct (DeclareTensor_registers _ _ _ _ _ _ _ HD) as (Hnew & _).
      rewrite session_tensor_name_none in Hnew.
      rewrite GetOpName_nul_free in Hnew; [done|done|apply c_str_idemp].
    - destruct (Z.eqb_spec staleness 0) as [|_]; [lia|].
      intros Hloop.
      destruct (declare_versions_registers _ _ _ _ _ Hloop) as (Hreg & _).
      apply Hreg. apply list_elem_of_fmap. exists (Z.to_nat version).
      split; [lia|]. apply elem_of_seq. lia. }
  destruct Hdecl as [Hdecl|Hdecl]; by apply (Hboth _ Hdecl).
Qed.

(** X24. [SetNumGrads(n)] followed by calls of [DoPushPullGroupSync]:
    for [1 <= n] the calls are numbered 1, 2, ..., n, 1, 2, ... and the
    counter is back at 0 after every n-th call. *)
Theorem group_sync_counts_cycle (num_grads : Z) (k : nat) :
  1 <= num_grads < 2 ^ 31 ->
  torch.group_sync_counts k num_grads 0
  = ((fun i : nat => Z.of_nat i mod num_grads + 1) <$> seq 0 k,
     Z.of_nat k mod num_grads).
Proof.
  intros Hn.
  assert (forall (k : nat) (c : Z), 0 <= c < num_grads ->
            torch.group_sync_counts k num_grads c
            = ((fun i : nat => (c + Z.of_nat i) mod num_grads + 1) <$> seq 0 k,
               (c + Z.of_nat k) mod num_grads)) as Hgen.
  { clear k. induction k as [|k IH]; intros c Hc.
    - simpl. by rewrite Z.add_0_r, Z.mod_small.
    - cbn [torch.group_sync_counts]. unfold torch.group_sync_count.
      rewrite (i32_small (c + 1)) by lia.
      assert ((if c + 1 =? num_grads then 0 else c + 1) = (c + 1) mod num_grads)
        as ->.
      { destruct (Z.eqb_spec (c + 1) num_grads) as [->|].
        - by rewrite Z_mod_same_full.
        - by rewrite Z.mod_small by lia. }
      pose proof (Z.mod_pos_bound (c + 1) num_grads ltac:(lia)).
      rewrite IH by lia. cbn [seq fmap list_fmap]. f_equal.
      + f_equal; [by rewrite Z.add_0_r, Z.mod_small by lia|].
        rewrite <- fmap_S_seq, <- list_fmap_compose.
        apply list_fmap_ext. intros _ i _. cbn.
        rewrite Zplus_mod_idemp_l. f_equal. f_equal. lia.
      + rewrite Zplus_mod_idemp_l. f_equal. lia. }
  rewrite Hgen by lia. f_equal.
Qed.

Lemma group_sync_counts_cycle_witness :
  torch.group_sync_counts 7 3 0
  = ((fun i : nat => Z.of_nat i mod 3 + 1) <$> seq 0 7, Z.of_nat 7 mod 3).
Proof. apply (group_sync_counts_cycle 3 7). lia. Defined.

Lemma torch_declared_names_found_witness :
  exists G',
    torch.DeclareTensor (initial_global 1) "grad" 2 = Ret G' /\
    exists cxt,
      GetContextFromName G' (torch.versioned_name "grad" 1 2) = Ret cxt.
Proof.
  eexists. split; [vm_compute; reflexivity|].
  eapply (torch_declared_names_found (initial_global 1) _ "grad" 2 1).
  - vm_compute. split; [discriminate|reflexivity].
  - right. lia.
  - left. vm_compute. reflexivity.
Defined.

(** ** All-gather: keys and tasks *)

Lemma allgather_key_small i d :
  0 <= i < 2 ^ 31 -> 0 <= d < 2 ^ 31 ->
  allgather_key i d = i * 2 ^ 32 + d * 2 ^ 16 + op_code ALLGATHER_OP * 2 ^ 10.
Proof.
  intros Hi Hd. unfold allgather_key. simpl op_code.
  rewrite (u64_small i), (u64_small d), (u64_small 4) by lia.
  rewrite (u64_small (i * 2 ^ 32)), (u64_small (d * 2 ^ 16)),
    (u64_small (4 * 2 ^ 10)) by lia.
  rewrite (u64_small (i * 2 ^ 32 + d * 2 ^ 16)) by lia.
  apply u64_small. lia.
Qed.

(** X25. On first use [InitTensorAllgather] gives the context one key per
    physical node: for a declared key [0 <= d < 2^31] the key of node [i] is
    [i * 2^32 + d * 2^16 + ALLGATHER_OP * 2^10], which for [d < 2^16]
    carries the node in its bits above 32; the context is then initialised
    and holds exactly the [num_phy_node] keys that [EnqueueAllgatherTensor]
    checks for.  A size of zero aborts.  Without GDR all-gather the element
    length of the type must give a non-zero alignment unit. *)
Theorem InitTensorAllgather_keys (getDataTypeLength : Z -> Z)
    (openSharedMemory : Z -> Z -> Z) (g : Config) (context : BPSContext.t)
    (input_size output_size dtype : Z) :
  BPSContext.initialized context = false ->
  BPSContext.key_list context = [] ->
  0 < _num_phy_node g < 2 ^ 31 ->
  0 <= BPSContext.declared_key context < 2 ^ 31 ->
  (_is_gdr_allgather g = false ->
   Align_min_size getDataTypeLength dtype <> 0) ->
  (0 < input_size -> 0 < output_size ->
   exists context',
     InitTensorAllgather getDataTypeLength openSharedMemory g context
       input_size output_size dtype = Ret context' /\
     BPSContext.initialized context' = true /\
     i32 (Z.of_nat (length (BPSContext.key_list context'))) = _num_phy_node g /\
     (forall (i : nat) k,
        BPSContext.key_list context' !! i = Some k ->
        k = Z.of_nat i * 2 ^ 32 + BPSContext.declared_key context * 2 ^ 16
            + op_code ALLGATHER_OP * 2 ^ 10 /\
        (BPSContext.declared_key context < 2 ^ 16 -> k / 2 ^ 32 = Z.of_nat i))) /\
  (input_size <= 0 \/ output_size <= 0 ->
   InitTensorAllgather getDataTypeLength openSharedMemory g context
     input_size output_size dtype = Fail CheckFailed).
Proof.
  intros Hinit Hkl Hn Hd Halign. unfold InitTensorAllgather.
  rewrite Hinit, Hkl. cbn [app]. split.
  - intros Hin Hout.
    destruct (Z.ltb_spec 0 input_size) as [_|]; [|lia].
    destruct (Z.ltb_spec 0 output_size) as [_|]; [|lia].
    set (keys := (fun i : nat => allgather_key (Z.of_nat i) _)
                   <$> seq 0 (Z.to_nat (_num_phy_node g))).
    assert (length keys = Z.to_nat (_num_phy_node g)) as Hlen.
    { unfold keys. by rewrite length_fmap, length_seq. }
    assert (forall (i : nat) k, keys !! i = Some k ->
              k = Z.of_nat i * 2 ^ 32 + BPSContext.declared_key context * 2 ^ 16
                  + op_code ALLGATHER_OP * 2 ^ 10 /\
              (BPSContext.declared_key context < 2 ^ 16 ->
               k / 2 ^ 32 = Z.of_nat i)) as Hkeys.
    { intros i k Hi. unfold keys in Hi.
      apply list_lookup_fmap_Some in Hi as (j & -> & Hj).
      apply lookup_seq in Hj as [-> Hlt]. simpl in *.
      rewrite allgather_key_small by lia. split; [done|].
      intros Hd16. simpl op_code.
      apply (div_mod_decompose _ (Z.of_nat i)
               (BPSContext.declared_key context * 2 ^ 16 + 4 * 2 ^ 10)); lia. }
    assert (exists context1,
              (if _is_gdr_allgather g
               then Ret (BPSContext.set_key_list context keys)
               else
                 do aligned_size <- Align getDataTypeLength output_size dtype;
                 do k0 <- vec_idx (BPSContext.key_list
                                     (BPSContext.set_key_list context keys)) 0;
                 Ret (BPSContext.set_cpubuff
                        (BPSContext.set_key_list context keys)
                        (openSharedMemory k0 aligned_size))) = Ret context1 /\
              BPSContext.key_list context1 = keys) as (context1 & -> & Hk1).
    { destruct (_is_gdr_allgather g) eqn:Hgdr; [by eexists|].
      unfold Align. destruct (Z.eqb_spec (Align_min_size getDataTypeLength dtype) 0)
        as [Hz|_]; [by destruct (Halign eq_refl)|].
      cbn [obind BPSContext.key_list BPSContext.set_key_list].
      destruct keys as [|k0 keys'] eqn:Hk; [simpl in Hlen; lia|].
      cbn. by eexists. }
    cbn [obind]. eexists. split; [reflexivity|].
    cbn [BPSContext.initialized BPSContext.key_list BPSContext.set_initialized].
    rewrite Hk1. split; [done|]. split; [|done].
    rewrite Hlen, Z2Nat.id by lia. apply i32_small. lia.
  - intros [Hin|Hout].
    + destruct (Z.ltb_spec 0 input_size); [lia|done].
    + destruct (0 <? input_size); [|done].
      destruct (Z.ltb_spec 0 output_size); [lia|done].
Qed.

Lemma InitTensorAllgather_keys_witness :
  exists context',
    InitTensorAllgather (fun _ => 4) (fun _ _ => 0) sample_config
      (sample_context "g" 1) 1024 2048 0 = Ret context' /\
    BPSContext.initialized context' = true /\
    i32 (Z.of_nat (length (BPSContext.key_list context')))
      = _num_phy_node sample_config /\
    (forall (i : nat) k,
       BPSContext.key_list context' !! i = Some k ->
       k = Z.of_nat i * 2 ^ 32
           + BPSContext.declared_key (sample_context "g" 1) * 2 ^ 16
           + op_code ALLGATHER_OP * 2 ^ 10 /\
       (BPSContext.declared_key (sample_context "g" 1) < 2 ^ 16 ->
        k / 2 ^ 32 = Z.of_nat i)).
Proof.
  apply (InitTensorAllgather_keys (fun _ => 4) (fun _ _ => 0) sample_config
           (sample_context "g" 1) 1024 2048 0);
    [reflexivity|reflexivity|simpl; lia|simpl; lia|discriminate|lia|lia].
Defined.

(** The response tasks of all-gather: one per listed node other than this
    one, each with the key of its node. *)
Lemma allgather_responses_spec keys resp_task q phy_id : forall nodes evs,
  allgather_responses keys resp_task q phy_id nodes = Ret evs ->
  length evs = length (filter (fun i => i <> phy_id) nodes) /\
  List.filter is_AddTask evs = evs /\
  List.filter is_Callback evs = [] /\
  (forall ev, ev ∈ evs ->
     exists i k, i ∈ nodes /\ i <> phy_id /\ 0 <= i /\
                 keys !! Z.to_nat i = Some k /\
                 ev = AddTask q (P2PTask (with_key resp_task k))) /\
  (forall i, i ∈ nodes -> i <> phy_id ->
     exists k, keys !! Z.to_nat i = Some k /\
               AddTask q (P2PTask (with_key resp_task k)) ∈ evs).
Proof.
  induction nodes as [|i nodes IH]; intros evs; simpl.
  - intros [= <-]. split_and!; try done.
    + intros ev Hev. by apply elem_of_nil in Hev.
    + intros i Hi. by apply elem_of_nil in Hi.
  - destruct (Z.eqb_spec i phy_id) as [->|Hne].
    + intros Hrest. destruct (IH evs Hrest) as (Hlen & Htask & Hcb & Hall & Hex).
      rewrite filter_cons_False by (by intros ?).
      split_and!; try done.
      * intros ev Hev. destruct (Hall ev Hev) as (j & k & Hj & Hrest').
        exists j, k. split; [by right|done].
      * intros j [->|Hj]%elem_of_cons Hjne; [done|]. by apply Hex.
    + unfold vec_at. destruct (Z.ltb_spec i 0) as [|Hpos]; [done|].
      destruct (keys !! Z.to_nat i) as [k|] eqn:Hk; [|done]. cbn [obind].
      destruct (allgather_responses keys resp_task q phy_id nodes)
        as [rest|] eqn:Hrest; [|done].
      cbn [obind]. intros [= <-].
      destruct (IH rest eq_refl) as (Hlen & Htask & Hcb & Hall & Hex).
      rewrite filter_cons_True by done.
      split_and!.
      * simpl. by rewrite Hlen.
      * simpl. by rewrite Htask.
      * simpl. done.
      * intros ev [->|Hev]%elem_of_cons.
        -- exists i, k. split_and!; try done. by left.
        -- destruct (Hall ev Hev) as (j & k' & Hj & Hrest').
           exists j, k'. split; [by right|done].
      * intros j [->|Hj]%elem_of_cons Hjne.
        -- exists k. split; [done|by left].
        -- destruct (Hex j Hj Hjne) as (k' & Hk' & Hin).
           exists k'. split; [done|by right].
Qed.

(** Among the nodes [a, a + n) all but [phy_id] are other nodes. *)
Lemma other_nodes_count (phy_id : Z) : forall (n a : nat),
  Z.of_nat (length (filter (fun i => i <> phy_id) (Z.of_nat <$> seq a n)))
  = Z.of_nat n
    - (if bool_decide (Z.of_nat a <= phy_id < Z.of_nat a + Z.of_nat n)
       then 1 else 0).
Proof.
  induction n as [|n IH]; intros a.
  - simpl. rewrite bool_decide_eq_false_2 by lia. done.
  - cbn [seq fmap list_fmap]. specialize (IH (S a)).
    destruct (decide (Z.of_nat a = phy_id)) as [Heq|Hne].
    + rewrite filter_cons_False by (by intros ?).
      fold (fmap (M := list) Z.of_nat (seq (S a) n)). rewrite IH.
      rewrite bool_decide_eq_false_2 by lia.
      rewrite bool_decide_eq_true_2 by lia. lia.
    + rewrite filter_cons_True by done. simpl length.
      fold (fmap (M := list) Z.of_nat (seq (S a) n)).
      rewrite Nat2Z.inj_succ, IH.
      destruct (bool_decide_reflect
                  (Z.of_nat (S a) <= phy_id < Z.of_nat (S a) + Z.of_nat n));
        [rewrite bool_decide_eq_true_2 by lia
        |rewrite bool_decide_eq_false_2 by lia]; lia.
Qed.

(** X26. A returning [EnqueueAllgatherTensor] in a CUDA build (where a
    job over several nodes is distributed) enqueues exactly [total_partnum]
    tasks, the count its tasks carry, and does not invoke the callback: the
    request task with the key of this node, and, when there are several
    nodes and the process is local rank 0 or the local root, one response
    task for every other node with that node's key. *)
Theorem EnqueueAllgatherTensor_task_count
    (Telemetry_RecordStart : string -> Z) (g : Config) (G : BytePSGlobal)
    (context : BPSContext.t) (input output_ : option Tensor)
    (dev prio ver : Z) (shapes : list Z)
    (st : Status) (context' : BPSContext.t) (evs : list event) :
  _should_shutdown G = false ->
  _building_cuda g = true ->
  (1 < _num_phy_node g -> _is_distributed g = true) ->
  Z.of_nat (length (BPSContext.key_list context)) < 2 ^ 31 ->
  EnqueueAllgatherTensor Telemetry_RecordStart g G context input output_
    dev prio ver shapes = Ret (st, context', evs) ->
  st = Status_OK /\
  List.filter is_Callback evs = [] /\
  Z.of_nat (length (List.filter is_AddTask evs)) = allgather_total_partnum g /\
  (forall q t, AddTask q (P2PTask t) ∈ evs ->
     total_partnum (base t) = allgather_total_partnum g) /\
  (exists q t req_key,
     head evs = Some (AddTask q (P2PTask t)) /\
     BPSContext.key_list context !! Z.to_nat (_phy_node_id g) = Some req_key /\
     key (base t) = req_key /\
     request_counter t = Some (_num_phy_node g - 1)) /\
  (forall i : nat,
     Z.of_nat i <> _phy_node_id g ->
     (Z.of_nat i < _num_phy_node g) ->
     1 < allgather_total_partnum g ->
     exists q t k,
       AddTask q (P2PTask t) ∈ tail evs /\
       BPSContext.key_list context !! i = Some k /\ key (base t) = k).
Proof.
  intros Hrun Hcuda Hdist Hlen. unfold EnqueueAllgatherTensor.
  rewrite Hrun. destruct (_is_joint g); [|done].
  destruct input as [input_t|]; [|done].
  destruct (Z.eqb_spec (i32 (Z.of_nat (length (BPSContext.key_list context))))
              (_num_phy_node g)) as [Hn|]; [|done].
  rewrite i32_small in Hn by lia.
  destruct (match shapes with [] => Ret [] | _ :: _ => _ end) as [offsets|];
    cbn [obind]; [|done].
  destruct (vec_idx (BPSContext.key_list context) (_phy_node_id g))
    as [req_key|] eqn:Hreq; cbn [obind]; [|done].
  apply vec_idx_Ret in Hreq as [Hphy0 Hreq].
  pose proof (lookup_lt_Some _ _ _ Hreq) as Hphy.
  fold (allgather_total_partnum g).
  assert (1 <= allgather_total_partnum g < 2 ^ 31) as Htot.
  { unfold allgather_total_partnum. destruct (_ && _); lia. }
  destruct (Z.eqb_spec (allgather_total_partnum g) 0) as [|_]; [lia|].
  assert (exists q0 rest, GetAllgatherRequestQueueList g = q0 :: rest)
    as (q0 & rest & Hq0).
  { unfold GetAllgatherRequestQueueList. rewrite Hcuda.
    destruct (_is_signal_root g); by eexists _, _. }
  rewrite Hq0.
  set (resp_q := GetAllgatherResponseQueueList g).
  assert (resp_q = [] /\ allgather_total_partnum g = 1 \/
          resp_q <> [] /\ allgather_total_partnum g = _num_phy_node g /\
          1 < _num_phy_node g) as Hresp.
  { unfold resp_q, GetAllgatherResponseQueueList, allgather_total_partnum.
    rewrite Hcuda. cbn [andb].
    destruct (Z.ltb_spec 1 (_num_phy_node g)) as [Hmany|Hone].
    - rewrite (Hdist Hmany). cbn [andb].
      destruct (_local_rank g =? 0), (_is_root_device g), (_p2p_ack_disabled g);
        cbn; (by left) || (right; split_and!; done).
    - left. split; [done|]. destruct (_ && _); [lia|done]. }
  rewrite (u32_small (allgather_total_partnum g)) by lia.
  destruct Hresp as [[Hnil Hone]|(Hnn & Hall & Hmany)].
  - rewrite Hnil. cbn [obind app]. intros [= <- <- <-].
    split_and!; try done.
    + intros q t Hin. apply list_elem_of_singleton in Hin.
      by inversion Hin; subst.
    + eexists _, _, req_key. split_and!; done.
    + intros i _ _ Hgt. lia.
  - destruct resp_q as [|q1 resp_rest] eqn:Hrq; [done|].
    destruct (allgather_responses _ _ _ _ _) as [resp_evs|] eqn:Hr;
      cbn [obind]; [|done].
    intros [= <- <- <-].
    destruct (allgather_responses_spec _ _ _ _ _ _ Hr)
      as (Hcount & Htasks & Hcb & Hfrom & Hfor).
    pose proof (other_nodes_count (_phy_node_id g)
                  (Z.to_nat (_num_phy_node g)) 0) as Hothers.
    rewrite bool_decide_eq_true_2 in Hothers by lia.
    split_and!; try done.
    + cbn [app List.filter is_AddTask length]. rewrite Htasks, Hcount. lia.
    + intros q t [Hin|Hin]%elem_of_cons.
      * by inversion Hin; subst.
      * destruct (Hfrom _ Hin) as (i & k & _ & _ & _ & _ & Hev).
        by inversion Hev; subst.
    + eexists _, _, req_key. split_and!; done.
    + intros i Hne Hlt _.
      destruct (Hfor (Z.of_nat i)) as (k & Hk & Hin).
      { apply list_elem_of_fmap. exists i. split; [done|].
        apply elem_of_seq. lia. }
      { done. }
      rewrite Nat2Z.id in Hk.
      eexists _, _, k. split; [exact Hin|]. by split.
Qed.

Lemma EnqueueAllgatherTensor_task_count_witness :
  exists st context' evs,
    EnqueueAllgatherTensor sample_RecordStart sample_config (initial_global 1)
      sample_allgather_context (Some (sample_tensor 1024))
      (Some (sample_tensor 2048)) 0 0 0 [] = Ret (st, context', evs) /\
    st = Status_OK /\
    List.filter is_Callback evs = [] /\
    Z.of_nat (length (List.filter is_AddTask evs))
      = allgather_total_partnum sample_config /\
    (forall q t, AddTask q (P2PTask t) ∈ evs ->
       total_partnum (base t) = allgather_total_partnum sample_config) /\
    (exists q t req_key,
       head evs = Some (AddTask q (P2PTask t)) /\
       BPSContext.key_list sample_allgather_context
         !! Z.to_nat (_phy_node_id sample_config) = Some req_key /\
       key (base t) = req_key /\
       request_counter t = Some (_num_phy_node sample_config - 1)) /\
    (forall i : nat,
       Z.of_nat i <> _phy_node_id sample_config ->
       (Z.of_nat i < _num_phy_node sample_config) ->
       1 < allgather_total_partnum sample_config ->
       exists q t k,
         AddTask q (P2PTask t) ∈ tail evs /\
         BPSContext.key_list sample_allgather_context !! i = Some k /\
         key (base t) = k).
Proof.
  eexists _, _, _. split; [vm_compute; reflexivity|].
  eapply (EnqueueAllgatherTensor_task_count sample_RecordStart sample_config
            (initial_global 1) sample_allgather_context
            (Some (sample_tensor 1024)) (Some (sample_tensor 2048)) 0 0 0 []).
  - reflexivity.
  - reflexivity.
  - reflexivity.
  - vm_compute. reflexivity.
  - vm_compute. reflexivity.
Defined.

(** ** All-to-all: sizes against bounds, and the number of tasks *)

(** The size checks of [InitTensorAlltoall], given a response size and a
    bound for every rank: they pass when every size is within its bound and
    abort on their check otherwise. *)
Lemma alltoall_check_sizes_spec (bounds resp_sizes : list Z) :
  forall (request_sizes : list Z) (k : nat),
    (k + length request_sizes <= length resp_sizes)%nat ->
    (k + length request_sizes <= length bounds)%nat ->
    (alltoall_check_sizes bounds request_sizes resp_sizes (Z.of_nat k) = Ret tt /\
     forall (j : nat) rq rs b,
       request_sizes !! j = Some rq -> resp_sizes !! (k + j)%nat = Some rs ->
       bounds !! (k + j)%nat = Some b -> rq <= i32 b /\ rs <= i32 b) \/
    (alltoall_check_sizes bounds request_sizes resp_sizes (Z.of_nat k)
       = Fail CheckFailed /\
     exists (j : nat) rq rs b,
       request_sizes !! j = Some rq /\ resp_sizes !! (k + j)%nat = Some rs /\
       bounds !! (k + j)%nat = Some b /\ (i32 b < rq \/ i32 b < rs)).
Proof.
  induction request_sizes as [|rq rqs IH]; intros k Hrs Hb.
  - left. split; [done|]. intros j rq rs b Hj. done.
  - simpl in Hrs, Hb. cbn [alltoall_check_sizes].
    unfold vec_idx. destruct (Z.ltb_spec (Z.of_nat k) 0) as [|_]; [lia|].
    rewrite Nat2Z.id.
    destruct (resp_sizes !! k) as [rs|] eqn:Hrsk;
      [|apply lookup_ge_None in Hrsk; lia].
    destruct (bounds !! k) as [b|] eqn:Hbk;
      [|apply lookup_ge_None in Hbk; lia].
    cbn [obind].
    destruct (Z.leb_spec rq (i32 b)) as [Hrq|Hrq].
    2:{ right. split; [done|]. exists 0%nat, rq, rs, b.
        rewrite Nat.add_0_r. split_and!; try done. by left. }
    destruct (Z.leb_spec rs (i32 b)) as [Hrs'|Hrs'].
    2:{ right. split; [done|]. exists 0%nat, rq, rs, b.
        rewrite Nat.add_0_r. split_and!; try done. by right. }
    replace (Z.of_nat k + 1) with (Z.of_nat (S k)) by lia.
    destruct (IH (S k)) as [[-> Hall]|[-> (j & rq' & rs' & b' & H1 & H2 & H3 & H4)]];
      [lia|lia| |].
    + left. split; [done|]. intros [|j] rq' rs' b' Hj Hrsj Hbj.
      * rewrite Nat.add_0_r in *. simpl in Hj. by simplify_eq.
      * simpl in Hj. apply (Hall j rq' rs' b' Hj).
        -- by rewrite Nat.add_succ_comm.
        -- by rewrite Nat.add_succ_comm.
    + right. split; [done|]. exists (S j), rq', rs', b'.
      rewrite <- !Nat.add_succ_comm. by split_and!.
Qed.

(** X27. On an initialised all-to-all context [InitTensorAlltoall] only
    checks: with a response size and a bound for every rank it returns the
    context unchanged and does nothing when every request and response size
    is within the bound fixed for its rank at first use, and aborts on its
    check when one size exceeds its bound. *)
Theorem InitTensorAlltoall_size_check
    (ComposeAlltoallKey : Z -> Z -> Z) (alltoall_needed_size : Z -> Z)
    (PageAlignedMalloc : Z -> Z) (g : Config) (context : BPSContext.t)
    (request_sizes resp_sizes : list Z) (use_pull : bool) :
  BPSContext.initialized context = true ->
  (length request_sizes <= length resp_sizes)%nat ->
  (length request_sizes <= length (BPSContext.bounds_for_ranks context))%nat ->
  ((forall (j : nat) rq rs b,
      request_sizes !! j = Some rq -> resp_sizes !! j = Some rs ->
      BPSContext.bounds_for_ranks context !! j = Some b ->
      rq <= i32 b /\ rs <= i32 b) ->
   InitTensorAlltoall ComposeAlltoallKey alltoall_needed_size PageAlignedMalloc
     g context request_sizes resp_sizes use_pull = Ret (context, [])) /\
  ((exists (j : nat) rq rs b,
      request_sizes !! j = Some rq /\ resp_sizes !! j = Some rs /\
      BPSContext.bounds_for_ranks context !! j = Some b /\
      (i32 b < rq \/ i32 b < rs)) ->
   InitTensorAlltoall ComposeAlltoallKey alltoall_needed_size PageAlignedMalloc
     g context request_sizes resp_sizes use_pull = Fail CheckFailed).
Proof.
  intros Hinit Hrs Hb.
  destruct (alltoall_check_sizes_spec (BPSContext.bounds_for_ranks context)
              resp_sizes request_sizes 0 Hrs Hb)
    as [[Hok Hall]|[Hfail (j & rq & rs & b & H1 & H2 & H3 & H4)]];
    change (Z.of_nat 0) with 0 in *; cbn [Nat.add] in *.
  - split.
    + intros _. by apply InitTensorAlltoall_initialized.
    + intros (j & rq & rs & b & H1 & H2 & H3 & H4).
      destruct (Hall j rq rs b H1 H2 H3). lia.
  - split.
    + intros Hwithin. destruct (Hwithin j rq rs b H1 H2 H3). lia.
    + intros _. unfold InitTensorAlltoall. rewrite Hinit. cbn [obind].
      by rewrite Hfail.
Qed.

Section AlltoallTasks.
Context (Telemetry_RecordStart : string -> Z) (getDataTypeLength : Z -> Z)
        (ComposeAlltoallKey : Z -> Z -> Z) (GetAlltoallTensorId : Z -> Z)
        (alltoall_needed_size : Z -> Z) (PageAlignedMalloc : Z -> Z).



End AlltoallTasks.

Lemma InitTensorAlltoall_size_check_witness :
  ((forall (j : nat) rq rs b,
      [20; 4096001] !! j = Some rq -> [20; 28] !! j = Some rs ->
      BPSContext.bounds_for_ranks sample_alltoall_context !! j = Some b ->
      rq <= i32 b /\ rs <= i32 b) ->
   InitTensorAlltoall sample_ComposeAlltoallKey sample_needed_size
     sample_PageAlignedMalloc sample_config sample_alltoall_context
     [20; 4096001] [20; 28] false = Ret (sample_alltoall_context, [])) /\
  ((exists (j : nat) rq rs b,
      [20; 4096001] !! j = Some rq /\ [20; 28] !! j = Some rs /\
      BPSContext.bounds_for_ranks sample_alltoall_context !! j = Some b /\
      (i32 b < rq \/ i32 b < rs)) ->
   InitTensorAlltoall sample_ComposeAlltoallKey sample_needed_size
     sample_PageAlignedMalloc sample_config sample_alltoall_context
     [20; 4096001] [20; 28] false = Fail CheckFailed).
Proof.
  apply (InitTensorAlltoall_size_check sample_ComposeAlltoallKey
           sample_needed_size sample_PageAlignedMalloc sample_config
           sample_alltoall_context [20; 4096001] [20; 28] false).
  - vm_compute. reflexivity.
  - simpl. lia.
  - vm_compute. lia.
Defined.

